(** * Scout execution pipeline: executor entry point, agent loop and tools

    A shallow embedding of the edge function [scout-cron]:
      - the [serve] handler of its entry point (index.ts),
      - [cosineSimilarity] and [executeScoutAgent] (agent.ts),
      - [executeSearchTool] and [executeScrapeTool] (tools.ts),
      - the type definitions (types.ts) and [getOpenAIConfig]
        (openai-config.ts).

    JavaScript numbers are binary64 floats where the code computes with them
    (embeddings, similarities) and integers ([Z], [nat]) where it counts or
    reads the clock.  A string is a sequence of code units below 256, one
    character of [string] for each, so that [length], [slice], [substring]
    and [lastIndexOf] count as JavaScript does; the one constant of the code
    with a character outside this range (the arrow in the message about the
    credits) stands as its UTF-8 bytes.  The relational store is a record of
    tables, each a list of rows.  An [async] function whose body can throw
    is a computation in a state-and-exception monad [M].

    What the services answer during one invocation (chat completions,
    Firecrawl, embeddings, the e-mail sender, the insert of the execution)
    is given by an [Oracle]; every statement holds for all of them.  Left
    out are the console log, the analytics events (fired and forgotten), and
    the prompts and the conversation, which only feed the chat completion,
    whose reply the oracle gives for each iteration. *)

From Stdlib Require Import String Ascii List ZArith Bool Arith Lia Floats.
From Stdlib Require Import DecimalString.
Import ListNotations.

#[local] Set Warnings "-register-all".

Local Open Scope list_scope.
Local Open Scope string_scope.

(* ===================================================================== *)
(** * JavaScript strings *)
(* ===================================================================== *)

Module JsString.

Definition dquote : string := String (ascii_of_nat 34) EmptyString.
Definition newline : string := String (ascii_of_nat 10) EmptyString.

(** [s.includes(sub)] *)
Fixpoint includes (s sub : string) : bool :=
  String.prefix sub s ||
  match s with
  | EmptyString => false
  | String _ rest => includes rest sub
  end.

(** The white space of [\s] and of [trim] among the code units below
    256: tab, line feed, vertical tab, form feed, carriage return, space
    and the no-break space U+00A0.  (The other white space characters of
    JavaScript, U+FEFF and U+2028 among them, are code units above
    255.) *)
Definition isSpace (c : ascii) : bool :=
  let n := nat_of_ascii c in
  ((9 <=? n)%nat && (n <=? 13)%nat) || (n =? 32)%nat || (n =? 160)%nat.

Fixpoint trimStart (s : string) : string :=
  match s with
  | EmptyString => EmptyString
  | String c rest => if isSpace c then trimStart rest else s
  end.

Fixpoint trimEnd (s : string) : string :=
  match s with
  | EmptyString => EmptyString
  | String c rest =>
      match trimEnd rest with
      | EmptyString => if isSpace c then EmptyString else String c EmptyString
      | rest' => String c rest'
      end
  end.

(** [s.trim()] *)
Definition trim (s : string) : string := trimEnd (trimStart s).

Fixpoint drop (n : nat) (s : string) : string :=
  match n, s with
  | S k, String _ rest => drop k rest
  | _, _ => s
  end.

(** [s.replace(/<pat>\s*/g, '')] for a literal, non-empty [pat]: every
    occurrence of [pat], scanning from the left, is removed together with
    the white space that follows it.  Each step consumes a character, so
    [String.length s] steps of fuel reach the end of [s]. *)
Fixpoint removeWithSpace (fuel : nat) (pat s : string) : string :=
  match fuel with
  | O => s
  | S fuel' =>
      match s with
      | EmptyString => EmptyString
      | String c rest =>
          if String.prefix pat s
          then removeWithSpace fuel' pat (trimStart (drop (String.length pat) s))
          else String c (removeWithSpace fuel' pat rest)
      end
  end.

Definition replaceAllWithSpace (pat s : string) : string :=
  removeWithSpace (String.length s) pat s.

(** [s.lastIndexOf(c)], [None] for -1 *)
Fixpoint lastIndexOf (c : ascii) (s : string) : option nat :=
  match s with
  | EmptyString => None
  | String d rest =>
      match lastIndexOf c rest with
      | Some i => Some (S i)
      | None => if Ascii.eqb d c then Some 0 else None
      end
  end.

(** Truthiness of a string: the empty string is falsy. *)
Definition nonEmpty (s : string) : bool :=
  match s with EmptyString => false | _ => true end.

(** [`${n}`] for a non-negative integer *)
Definition ofNat (n : nat) : string := NilEmpty.string_of_uint (Nat.to_uint n).

End JsString.

(* ===================================================================== *)
(** * JavaScript values read from response bodies, and thrown errors *)
(* ===================================================================== *)

(** What [response.json()] yields. *)
Inductive json : Type :=
| JNull
| JBool (b : bool)
| JNum (x : float)
| JStr (s : string)
| JArr (items : list json)
| JObj (fields : list (string * json)).

(** A value of type [any]: [None] is [undefined]. *)
Definition jsval : Type := option json.

(** A thrown [Error] object: [error.name] and [error.message]. *)
Record JsError : Type := mkJsError { err_name : string; err_message : string }.

Definition Error (msg : string) : JsError := mkJsError "Error" msg.
Definition TypeError (msg : string) : JsError := mkJsError "TypeError" msg.
Definition AbortError : JsError := mkJsError "AbortError" "The signal has been aborted".

(** The result of evaluating an expression that may throw. *)
Inductive Res (A : Type) : Type :=
| Ok (a : A)
| Throw (e : JsError).
Arguments Ok {A} a.
Arguments Throw {A} e.

Module Js.

Definition truthy (v : jsval) : bool :=
  match v with
  | None | Some JNull => false
  | Some (JBool b) => b
  | Some (JNum x) => negb (PrimFloat.eqb x 0%float || PrimFloat.is_nan x)
  | Some (JStr s) => JsString.nonEmpty s
  | Some (JArr _) | Some (JObj _) => true
  end.

(** [a || b] *)
Definition or (a b : jsval) : jsval := if truthy a then a else b.

Fixpoint lookup (k : string) (fields : list (string * json)) : jsval :=
  match fields with
  | [] => None
  | (k', v) :: rest => if String.eqb k k' then Some v else lookup k rest
  end.

(** [v.k]: a property of [undefined] or [null] cannot be read. *)
Definition get (v : jsval) (k : string) : Res jsval :=
  match v with
  | None | Some JNull => Throw (TypeError ("Cannot read properties of null or undefined (reading '" ++ k ++ "')"))
  | Some (JObj fields) => Ok (lookup k fields)
  | Some _ => Ok None
  end.

(** [v?.k] *)
Definition getOpt (v : jsval) (k : string) : jsval :=
  match v with
  | Some (JObj fields) => lookup k fields
  | _ => None
  end.

(** [obj.k = v] on the properties of an object: an own property keeps
    its place, a new one comes last. *)
Fixpoint setProperty (k : string) (v : json) (fields : list (string * json))
    : list (string * json) :=
  match fields with
  | [] => [(k, v)]
  | (k', v') :: rest =>
      if String.eqb k k' then (k, v) :: rest else (k', v') :: setProperty k v rest
  end.

End Js.

(* ===================================================================== *)
(** * Data model: types.ts and the persisted tables *)
(* ===================================================================== *)

Inductive Frequency : Type := daily | every_3_days | weekly.

Inductive WaitFor : Type :=
| WaitMs (ms : Z)
| WaitSelector (selector : string).

(** [ScrapeOptions] of types.ts.  [FirecrawlOptions] of tools.ts has the same
    four optional fields, and the agent copies one into the other field by
    field. *)
Record ScrapeOptions : Type := {
  cookies : option string;
  headers : option (list (string * string));
  waitFor : option WaitFor;
  timeout : option Z
}.
Definition FirecrawlOptions : Type := ScrapeOptions.

Record Location : Type := { city : string; latitude : float; longitude : float }.

Module Scout.
Record t : Type := mk {
  id : string;
  user_id : string;
  title : string;
  description : string;
  goal : string;
  search_queries : list string;
  location : option Location;
  frequency : option Frequency;
  is_active : bool;
  last_run_at : option Z;
  consecutive_failures : nat;
  scrape_options : option ScrapeOptions
}.

Definition set_is_active (b : bool) (s : t) : t :=
  mk (id s) (user_id s) (title s) (description s) (goal s) (search_queries s)
     (location s) (frequency s) b (last_run_at s) (consecutive_failures s)
     (scrape_options s).

Definition set_last_run_at (v : option Z) (s : t) : t :=
  mk (id s) (user_id s) (title s) (description s) (goal s) (search_queries s)
     (location s) (frequency s) (is_active s) v (consecutive_failures s)
     (scrape_options s).

Definition set_consecutive_failures (n : nat) (s : t) : t :=
  mk (id s) (user_id s) (title s) (description s) (goal s) (search_queries s)
     (location s) (frequency s) (is_active s) (last_run_at s) n
     (scrape_options s).
End Scout.

Inductive FirecrawlKeyStatus : Type :=
| key_pending | key_active | key_fallback | key_failed | key_invalid.

Record FirecrawlKeyResult : Type := {
  apiKey : option string;
  usedFallback : bool;
  fallbackReason : option string
}.

(** [ScoutResponse] of types.ts is the type the code declares for
    [scoutResponse].  The value is what [JSON.parse] returned, which can be
    any JSON value, or the object the code builds; the code reads its
    properties [taskCompleted] and [response] without a check. *)
Definition ScoutResponse : Type := json.

(** The object [{ taskCompleted, taskStatus, response }] *)
Definition mkScoutResponse (completed : bool) (statusName : string) (answer : string)
    : ScoutResponse :=
  JObj [("taskCompleted", JBool completed); ("taskStatus", JStr statusName);
        ("response", JStr answer)].

(** [scoutResponse.taskCompleted] as a condition, of a value that is not
    [null] *)
Definition taskCompleted (r : ScoutResponse) : bool :=
  Js.truthy (Js.getOpt (Some r) "taskCompleted").

(** [scoutResponse.response], of a value that is not [null] *)
Definition response (r : ScoutResponse) : jsval := Js.getOpt (Some r) "response".

(** Status of an execution and of a step. *)
Module Status.
Inductive t : Type := running | completed | failed.
End Status.

Module Execution.
Record t : Type := mk {
  id : string;
  scout_id : string;
  status : Status.t;
  created_at : Z;
  completed_at : option Z;
  error_message : option string;
  results_summary : option ScoutResponse;
  summary_text : option string;
  summary_embedding : option (list float)
}.
End Execution.

(** ** Arguments and results of the two tools *)

(** The parsed [arguments] of a tool call, of type [any] in the code: an
    object with the properties the tool schemas declare, or [null] /
    [undefined], whose properties cannot be read.  (A primitive has none of
    the properties and behaves as the object without fields.) *)
Record ToolArgs : Type := {
  query : option string;
  url : option string;
  limit : option Z;
  tbs : option string
}.

Inductive JsArgs : Type :=
| ArgsNullish
| ArgsObject (a : ToolArgs).

Record SearchItem : Type := {
  item_title : jsval;
  item_url : jsval;
  item_description : jsval;
  item_markdown : jsval;
  item_publishedTime : jsval;
  item_favicon : jsval
}.

Record SearchOutput : Type := {
  so_query : option string;
  so_count : nat;
  so_results : list SearchItem;
  so_searchResults : list SearchItem;
  so_filteredCount : nat;
  so_maxAge : Z;
  so_location : option string;
  so_country : option string;
  so_tbs : option string
}.

(** [content] is a prefix of the page's markdown: of a string its first
    characters, of an array its first elements. *)
Inductive ScrapeContent : Type :=
| ContentText (s : string)
| ContentItems (items : list json).

Record ScrapeOutput : Type := {
  sc_url : option string;
  sc_title : jsval;
  sc_content : ScrapeContent;
  sc_favicon : jsval;
  sc_screenshot : jsval;
  sc_maxAge : Z
}.

(** [toolResult] in the agent loop. *)
Inductive ToolResult : Type :=
| SearchOk (out : SearchOutput)
  (** [{ error, query, results }] returned by the search tool *)
| SearchErr (error : string) (q : option string) (results : list SearchItem)
| ScrapeOk (out : ScrapeOutput)
  (** [{ error, url }] returned by the scrape tool *)
| ScrapeErr (error : string) (u : option string)
  (** [{ error, query }] built by the agent's own catch *)
| CaughtErr (error : string) (q : option string)
  (** [undefined]: the tool name is neither of the two *)
| NoResult.

(** ** Steps, credentials, usage log, e-mail *)

Inductive StepType : Type := tool_call | search | scrape | summarize.

Inductive StepOutput : Type :=
| OutTool (r : ToolResult)
| OutResponse (r : ScoutResponse).

Module Step.
Record t : Type := mk {
  execution_id : string;
  step_number : nat;
  step_type : StepType;
  description : string;
  status : Status.t;
  output_data : option StepOutput;
  error_message : option string
}.
End Step.

Module Preferences.
Record t : Type := mk {
  user_id : string;
  firecrawl_api_key : option string;
  firecrawl_key_status : FirecrawlKeyStatus;
  firecrawl_key_error : option string
}.
End Preferences.

Record UsageLog : Type := {
  userId : string;
  scoutId : string;
  executionId : string;
  usage_usedFallback : bool;
  usage_fallbackReason : option string;
  apiCallsCount : nat
}.

(** An invocation of [sendScoutSuccessEmail]; [delivered] tells whether it
    returned or threw. *)
Record Email : Type := {
  email_scout : Scout.t;
  email_response : ScoutResponse;
  delivered : bool
}.

(** ** What the assistant answers *)

Record ToolCall : Type := {
  call_id : string;
  (** [toolCall.function.name] *)
  call_name : string;
  (** [JSON.parse(toolCall.function.arguments)] *)
  call_arguments : Res JsArgs
}.

Record AssistantMessage : Type := {
  content : option string;
  tool_calls : list ToolCall
}.

(** ** HTTP *)

Record Response (B : Type) : Type := {
  status : nat;
  statusText : string;
  (** The milliseconds the body takes to arrive once the response is
      there *)
  reading : Z;
  (** [await response.text()]; [Throw] when the promise is rejected *)
  text : Res string;
  (** [await response.json()], followed by the property reads that take the
      part the caller uses out of it; [Throw] when one of them throws. *)
  body : Res B
}.
Arguments status {B} r.
Arguments statusText {B} r.
Arguments reading {B} r.
Arguments text {B} r.
Arguments body {B} r.

(** [response.ok] *)
Definition ok {B : Type} (r : Response B) : bool :=
  ((200 <=? status r)%nat && (status r <=? 299)%nat).

Inductive Outcome (B : Type) : Type :=
| Rejected (e : JsError)
| Responded (r : Response B).
Arguments Rejected {B} e.
Arguments Responded {B} r.

(** What one [fetch] meets: the milliseconds until its promise is settled,
    and how. *)
Record Reply (B : Type) : Type := {
  elapsed : Z;
  outcome : Outcome B
}.
Arguments elapsed {B} r.
Arguments outcome {B} r.

(* ===================================================================== *)
(** * The runtime and the outside world *)
(* ===================================================================== *)

(** Functions of the JavaScript runtime and of constants.ts, which is not
    part of the sources at hand; they are parameters of the development. *)
Class Host : Type := {
  (** [JSON.parse]: the value of a JSON text, [None] when it throws. *)
  JSON_parse : string -> option json;
  (** [String(x)] of a number *)
  numberToString : float -> string;
  (** constants.ts *)
  isBlacklistedDomain : jsval -> bool;
  (** constants.ts *)
  getMaxAge : option Frequency -> Z;
  (** [new Date(t).toLocaleDateString()] *)
  toLocaleDateString : Z -> string;
  (** [x.toFixed(1)] *)
  toFixed1 : float -> string
}.

(** The replies of the services the executor talks to during one
    invocation.  The chat completion of an iteration is indexed by
    [loopCount], the Firecrawl reply of a tool call by its [stepNumber]. *)
Class Oracle : Type := {
  (** [Deno.env.get] *)
  env : string -> option string;
  (** The id the store gives the inserted execution; [None] when the insert
      returns an error. *)
  insert_reply : option string;
  (** The reply to the chat completion of the iteration with that number,
      the request of the [while] loop with the tools; its body is
      [choices[0].message]. *)
  chat_reply : nat -> Reply AssistantMessage;
  tool_reply : nat -> Reply json;
  (** The reply to the completion that asks for the summary of one
      sentence: one more request to the URL of the chat completions, made
      after the loop's last.  Its body is [choices[0].message.content]. *)
  summary_reply : Reply string;
  (** The body of the embedding reply is [data[0].embedding], [None] when
      that property is missing or [null]. *)
  embedding_reply : Reply (option (list float));
  (** [Some e] when [sendScoutSuccessEmail] throws [e]. *)
  email_reply : option JsError
}.

(* ===================================================================== *)
(** * State and the monad of effects *)
(* ===================================================================== *)

(** The tables of the store, the e-mails handed to the sender, the clock,
    and the mutable local variables of [executeScoutAgent]. *)
Record St : Type := mkSt {
  scouts : list Scout.t;
  scout_executions : list Execution.t;
  scout_execution_steps : list Step.t;
  user_preferences : list Preferences.t;
  firecrawl_usage_logs : list UsageLog;
  outbox : list Email;
  clock : Z;
  stepNumber : nat;
  firecrawlApiCallsCount : nat;
  loopCount : nat;
  continueLoop : bool;
  consecutiveErrors : nat;
  scoutResponse : option ScoutResponse;
  summaryText : option string;
  summaryEmbedding : option (list float);
  isDuplicate : bool
}.


Definition set_scouts (v : list Scout.t) (st : St) : St :=
  {| scouts := v; scout_executions := scout_executions st;
     scout_execution_steps := scout_execution_steps st;
     user_preferences := user_preferences st;
     firecrawl_usage_logs := firecrawl_usage_logs st; outbox := outbox st;
     clock := clock st; stepNumber := stepNumber st;
     firecrawlApiCallsCount := firecrawlApiCallsCount st; loopCount := loopCount st;
     continueLoop := continueLoop st; consecutiveErrors := consecutiveErrors st;
     scoutResponse := scoutResponse st; summaryText := summaryText st;
     summaryEmbedding := summaryEmbedding st; isDuplicate := isDuplicate st |}.

Definition set_scout_executions (v : list Execution.t) (st : St) : St :=
  {| scouts := scouts st; scout_executions := v;
     scout_execution_steps := scout_execution_steps st;
     user_preferences := user_preferences st;
     firecrawl_usage_logs := firecrawl_usage_logs st; outbox := outbox st;
     clock := clock st; stepNumber := stepNumber st;
     firecrawlApiCallsCount := firecrawlApiCallsCount st; loopCount := loopCount st;
     continueLoop := continueLoop st; consecutiveErrors := consecutiveErrors st;
     scoutResponse := scoutResponse st; summaryText := summaryText st;
     summaryEmbedding := summaryEmbedding st; isDuplicate := isDuplicate st |}.

Definition set_scout_execution_steps (v : list Step.t) (st : St) : St :=
  {| scouts := scouts st; scout_executions := scout_executions st;
     scout_execution_steps := v; user_preferences := user_preferences st;
     firecrawl_usage_logs := firecrawl_usage_logs st; outbox := outbox st;
     clock := clock st; stepNumber := stepNumber st;
     firecrawlApiCallsCount := firecrawlApiCallsCount st; loopCount := loopCount st;
     continueLoop := continueLoop st; consecutiveErrors := consecutiveErrors st;
     scoutResponse := scoutResponse st; summaryText := summaryText st;
     summaryEmbedding := summaryEmbedding st; isDuplicate := isDuplicate st |}.

Definition set_user_preferences (v : list Preferences.t) (st : St) : St :=
  {| scouts := scouts st; scout_executions := scout_executions st;
     scout_execution_steps := scout_execution_steps st; user_preferences := v;
     firecrawl_usage_logs := firecrawl_usage_logs st; outbox := outbox st;
     clock := clock st; stepNumber := stepNumber st;
     firecrawlApiCallsCount := firecrawlApiCallsCount st; loopCount := loopCount st;
     continueLoop := continueLoop st; consecutiveErrors := consecutiveErrors st;
     scoutResponse := scoutResponse st; summaryText := summaryText st;
     summaryEmbedding := summaryEmbedding st; isDuplicate := isDuplicate st |}.

Definition set_firecrawl_usage_logs (v : list UsageLog) (st : St) : St :=
  {| scouts := scouts st; scout_executions := scout_executions st;
     scout_execution_steps := scout_execution_steps st;
     user_preferences := user_preferences st; firecrawl_usage_logs := v;
     outbox := outbox st; clock := clock st; stepNumber := stepNumber st;
     firecrawlApiCallsCount := firecrawlApiCallsCount st; loopCount := loopCount st;
     continueLoop := continueLoop st; consecutiveErrors := consecutiveErrors st;
     scoutResponse := scoutResponse st; summaryText := summaryText st;
     summaryEmbedding := summaryEmbedding st; isDuplicate := isDuplicate st |}.

Definition set_outbox (v : list Email) (st : St) : St :=
  {| scouts := scouts st; scout_executions := scout_executions st;
     scout_execution_steps := scout_execution_steps st;
     user_preferences := user_preferences st;
     firecrawl_usage_logs := firecrawl_usage_logs st; outbox := v; clock := clock st;
     stepNumber := stepNumber st; firecrawlApiCallsCount := firecrawlApiCallsCount st;
     loopCount := loopCount st; continueLoop := continueLoop st;
     consecutiveErrors := consecutiveErrors st; scoutResponse := scoutResponse st;
     summaryText := summaryText st; summaryEmbedding := summaryEmbedding st;
     isDuplicate := isDuplicate st |}.

Definition set_clock (v : Z) (st : St) : St :=
  {| scouts := scouts st; scout_executions := scout_executions st;
     scout_execution_steps := scout_execution_steps st;
     user_preferences := user_preferences st;
     firecrawl_usage_logs := firecrawl_usage_logs st; outbox := outbox st; clock := v;
     stepNumber := stepNumber st; firecrawlApiCallsCount := firecrawlApiCallsCount st;
     loopCount := loopCount st; continueLoop := continueLoop st;
     consecutiveErrors := consecutiveErrors st; scoutResponse := scoutResponse st;
     summaryText := summaryText st; summaryEmbedding := summaryEmbedding st;
     isDuplicate := isDuplicate st |}.

Definition set_stepNumber (v : nat) (st : St) : St :=
  {| scouts := scouts st; scout_executions := scout_executions st;
     scout_execution_steps := scout_execution_steps st;
     user_preferences := user_preferences st;
     firecrawl_usage_logs := firecrawl_usage_logs st; outbox := outbox st;
     clock := clock st; stepNumber := v;
     firecrawlApiCallsCount := firecrawlApiCallsCount st; loopCount := loopCount st;
     continueLoop := continueLoop st; consecutiveErrors := consecutiveErrors st;
     scoutResponse := scoutResponse st; summaryText := summaryText st;
     summaryEmbedding := summaryEmbedding st; isDuplicate := isDuplicate st |}.

Definition set_firecrawlApiCallsCount (v : nat) (st : St) : St :=
  {| scouts := scouts st; scout_executions := scout_executions st;
     scout_execution_steps := scout_execution_steps st;
     user_preferences := user_preferences st;
     firecrawl_usage_logs := firecrawl_usage_logs st; outbox := outbox st;
     clock := clock st; stepNumber := stepNumber st; firecrawlApiCallsCount := v;
     loopCount := loopCount st; continueLoop := continueLoop st;
     consecutiveErrors := consecutiveErrors st; scoutResponse := scoutResponse st;
     summaryText := summaryText st; summaryEmbedding := summaryEmbedding st;
     isDuplicate := isDuplicate st |}.

Definition set_loopCount (v : nat) (st : St) : St :=
  {| scouts := scouts st; scout_executions := scout_executions st;
     scout_execution_steps := scout_execution_steps st;
     user_preferences := user_preferences st;
     firecrawl_usage_logs := firecrawl_usage_logs st; outbox := outbox st;
     clock := clock st; stepNumber := stepNumber st;
     firecrawlApiCallsCount := firecrawlApiCallsCount st; loopCount := v;
     continueLoop := continueLoop st; consecutiveErrors := consecutiveErrors st;
     scoutResponse := scoutResponse st; summaryText := summaryText st;
     summaryEmbedding := summaryEmbedding st; isDuplicate := isDuplicate st |}.

Definition set_continueLoop (v : bool) (st : St) : St :=
  {| scouts := scouts st; scout_executions := scout_executions st;
     scout_execution_steps := scout_execution_steps st;
     user_preferences := user_preferences st;
     firecrawl_usage_logs := firecrawl_usage_logs st; outbox := outbox st;
     clock := clock st; stepNumber := stepNumber st;
     firecrawlApiCallsCount := firecrawlApiCallsCount st; loopCount := loopCount st;
     continueLoop := v; consecutiveErrors := consecutiveErrors st;
     scoutResponse := scoutResponse st; summaryText := summaryText st;
     summaryEmbedding := summaryEmbedding st; isDuplicate := isDuplicate st |}.

Definition set_consecutiveErrors (v : nat) (st : St) : St :=
  {| scouts := scouts st; scout_executions := scout_executions st;
     scout_execution_steps := scout_execution_steps st;
     user_preferences := user_preferences st;
     firecrawl_usage_logs := firecrawl_usage_logs st; outbox := outbox st;
     clock := clock st; stepNumber := stepNumber st;
     firecrawlApiCallsCount := firecrawlApiCallsCount st; loopCount := loopCount st;
     continueLoop := continueLoop st; consecutiveErrors := v;
     scoutResponse := scoutResponse st; summaryText := summaryText st;
     summaryEmbedding := summaryEmbedding st; isDuplicate := isDuplicate st |}.

Definition set_scoutResponse (v : option ScoutResponse) (st : St) : St :=
  {| scouts := scouts st; scout_executions := scout_executions st;
     scout_execution_steps := scout_execution_steps st;
     user_preferences := user_preferences st;
     firecrawl_usage_logs := firecrawl_usage_logs st; outbox := outbox st;
     clock := clock st; stepNumber := stepNumber st;
     firecrawlApiCallsCount := firecrawlApiCallsCount st; loopCount := loopCount st;
     continueLoop := continueLoop st; consecutiveErrors := consecutiveErrors st;
     scoutResponse := v; summaryText := summaryText st;
     summaryEmbedding := summaryEmbedding st; isDuplicate := isDuplicate st |}.

Definition set_summaryText (v : option string) (st : St) : St :=
  {| scouts := scouts st; scout_executions := scout_executions st;
     scout_execution_steps := scout_execution_steps st;
     user_preferences := user_preferences st;
     firecrawl_usage_logs := firecrawl_usage_logs st; outbox := outbox st;
     clock := clock st; stepNumber := stepNumber st;
     firecrawlApiCallsCount := firecrawlApiCallsCount st; loopCount := loopCount st;
     continueLoop := continueLoop st; consecutiveErrors := consecutiveErrors st;
     scoutResponse := scoutResponse st; summaryText := v;
     summaryEmbedding := summaryEmbedding st; isDuplicate := isDuplicate st |}.

Definition set_summaryEmbedding (v : option (list float)) (st : St) : St :=
  {| scouts := scouts st; scout_executions := scout_executions st;
     scout_execution_steps := scout_execution_steps st;
     user_preferences := user_preferences st;
     firecrawl_usage_logs := firecrawl_usage_logs st; outbox := outbox st;
     clock := clock st; stepNumber := stepNumber st;
     firecrawlApiCallsCount := firecrawlApiCallsCount st; loopCount := loopCount st;
     continueLoop := continueLoop st; consecutiveErrors := consecutiveErrors st;
     scoutResponse := scoutResponse st; summaryText := summaryText st;
     summaryEmbedding := v; isDuplicate := isDuplicate st |}.

Definition set_isDuplicate (v : bool) (st : St) : St :=
  {| scouts := scouts st; scout_executions := scout_executions st;
     scout_execution_steps := scout_execution_steps st;
     user_preferences := user_preferences st;
     firecrawl_usage_logs := firecrawl_usage_logs st; outbox := outbox st;
     clock := clock st; stepNumber := stepNumber st;
     firecrawlApiCallsCount := firecrawlApiCallsCount st; loopCount := loopCount st;
     continueLoop := continueLoop st; consecutiveErrors := consecutiveErrors st;
     scoutResponse := scoutResponse st; summaryText := summaryText st;
     summaryEmbedding := summaryEmbedding st; isDuplicate := v |}.

Definition M (A : Type) : Type := St -> Res A * St.

Definition ret {A : Type} (a : A) : M A := fun st => (Ok a, st).

Definition throw {A : Type} (e : JsError) : M A := fun st => (Throw e, st).

Definition bind {A B : Type} (m : M A) (k : A -> M B) : M B :=
  fun st =>
    match m st with
    | (Ok a, st') => k a st'
    | (Throw e, st') => (Throw e, st')
    end.

(** [try { m } catch (error) { handler error }] *)
Definition try_catch {A : Type} (m : M A) (handler : JsError -> M A) : M A :=
  fun st =>
    match m st with
    | (Ok a, st') => (Ok a, st')
    | (Throw e, st') => handler e st'
    end.

Definition gets {A : Type} (f : St -> A) : M A := fun st => (Ok (f st), st).

Definition modify (f : St -> St) : M unit := fun st => (Ok tt, f st).

(** An expression that may throw and has no other effect. *)
Definition lift {A : Type} (r : Res A) : M A := fun st => (r, st).

Definition when (b : bool) (m : M unit) : M unit := if b then m else ret tt.

Declare Scope js_scope.
Delimit Scope js_scope with js.
Notation "x <- m ;; k" := (bind m (fun x => k))
  (at level 61, m at next level, right associativity) : js_scope.
Notation "' pat <- m ;; k" := (bind m (fun x => match x with pat => k end))
  (at level 61, pat pattern, m at next level, right associativity) : js_scope.
Notation "m ;; k" := (bind m (fun _ => k))
  (at level 61, right associativity) : js_scope.
Local Open Scope js_scope.

Definition bindRes {A B : Type} (r : Res A) (k : A -> Res B) : Res B :=
  match r with
  | Ok a => k a
  | Throw e => Throw e
  end.

Fixpoint mapRes {A B : Type} (f : A -> Res B) (l : list A) : Res (list B) :=
  match l with
  | [] => Ok []
  | x :: rest =>
      bindRes (f x) (fun y => bindRes (mapRes f rest) (fun ys => Ok (y :: ys)))
  end.

(** [new Date().toISOString()], [Date.now()] *)
Definition now : M Z := gets clock.

Definition tick (ms : Z) : M unit :=
  modify (fun st => set_clock (clock st + ms)%Z st).

(** [fetch(url, { ..., signal: controller.signal })] with
    [setTimeout(() => controller.abort(), 60000)] pending: a reply that takes
    60 seconds or more is cut off with an [AbortError].  The promise is
    settled when the response is there, its body still to come. *)
Definition fetch {B : Type} (r : Reply B) : M (Response B) :=
  if (60000 <=? elapsed r)%Z
  then tick 60000 ;; throw AbortError
  else tick (elapsed r) ;;
       match outcome r with
       | Rejected e => throw e
       | Responded resp => ret resp
       end.

(** [await response.json()] and [await response.text()]: the code has
    cleared the timer of the request by then ([clearTimeout] follows the
    [fetch]), so the body takes the time it takes. *)
Definition readJson {B : Type} (resp : Response B) : M B :=
  tick (reading resp) ;; lift (body resp).

Definition readText {B : Type} (resp : Response B) : M string :=
  tick (reading resp) ;; lift (text resp).

(** Truthiness and [||] of an optional string *)
Definition truthyStr (o : option string) : bool :=
  match o with
  | Some s => JsString.nonEmpty s
  | None => false
  end.

Definition orStr (a b : option string) : option string :=
  if truthyStr a then a else b.

(** An optional string in a template literal *)
Definition showStr (o : option string) : string :=
  match o with
  | Some s => s
  | None => "undefined"
  end.

Definition strVal (o : option string) : jsval :=
  match o with
  | Some s => Some (JStr s)
  | None => None
  end.

(** Reading a property of [args]. *)
Definition argsObject (args : JsArgs) : Res ToolArgs :=
  match args with
  | ArgsNullish => Throw (TypeError "Cannot read properties of null or undefined")
  | ArgsObject a => Ok a
  end.

(* ===================================================================== *)
(** * tools.ts: the Firecrawl tools *)
(* ===================================================================== *)

Section Tools.
Context {host : Host}.

(** [maxAge || 3600000] *)
Definition maxAgeOrDefault (maxAge : option Z) : Z :=
  match maxAge with
  | Some n => if (n =? 0)%Z then 3600000%Z else n
  | None => 3600000%Z
  end.

(** One element of [webResults.map((item) => ({ ... }))] *)
Definition toSearchItem (item : json) : Res SearchItem :=
  bindRes (Js.get (Some item) "title") (fun title =>
  bindRes (Js.get (Some item) "url") (fun u =>
  bindRes (Js.get (Some item) "description") (fun descr =>
  bindRes (Js.get (Some item) "publishedTime") (fun published =>
  bindRes (Js.get (Some item) "favicon") (fun favicon =>
    Ok {| item_title := Js.or title u;
          item_url := u;
          item_description := Js.or descr (Some (JStr EmptyString));
          item_markdown := Js.or descr (Some (JStr EmptyString));
          item_publishedTime := published;
          item_favicon := Js.or favicon (Some JNull) |}))))).

(** [webResults.map]: only an array has it ([webResults] is never
    falsy). *)
Definition asArray (v : jsval) : Res (list json) :=
  match v with
  | Some (JArr items) => Ok items
  | _ => Throw (TypeError "webResults.map is not a function")
  end.

(** The [try] block of [executeSearchTool].  Of the request payload only
    the parts echoed in the result are kept: the request goes to the
    provider, whose reply is [reply]. *)
Definition searchAttempt (args : JsArgs) (apiKey : string)
    (loc : option string) (maxAge : option Z) (options : option FirecrawlOptions)
    (reply : Reply json) : M ToolResult :=
  a <- lift (argsObject args) ;;
  let payload_maxAge := maxAgeOrDefault maxAge in
  let payload_tbs := if truthyStr (tbs a) then tbs a else None in
  let payload_location :=
    match loc with
    | Some l =>
        if JsString.nonEmpty l
        then Some (if JsString.includes l "," then l else l ++ ",United States")
        else None
    | None => None
    end in
  let payload_country :=
    if truthyStr loc then Some "US" else None in
  response <- fetch reply ;;
  if negb (ok response)
  then
    errorText <- readText response ;;
    throw (Error ("Firecrawl search failed: " ++ JsString.ofNat (status response)
                    ++ " " ++ statusText response ++ " - " ++ errorText))
  else
    data <- readJson response ;;
    inner <- lift (Js.get (Some data) "data") ;;
    let webResults := Js.or (Js.getOpt inner "web") (Some (JArr [])) in
    items <- lift (asArray webResults) ;;
    allResults <- lift (mapRes toSearchItem items) ;;
    let results :=
      filter (fun item => negb (isBlacklistedDomain (item_url item))) allResults in
    let filteredCount := (List.length allResults - List.length results)%nat in
    ret (SearchOk {| so_query := query a;
                     so_count := List.length results;
                     so_results := results;
                     so_searchResults := results;
                     so_filteredCount := filteredCount;
                     so_maxAge := payload_maxAge;
                     so_location := orStr payload_location None;
                     so_country := orStr payload_country None;
                     so_tbs := orStr payload_tbs None |}).

(** The [catch] block of [executeSearchTool] *)
Definition searchFailed (args : JsArgs) (error : JsError) : M ToolResult :=
  let errorMessage :=
    if String.eqb (err_name error) "AbortError"
    then "Search request timed out after 60 seconds"
    else err_message error in
  a <- lift (argsObject args) ;;
  ret (SearchErr errorMessage (query a) []).

Definition executeSearchTool (args : JsArgs) (apiKey : string)
    (loc : option string) (maxAge : option Z) (options : option FirecrawlOptions)
    (reply : Reply json) : M ToolResult :=
  try_catch (searchAttempt args apiKey loc maxAge options reply)
            (searchFailed args).

(** [(scrapedData.markdown || '').slice(0, 2000)] *)
Definition sliceContent (markdown : jsval) : Res ScrapeContent :=
  match Js.or markdown (Some (JStr EmptyString)) with
  | Some (JStr s) => Ok (ContentText (String.substring 0 2000 s))
  | Some (JArr items) => Ok (ContentItems (firstn 2000 items))
  | _ => Throw (TypeError "(scrapedData.markdown || '').slice is not a function")
  end.

(** The [try] block of [executeScrapeTool] *)
Definition scrapeAttempt (args : JsArgs) (apiKey : string)
    (maxAge : option Z) (options : option FirecrawlOptions)
    (reply : Reply json) : M ToolResult :=
  a <- lift (argsObject args) ;;
  let payload_maxAge := maxAgeOrDefault maxAge in
  response <- fetch reply ;;
  if negb (ok response)
  then
    errorText <- readText response ;;
    throw (Error ("Firecrawl scrape failed: " ++ JsString.ofNat (status response)
                    ++ " " ++ statusText response ++ " - " ++ errorText))
  else
    data <- readJson response ;;
    inner <- lift (Js.get (Some data) "data") ;;
    let scrapedData := Js.or inner (Some (JObj [])) in
    markdown <- lift (Js.get scrapedData "markdown") ;;
    scraped <- lift (sliceContent markdown) ;;
    metadata <- lift (Js.get scrapedData "metadata") ;;
    screenshot <- lift (Js.get scrapedData "screenshot") ;;
    ret (ScrapeOk {| sc_url := url a;
                     sc_title := Js.or (Js.getOpt metadata "title") (strVal (url a));
                     sc_content := scraped;
                     sc_favicon := Js.or (Js.or (Js.getOpt metadata "ogImage")
                                                (Js.getOpt metadata "favicon"))
                                         (Some JNull);
                     sc_screenshot := Js.or screenshot (Some JNull);
                     sc_maxAge := payload_maxAge |}).

(** The [catch] block of [executeScrapeTool] *)
Definition scrapeFailed (args : JsArgs) (error : JsError) : M ToolResult :=
  let errorMessage :=
    if String.eqb (err_name error) "AbortError"
    then "Scrape request timed out after 60 seconds"
    else err_message error in
  a <- lift (argsObject args) ;;
  ret (ScrapeErr errorMessage (url a)).

Definition executeScrapeTool (args : JsArgs) (apiKey : string)
    (maxAge : option Z) (options : option FirecrawlOptions)
    (reply : Reply json) : M ToolResult :=
  try_catch (scrapeAttempt args apiKey maxAge options reply)
            (scrapeFailed args).

End Tools.

(* ===================================================================== *)
(** * The store *)
(* ===================================================================== *)

(** [.update(...)] of the rows that satisfy the filters *)
Definition updateWhere {A : Type} (p : A -> bool) (f : A -> A) (rows : list A) : list A :=
  map (fun row => if p row then f row else row) rows.

(** [.order(column, { ascending: false })]: a stable sort on an optional
    time stamp, latest first, rows without one before the others. *)
Definition comesFirst (a b : option Z) : bool :=
  match a, b with
  | None, _ => true
  | Some _, None => false
  | Some x, Some y => (y <=? x)%Z
  end.

Fixpoint insertDesc {A : Type} (key : A -> option Z) (x : A) (sorted : list A) : list A :=
  match sorted with
  | [] => [x]
  | y :: rest =>
      if comesFirst (key x) (key y) then x :: sorted else y :: insertDesc key x rest
  end.

Definition orderDesc {A : Type} (key : A -> option Z) (rows : list A) : list A :=
  fold_right (insertDesc key) [] rows.

Definition isSome {A : Type} (o : option A) : bool :=
  match o with Some _ => true | None => false end.

Definition statusIs (s : Status.t) (e : Execution.t) : bool :=
  match s, Execution.status e with
  | Status.running, Status.running
  | Status.completed, Status.completed
  | Status.failed, Status.failed => true
  | _, _ => false
  end.

Definition setStep (s : Status.t) (out : option StepOutput) (msg : option string)
    (row : Step.t) : Step.t :=
  Step.mk (Step.execution_id row) (Step.step_number row) (Step.step_type row)
          (Step.description row) s out msg.

(** Modelled from the spec: helpers.ts is not part of the sources at hand;
    [appendStep(execution_id, step_number, fields)] adds one row to the
    steps of the execution. *)
Definition createStep (executionId : string) (stepNumber : nat) (type : StepType)
    (descr : string) (out : option StepOutput) (s : Status.t) : M unit :=
  modify (fun st =>
    set_scout_execution_steps
      (scout_execution_steps st ++
        [Step.mk executionId stepNumber type descr s out None])%list st).

(** Modelled from the spec: helpers.ts is not part of the sources at hand;
    [updateStep(execution_id, step_number, fields)] writes the given fields
    of the step with that number. *)
Definition updateStep (executionId : string) (stepNumber : nat)
    (f : Step.t -> Step.t) : M unit :=
  modify (fun st =>
    set_scout_execution_steps
      (updateWhere
         (fun row => String.eqb (Step.execution_id row) executionId
                     && (Step.step_number row =? stepNumber)%nat)
         f (scout_execution_steps st)) st).

(** Modelled from the spec: helpers.ts is not part of the sources at hand;
    [resolve(userId)] yields the user's own key, and no key when the record
    is missing, holds no key or is marked invalid; there is no shared
    fallback. *)
Definition getFirecrawlKeyForUser (userId : string) : M FirecrawlKeyResult :=
  prefs <- gets user_preferences ;;
  let key :=
    match find (fun p => String.eqb (Preferences.user_id p) userId) prefs with
    | Some p =>
        match Preferences.firecrawl_key_status p with
        | key_invalid => None
        | _ => Preferences.firecrawl_api_key p
        end
    | None => None
    end in
  ret {| apiKey := key; usedFallback := false; fallbackReason := None |}.

(** Modelled from the spec: helpers.ts is not part of the sources at hand;
    the user's key is marked [invalid] and the reason is kept. *)
Definition markFirecrawlKeyInvalid (userId : string) (reason : string) : M unit :=
  modify (fun st =>
    set_user_preferences
      (updateWhere
         (fun p => String.eqb (Preferences.user_id p) userId)
         (fun p => Preferences.mk (Preferences.user_id p)
                     (Preferences.firecrawl_api_key p) key_invalid (Some reason))
         (user_preferences st)) st).

(** Modelled from the spec: helpers.ts is not part of the sources at hand;
    one row per run that called Firecrawl. *)
Definition logFirecrawlUsage (entry : UsageLog) : M unit :=
  modify (fun st => set_firecrawl_usage_logs (firecrawl_usage_logs st ++ [entry])%list st).

Definition updateExecution (executionId : string) (f : Execution.t -> Execution.t) : M unit :=
  modify (fun st =>
    set_scout_executions
      (updateWhere (fun e => String.eqb (Execution.id e) executionId) f
                   (scout_executions st)) st).

Definition updateScouts (p : Scout.t -> bool) (f : Scout.t -> Scout.t) : M unit :=
  modify (fun st => set_scouts (updateWhere p f (scouts st)) st).

(** Modelled from the spec: the schema is not part of the sources at hand;
    the column is [summary_embedding vector(1536)], which takes [null] or
    1536 numbers. *)
Definition fitsVector (embedding : option (list float)) : bool :=
  match embedding with
  | Some v => (List.length v =? 1536)%nat
  | None => true
  end.

(** [{ status: "completed", completed_at, results_summary, summary_text,
    summary_embedding }] *)
Definition completedWithSummary (t : Z) (r : ScoutResponse)
    (txt : option string) (emb : option (list float)) (e : Execution.t) : Execution.t :=
  Execution.mk (Execution.id e) (Execution.scout_id e) Status.completed
    (Execution.created_at e) (Some t) (Execution.error_message e) (Some r) txt emb.

(** [{ status: "completed", completed_at, results_summary }] *)
Definition completedWith (t : Z) (r : ScoutResponse) (e : Execution.t) : Execution.t :=
  Execution.mk (Execution.id e) (Execution.scout_id e) Status.completed
    (Execution.created_at e) (Some t) (Execution.error_message e) (Some r)
    (Execution.summary_text e) (Execution.summary_embedding e).

(** The update that marks the execution as completed.  The store refuses
    it as a whole when the embedding does not fit its column, and the code
    does not look at the error of an update. *)
Definition completeExecution (executionId : string) (t : Z) (r : ScoutResponse)
    (txt : option string) (emb : option (list float)) : M unit :=
  if fitsVector emb
  then updateExecution executionId (completedWithSummary t r txt emb)
  else ret tt.

(** [{ status: "failed", completed_at, error_message }] *)
Definition failedWith (t : Z) (msg : string) (e : Execution.t) : Execution.t :=
  Execution.mk (Execution.id e) (Execution.scout_id e) Status.failed
    (Execution.created_at e) (Some t) (Some msg) (Execution.results_summary e)
    (Execution.summary_text e) (Execution.summary_embedding e).

(* ===================================================================== *)
(** * openai-config.ts *)
(* ===================================================================== *)

Record OpenAIConfig : Type := {
  baseUrl : string;
  config_apiKey : string;
  chatModel : string;
  embeddingModel : string;
  isAzure : bool
}.

(** [s.replace(/\/$/, '')]: one trailing slash is dropped *)
Fixpoint stripTrailingSlash (s : string) : string :=
  match s with
  | EmptyString => EmptyString
  | String c EmptyString => if Ascii.eqb c "/"%char then EmptyString else s
  | String c rest => String c (stripTrailingSlash rest)
  end.

Definition orDefault (o : option string) (d : string) : string :=
  match o with
  | Some s => if JsString.nonEmpty s then s else d
  | None => d
  end.

Section OpenAIConfig.
Context {net : Oracle}.

Definition getOpenAIConfig : M OpenAIConfig :=
  let azureApiKey := env "AZURE_OPENAI_API_KEY" in
  let azureEndpoint := env "AZURE_OPENAI_ENDPOINT" in
  if truthyStr azureApiKey && truthyStr azureEndpoint
  then
    ret {| baseUrl := stripTrailingSlash (showStr azureEndpoint);
           config_apiKey := showStr azureApiKey;
           chatModel := orDefault (env "AZURE_OPENAI_CHAT_DEPLOYMENT") "gpt-4o";
           embeddingModel :=
             orDefault (env "AZURE_OPENAI_EMBEDDING_DEPLOYMENT") "text-embedding-3-small";
           isAzure := true |}
  else
    let openaiApiKey := env "OPENAI_API_KEY" in
    if negb (truthyStr openaiApiKey)
    then throw (Error ("OpenAI API key not configured. Set either OPENAI_API_KEY for OpenAI or "
                       ++ "AZURE_OPENAI_API_KEY and AZURE_OPENAI_ENDPOINT for Azure OpenAI."))
    else
      ret {| baseUrl := "https://api.openai.com";
             config_apiKey := showStr openaiApiKey;
             chatModel := "gpt-4o";
             embeddingModel := "text-embedding-3-small";
             isAzure := false |}.

End OpenAIConfig.

(* ===================================================================== *)
(** * agent.ts *)
(* ===================================================================== *)

#[local] Set Warnings "-inexact-float".

(** The [for] loop of [cosineSimilarity] over vectors of one length *)
Fixpoint accumulate (vecA vecB : list float) (acc : float * float * float)
    : float * float * float :=
  match vecA, vecB with
  | a :: restA, b :: restB =>
      let '(dotProduct, normA, normB) := acc in
      accumulate restA restB
        ((dotProduct + a * b)%float, (normA + a * a)%float, (normB + b * b)%float)
  | _, _ => acc
  end.

Definition cosineSimilarity (vecA vecB : list float) : Res float :=
  if negb (List.length vecA =? List.length vecB)%nat
  then Throw (Error "Vectors must have the same length")
  else
    let '(dotProduct, sumA, sumB) := accumulate vecA vecB (0%float, 0%float, 0%float) in
    let normA := PrimFloat.sqrt sumA in
    let normB := PrimFloat.sqrt sumB in
    if PrimFloat.eqb normA 0%float || PrimFloat.eqb normB 0%float
    then Ok 0%float
    else Ok (dotProduct / (normA * normB))%float.

Definition maxLoops : nat := 7.
Definition maxConsecutiveErrors : nat := 3.
Definition similarityThreshold : float := 0.85%float.

Definition noKeyMessage : string :=
  "User does not have a valid Firecrawl API key configured. Please add your API key in Settings.".

Definition creditsExhaustedMessage : string :=
  "Firecrawl API credits exhausted. All your scouts have been paused. Please add your own Firecrawl API key in Settings → Firecrawl Integration → Custom API Key. Get your key at https://www.firecrawl.dev/app/api-keys".

Definition maxLoopsMessage : string :=
  "The scout execution reached its maximum iteration limit. The AI agent may have encountered repeated errors or gotten stuck in a loop. Please check the execution steps for more details.".

Definition incompleteSummary : ScoutResponse :=
  mkScoutResponse false "partial" maxLoopsMessage.

Definition noStructuredOutput : string := "Agent completed without structured output".

(** [hasError]: the tool result is an object with an [error] property, and
    that property. *)
Definition errorOf (r : ToolResult) : option string :=
  match r with
  | SearchErr e _ _ | ScrapeErr e _ | CaughtErr e _ => Some e
  | SearchOk _ | ScrapeOk _ | NoResult => None
  end.

Definition errorIncludes (r : ToolResult) (code : string) : bool :=
  match errorOf r with
  | Some e => JsString.includes e code
  | None => false
  end.

Section Agent.
Context {host : Host} {net : Oracle}.

(** ** Entering the function: a fresh set of local variables *)
Definition freshLocals : M unit :=
  modify (fun st =>
    set_stepNumber 0 (set_firecrawlApiCallsCount 0 (set_loopCount 0
      (set_continueLoop true (set_consecutiveErrors 0 (set_scoutResponse None
        (set_summaryText None (set_summaryEmbedding None
          (set_isDuplicate false st))))))))).

(** [supabase.from("scout_executions").insert({ scout_id, status:
    "running" }).select().single()] *)
Definition insertExecution (scoutId : string) : M (option string) :=
  match insert_reply with
  | None => ret None
  | Some newId =>
      t <- now ;;
      modify (fun st =>
        set_scout_executions
          (scout_executions st ++
            [Execution.mk newId scoutId Status.running t None None None None None])%list
          st) ;;
      ret (Some newId)
  end.

(** ** Recent findings: the query and the filter on the embedding *)
Definition recentExecutions (scoutId : string) (rows : list Execution.t)
    : list Execution.t :=
  firstn 20
    (orderDesc Execution.completed_at
       (filter (fun e => String.eqb (Execution.scout_id e) scoutId
                         && statusIs Status.completed e
                         && isSome (Execution.summary_text e)
                         && isSome (Execution.summary_embedding e))
               rows)).

Definition validEmbedding (e : Execution.t) : bool :=
  match Execution.summary_embedding e with
  | Some embedding => (List.length embedding =? 1536)%nat
  | None => false
  end.

Definition querySimilarExecutions (scoutId : string) : M (list Execution.t) :=
  rows <- gets scout_executions ;;
  ret (filter validEmbedding (recentExecutions scoutId rows)).

(** ** Parsing the final message *)
Definition extractJson (finalContent : string) : string :=
  let jsonString := JsString.trim finalContent in
  let jsonString :=
    if JsString.includes jsonString "```json"
    then JsString.replaceAllWithSpace "```"
           (JsString.replaceAllWithSpace "```json" jsonString)
    else if JsString.includes jsonString "```"
    then JsString.replaceAllWithSpace "```" jsonString
    else jsonString in
  match JsString.lastIndexOf "}"%char jsonString with
  | Some lastBrace => String.substring 0 (lastBrace + 1) jsonString
  | None => jsonString
  end.

(** The [try] block parses; [finalContent.trim()] throws when the content
    is [null].  The [catch] block builds the default response. *)
Definition parseScoutResponse (finalContent : option string) : ScoutResponse :=
  let attempt :=
    match finalContent with
    | Some c => JSON_parse (extractJson c)
    | None => None
    end in
  match attempt with
  | Some parsed => parsed
  | None =>
      mkScoutResponse false "insufficient_data"
                      (orDefault finalContent noStructuredOutput)
  end.

(** ** Summary and embedding of a successful result *)
(** [if (scoutResponse.taskCompleted)]: the property of [null] cannot
    be read, and the read is outside the [try] block that follows.  The
    [else] branches log the text of the response. *)
Definition generateSummary (r : ScoutResponse) : M unit :=
  completed <- lift (Js.get (Some r) "taskCompleted") ;;
  when (Js.truthy completed)
    (try_catch
       (summaryResponse <- fetch summary_reply ;;
        if ok summaryResponse
        then
          summary <- readJson summaryResponse ;;
          modify (set_summaryText (Some (JsString.trim summary))) ;;
          embeddingResponse <- fetch embedding_reply ;;
          if ok embeddingResponse
          then
            embedding <- readJson embeddingResponse ;;
            modify (set_summaryEmbedding embedding)
          else
            readText embeddingResponse ;;
            ret tt
        else
          readText summaryResponse ;;
          ret tt)
       (fun _ => ret tt)).

(** ** Duplicate detection *)

(** [String(v)], as a template literal converts a value: the elements of
    an array are joined by commas, [null] among them as the empty
    string. *)
Fixpoint jsonToString (v : json) : string :=
  match v with
  | JNull => "null"
  | JBool b => if b then "true" else "false"
  | JNum x => numberToString x
  | JStr s => s
  | JArr items =>
      String.concat ","
        (map (fun item => match item with JNull => EmptyString | _ => jsonToString item end)
             items)
  | JObj _ => "[object Object]"
  end.

Definition showVal (v : jsval) : string :=
  match v with
  | Some value => jsonToString value
  | None => "undefined"
  end.

(** The text the note adds to the response *)
Definition similarityNote (prevExecution : Execution.t) (similarity : float) : string :=
  JsString.newline ++ JsString.newline ++ "---" ++ JsString.newline
  ++ "**Note**: This finding appears very similar to a previous result from "
  ++ toLocaleDateString
       (match Execution.completed_at prevExecution with Some t => t | None => 0%Z end)
  ++ ": " ++ JsString.dquote
  ++ match Execution.summary_text prevExecution with Some s => s | None => "null" end
  ++ JsString.dquote
  ++ " (similarity: " ++ toFixed1 (similarity * 100)%float ++ "%)".

(** [scoutResponse.response = `${scoutResponse.response}...`].  The
    response is an object here: no other value has a [taskCompleted]
    that is truthy. *)
Definition duplicateNote (r : ScoutResponse) (prevExecution : Execution.t)
    (similarity : float) : ScoutResponse :=
  match r with
  | JObj fields =>
      JObj (Js.setProperty "response"
              (JStr (showVal (response r) ++ similarityNote prevExecution similarity))
              fields)
  | _ => r
  end.

(** The loop over [similarExecutions]: the pair is [isDuplicate] and
    [scoutResponse] when the loop ends. *)
Fixpoint findDuplicate (currentEmbedding : list float) (r : ScoutResponse)
    (similarExecutions : list Execution.t) : bool * ScoutResponse :=
  match similarExecutions with
  | [] => (false, r)
  | prevExecution :: rest =>
      match Execution.summary_embedding prevExecution with
      | None => findDuplicate currentEmbedding r rest
      | Some prevEmbedding =>
          if negb (List.length prevEmbedding =? 1536)%nat
          then findDuplicate currentEmbedding r rest
          else if negb (List.length prevEmbedding =? List.length currentEmbedding)%nat
          then findDuplicate currentEmbedding r rest
          else
            match cosineSimilarity currentEmbedding prevEmbedding with
            | Ok similarity =>
                if PrimFloat.leb similarityThreshold similarity
                then (true, duplicateNote r prevExecution similarity)
                else findDuplicate currentEmbedding r rest
            | Throw _ => findDuplicate currentEmbedding r rest
            end
      end
  end.

Definition checkDuplicates (r : ScoutResponse) (embedding : option (list float))
    (similarExecutions : list Execution.t) : bool * ScoutResponse :=
  match embedding, similarExecutions with
  | Some currentEmbedding, _ :: _ =>
      if taskCompleted r
      then findDuplicate currentEmbedding r similarExecutions
      else (false, r)
  | _, _ => (false, r)
  end.

(** ** The e-mail *)

(** Modelled from the spec: email.ts is not part of the sources at hand;
    [send_success(scout, result)] hands one message to the sender and
    either returns or throws. *)
Definition sendScoutSuccessEmail (scout : Scout.t) (r : ScoutResponse) : M unit :=
  match email_reply with
  | None =>
      modify (fun st => set_outbox (outbox st ++ [Build_Email scout r true])%list st)
  | Some e =>
      modify (fun st => set_outbox (outbox st ++ [Build_Email scout r false])%list st) ;;
      throw e
  end.

Definition notify (scout : Scout.t) (r : ScoutResponse) (duplicate : bool) : M unit :=
  if taskCompleted r && negb duplicate
  then try_catch (sendScoutSuccessEmail scout r) (fun _ => ret tt)
  else ret tt.

(** ** The branch of the loop body taken when the assistant calls no
    tool *)
Definition finalizeRun (scout : Scout.t) (executionId : string)
    (similarExecutions : list Execution.t) (assistantMessage : AssistantMessage)
    : M unit :=
  modify (set_continueLoop false) ;;
  let finalContent := content assistantMessage in
  let parsed := parseScoutResponse finalContent in
  modify (set_scoutResponse (Some parsed)) ;;
  modify (fun st => set_stepNumber (stepNumber st + 1) st) ;;
  sn <- gets stepNumber ;;
  createStep executionId sn summarize "Agent completed execution"
             (Some (OutResponse parsed)) Status.completed ;;
  modify (set_summaryText None) ;;
  modify (set_summaryEmbedding None) ;;
  generateSummary parsed ;;
  modify (set_isDuplicate false) ;;
  embedding <- gets summaryEmbedding ;;
  let '(duplicate, final) := checkDuplicates parsed embedding similarExecutions in
  modify (set_isDuplicate duplicate) ;;
  modify (set_scoutResponse (Some final)) ;;
  t <- now ;;
  txt <- gets summaryText ;;
  completeExecution executionId t final txt embedding ;;
  notify scout final duplicate.

(** ** One tool call *)

(** [scout.scrape_options ? { cookies, headers, waitFor, timeout } :
    undefined] *)
Definition firecrawlOptionsOf (scout : Scout.t) : option FirecrawlOptions :=
  match Scout.scrape_options scout with
  | Some o =>
      Some {| cookies := cookies o; headers := headers o;
              waitFor := waitFor o; timeout := timeout o |}
  | None => None
  end.

(** [scout.location?.city && scout.location.city !== "any" ?
    scout.location.city : undefined] *)
Definition locationToUse (scout : Scout.t) : option string :=
  match Scout.location scout with
  | Some l =>
      if JsString.nonEmpty (city l) && negb (String.eqb (city l) "any")
      then Some (city l)
      else None
  | None => None
  end.

(** The [try] / [catch] around the execution of the tool.  The result is
    [toolResult] and [hasError] as they stand after it. *)
Definition executeTool (scout : Scout.t) (key : string) (maxAgeMs : Z)
    (toolName : string) (toolArgs : ToolArgs) : M (ToolResult * bool) :=
  let firecrawlOptions := firecrawlOptionsOf scout in
  try_catch
    (sn <- gets stepNumber ;;
     toolResult <-
       (if String.eqb toolName "searchWeb"
        then
          r <- executeSearchTool (ArgsObject toolArgs) key (locationToUse scout)
                 (Some maxAgeMs) firecrawlOptions (tool_reply sn) ;;
          modify (fun st => set_firecrawlApiCallsCount (firecrawlApiCallsCount st + 1) st) ;;
          ret r
        else if String.eqb toolName "scrapeWebsite"
        then
          r <- executeScrapeTool (ArgsObject toolArgs) key
                 (Some maxAgeMs) firecrawlOptions (tool_reply sn) ;;
          modify (fun st => set_firecrawlApiCallsCount (firecrawlApiCallsCount st + 1) st) ;;
          ret r
        else ret NoResult) ;;
     let hasError := isSome (errorOf toolResult) in
     when (hasError && errorIncludes toolResult "401")
          (markFirecrawlKeyInvalid (Scout.user_id scout)
             ("Firecrawl returned 401: " ++ showStr (errorOf toolResult))) ;;
     if hasError && errorIncludes toolResult "402"
     then
       updateScouts (fun s => String.eqb (Scout.user_id s) (Scout.user_id scout))
                    (Scout.set_is_active false) ;;
       markFirecrawlKeyInvalid (Scout.user_id scout)
         "Firecrawl returned 402: Insufficient credits. Please add your own API key in Settings." ;;
       throw (Error creditsExhaustedMessage)
     else ret (toolResult, hasError))
    (fun error =>
       ret (CaughtErr (err_message error) (orStr (query toolArgs) (url toolArgs)), true)).

(** "Track consecutive errors (but don't count errors for blacklisted
    domains)" *)
Definition isBlacklistedError (toolName : string) (toolArgs : ToolArgs) : bool :=
  String.eqb toolName "scrapeWebsite"
  && truthyStr (url toolArgs)
  && isBlacklistedDomain (strVal (url toolArgs)).

Definition trackConsecutiveErrors (toolName : string) (toolArgs : ToolArgs)
    (hasError : bool) (toolResult : ToolResult) : M unit :=
  if hasError
  then
    if negb (isBlacklistedError toolName toolArgs)
    then
      modify (fun st => set_consecutiveErrors (consecutiveErrors st + 1) st) ;;
      errors <- gets consecutiveErrors ;;
      if (maxConsecutiveErrors <=? errors)%nat
      then throw (Error ("Too many consecutive tool errors ("
                         ++ JsString.ofNat maxConsecutiveErrors ++ "). Last error: "
                         ++ showStr (errorOf toolResult)))
      else ret tt
    else ret tt
  else modify (set_consecutiveErrors 0).

(** The body of [for (const toolCall of assistantMessage.tool_calls)];
    the conversation, which only feeds the next completion, is left
    out. *)
Definition processToolCall (scout : Scout.t) (executionId : string) (key : string)
    (maxAgeMs : Z) (toolCall : ToolCall) : M unit :=
  modify (fun st => set_stepNumber (stepNumber st + 1) st) ;;
  let toolName := call_name toolCall in
  parsed <- lift (call_arguments toolCall) ;;
  toolArgs <- lift (argsObject parsed) ;;
  sn <- gets stepNumber ;;
  createStep executionId sn
    (if String.eqb toolName "searchWeb" then search else scrape)
    (toolName ++ ": " ++ showStr (orStr (query toolArgs) (url toolArgs)))
    None Status.running ;;
  '(toolResult, hasError) <- executeTool scout key maxAgeMs toolName toolArgs ;;
  updateStep executionId sn
    (setStep (if hasError then Status.failed else Status.completed)
             (Some (OutTool toolResult))
             (if hasError then errorOf toolResult else None)) ;;
  trackConsecutiveErrors toolName toolArgs hasError toolResult.

Fixpoint processToolCalls (scout : Scout.t) (executionId : string) (key : string)
    (maxAgeMs : Z) (calls : list ToolCall) : M unit :=
  match calls with
  | [] => ret tt
  | toolCall :: rest =>
      processToolCall scout executionId key maxAgeMs toolCall ;;
      processToolCalls scout executionId key maxAgeMs rest
  end.

(** ** The loop *)

(** The body of [while (continueLoop && loopCount < maxLoops)] *)
Definition agentIteration (scout : Scout.t) (executionId : string) (key : string)
    (maxAgeMs : Z) (similarExecutions : list Execution.t) : M unit :=
  modify (fun st => set_loopCount (loopCount st + 1) st) ;;
  count <- gets loopCount ;;
  response <- fetch (chat_reply count) ;;
  if negb (ok response)
  then
    errorText <- readText response ;;
    throw (Error ("OpenAI API error: " ++ errorText))
  else
    assistantMessage <- readJson response ;;
    match tool_calls assistantMessage with
    | _ :: _ =>
        processToolCalls scout executionId key maxAgeMs (tool_calls assistantMessage)
    | [] => finalizeRun scout executionId similarExecutions assistantMessage
    end.

(** The [while] loop, by recursion on the number of iterations it may
    still make: [loopCount] grows by one in each, so [maxLoops] of them
    are enough (lemma [agentLoop_exits]). *)
Fixpoint agentLoop (fuel : nat) (scout : Scout.t) (executionId : string) (key : string)
    (maxAgeMs : Z) (similarExecutions : list Execution.t) : M unit :=
  match fuel with
  | O => ret tt
  | S fuel' =>
      continue <- gets continueLoop ;;
      count <- gets loopCount ;;
      if continue && (count <? maxLoops)%nat
      then
        agentIteration scout executionId key maxAgeMs similarExecutions ;;
        agentLoop fuel' scout executionId key maxAgeMs similarExecutions
      else ret tt
  end.

(** ** The [try] block of [executeScoutAgent] *)
Definition runBody (scout : Scout.t) (executionId : string) : M unit :=
  openaiConfig <- getOpenAIConfig ;;
  firecrawlKeyResult <- getFirecrawlKeyForUser (Scout.user_id scout) ;;
  if negb (truthyStr (apiKey firecrawlKeyResult))
  then throw (Error noKeyMessage)
  else
    let FIRECRAWL_API_KEY := showStr (apiKey firecrawlKeyResult) in
    modify (set_firecrawlApiCallsCount 0) ;;
    let maxAgeMs := getMaxAge (Scout.frequency scout) in
    similarExecutions <- querySimilarExecutions (Scout.id scout) ;;
    modify (fun st => set_stepNumber (stepNumber st + 1) st) ;;
    sn <- gets stepNumber ;;
    createStep executionId sn tool_call
      ("Initializing agent with " ++ (if isAzure openaiConfig then "Azure OpenAI" else "OpenAI"))
      None Status.running ;;
    modify (set_continueLoop true) ;;
    modify (set_loopCount 0) ;;
    modify (set_consecutiveErrors 0) ;;
    agentLoop maxLoops scout executionId FIRECRAWL_API_KEY maxAgeMs similarExecutions ;;
    count <- gets loopCount ;;
    when (maxLoops <=? count)%nat
         (t <- now ;;
          updateExecution executionId (completedWith t incompleteSummary)) ;;
    t <- now ;;
    updateScouts (fun s => String.eqb (Scout.id s) (Scout.id scout))
                 (fun s => Scout.set_consecutive_failures 0
                             (Scout.set_last_run_at (Some t) s)) ;;
    calls <- gets firecrawlApiCallsCount ;;
    when (0 <? calls)%nat
         (logFirecrawlUsage
            {| userId := Scout.user_id scout;
               scoutId := Scout.id scout;
               executionId := executionId;
               usage_usedFallback := usedFallback firecrawlKeyResult;
               usage_fallbackReason := fallbackReason firecrawlKeyResult;
               apiCallsCount := calls |}).

(** ** The [catch] block of [executeScoutAgent] *)
Definition runFailed (scout : Scout.t) (executionId : string) (error : JsError)
    : M unit :=
  sn <- gets stepNumber ;;
  when (0 <? sn)%nat
       (updateStep executionId sn
          (fun row => setStep Status.failed (Step.output_data row)
                              (Some (err_message error)) row)) ;;
  t <- now ;;
  updateExecution executionId (failedWith t (err_message error)) ;;
  let newFailureCount := (Scout.consecutive_failures scout + 1)%nat in
  let shouldDisable := (3 <=? newFailureCount)%nat in
  t <- now ;;
  updateScouts (fun s => String.eqb (Scout.id s) (Scout.id scout))
               (fun s =>
                  let s := Scout.set_consecutive_failures newFailureCount
                             (Scout.set_last_run_at (Some t) s) in
                  if shouldDisable then Scout.set_is_active false s else s).

Definition executeScoutAgent (scout : Scout.t) : M unit :=
  freshLocals ;;
  inserted <- insertExecution (Scout.id scout) ;;
  match inserted with
  | None => ret tt
  | Some executionId =>
      try_catch (runBody scout executionId) (runFailed scout executionId)
  end.

End Agent.

(* ===================================================================== *)
(** * index.ts: the executor entry point *)
(* ===================================================================== *)

Record Request : Type := {
  method : string;
  (** [url.searchParams.get("scoutId")] *)
  query_scoutId : option string;
  (** [(await req.json()).scoutId] *)
  body_scoutId : Res (option string)
}.

Inductive ResponseBody : Type :=
| PreflightOk
| Success (scoutId title : string)
| Conflict (error scoutId runningExecutionId : string)
| Failure (error : string).

Record HttpResponse : Type := {
  http_status : nat;
  http_body : ResponseBody
}.

Section Entry.
Context {host : Host} {net : Oracle}.

(** [.from("scouts").select("*").eq("id", scoutId).single()] *)
Definition fetchScout (scoutId : string) (rows : list Scout.t) : option Scout.t :=
  match filter (fun s => String.eqb (Scout.id s) scoutId) rows with
  | [scout] => Some scout
  | _ => None
  end.

Definition isComplete (scout : Scout.t) : bool :=
  JsString.nonEmpty (Scout.title scout)
  && JsString.nonEmpty (Scout.goal scout)
  && JsString.nonEmpty (Scout.description scout)
  && isSome (Scout.location scout)
  && (0 <? List.length (Scout.search_queries scout))%nat
  && isSome (Scout.frequency scout).

(** [.from("scout_executions").select("id, created_at").eq("scout_id",
    scoutId).eq("status", "running").order("created_at", { ascending:
    false }).limit(1).single()] *)
Definition runningExecutionOf (scoutId : string) (rows : list Execution.t)
    : option Execution.t :=
  hd_error
    (orderDesc (fun e => Some (Execution.created_at e))
       (filter (fun e => String.eqb (Execution.scout_id e) scoutId
                         && statusIs Status.running e)
               rows)).

(** The [scoutId] the handler works with: the query parameter, or for a
    POST without one the [scoutId] of the body. *)
Definition requestedScoutId (req : Request) : option string :=
  let scoutId := query_scoutId req in
  if negb (truthyStr scoutId) && String.eqb (method req) "POST"
  then match body_scoutId req with
       | Ok fromBody => fromBody
       | Throw _ => scoutId
       end
  else scoutId.

Definition serve (req : Request) : M HttpResponse :=
  if String.eqb (method req) "OPTIONS"
  then ret {| http_status := 200; http_body := PreflightOk |}
  else
    try_catch
      (let supabaseUrl := env "SUPABASE_URL" in
       let supabaseServiceKey := env "SUPABASE_SERVICE_ROLE_KEY" in
       if negb (truthyStr supabaseUrl) || negb (truthyStr supabaseServiceKey)
       then throw (Error "Supabase configuration missing")
       else
         let scoutId := query_scoutId req in
         let scoutId :=
           if negb (truthyStr scoutId) && String.eqb (method req) "POST"
           then match body_scoutId req with
                | Ok fromBody => fromBody
                | Throw _ => scoutId
                end
           else scoutId in
         if negb (truthyStr scoutId)
         then throw (Error "scoutId is required. This function executes individual scouts dispatched by pg_cron.")
         else
           let scoutId := showStr scoutId in
           rows <- gets scouts ;;
           match fetchScout scoutId rows with
           | None => throw (Error ("Scout " ++ scoutId ++ " not found in database"))
           | Some scout =>
               if negb (Scout.is_active scout)
               then throw (Error ("Scout " ++ scoutId ++ " is not active"))
               else if negb (isComplete scout)
               then throw (Error ("Scout " ++ scoutId ++ " configuration is not complete"))
               else
                 executions <- gets scout_executions ;;
                 match runningExecutionOf scoutId executions with
                 | Some runningExecution =>
                     ret {| http_status := 409;
                            http_body :=
                              Conflict "Scout execution already in progress"
                                       (Scout.id scout)
                                       (Execution.id runningExecution) |}
                 | None =>
                     executeScoutAgent scout ;;
                     ret {| http_status := 200;
                            http_body := Success (Scout.id scout) (Scout.title scout) |}
                 end
           end)
      (fun error =>
         ret {| http_status := 500; http_body := Failure (err_message error) |}).

End Entry.

(* ===================================================================== *)
(** * Concrete runs: a runtime, a store and scripted replies *)
(* ===================================================================== *)

Module Sample.

(** A [JSON.parse] that knows the documents of a table and rejects every
    other text. *)
Definition parseTable (table : list (string * json)) (s : string) : option json :=
  match find (fun entry => String.eqb (fst entry) s) table with
  | Some entry => Some (snd entry)
  | None => None
  end.

Definition found : ScoutResponse :=
  mkScoutResponse true "completed" "## New AI model released".

Definition nothing : ScoutResponse :=
  mkScoutResponse false "not_found" "Nothing new.".

Definition quoted (s : string) : string := JsString.dquote ++ s ++ JsString.dquote.

(** The JSON texts of [found] and [nothing], as the assistant writes
    them. *)
Definition foundJson : string :=
  "{" ++ quoted "taskCompleted" ++ ":true," ++ quoted "taskStatus" ++ ":"
  ++ quoted "completed" ++ "," ++ quoted "response" ++ ":"
  ++ quoted "## New AI model released" ++ "}".

Definition nothingJson : string :=
  "{" ++ quoted "taskCompleted" ++ ":false," ++ quoted "taskStatus" ++ ":"
  ++ quoted "not_found" ++ "," ++ quoted "response" ++ ":"
  ++ quoted "Nothing new." ++ "}".

(** [new Date(t).toLocaleDateString()] in the locale en-US and the time
    zone UTC: month/day/year of the day that holds the millisecond [t]. *)
Definition usDate (t : Z) : string :=
  let z := (t / 86400000 + 719468)%Z in
  let era := (z / 146097)%Z in
  let doe := (z - era * 146097)%Z in
  let yoe := ((doe - doe / 1460 + doe / 36524 - doe / 146096) / 365)%Z in
  let doy := (doe - (365 * yoe + yoe / 4 - yoe / 100))%Z in
  let mp := ((5 * doy + 2) / 153)%Z in
  let d := (doy - (153 * mp + 2) / 5 + 1)%Z in
  let m := (if mp <? 10 then mp + 3 else mp - 9)%Z in
  let y := (yoe + era * 400 + (if m <=? 2 then 1 else 0))%Z in
  JsString.ofNat (Z.to_nat m) ++ "/" ++ JsString.ofNat (Z.to_nat d) ++ "/"
  ++ JsString.ofNat (Z.to_nat y).

(** [x.toFixed(1)] of a finite number: the tenths nearest to [x], the
    larger of two that are as near. *)
Definition fixedOne (x : float) : string :=
  match Prim2SF x with
  | S754_zero _ => "0.0"
  | S754_finite negative mantissa exponent =>
      let scaled := (Z.pos mantissa * 10)%Z in
      let tenths :=
        if (0 <=? exponent)%Z
        then (scaled * 2 ^ exponent)%Z
        else ((2 * scaled + 2 ^ (- exponent)) / 2 ^ (1 - exponent))%Z in
      (if negative then "-" else EmptyString)
      ++ JsString.ofNat (Z.to_nat (tenths / 10)) ++ "."
      ++ JsString.ofNat (Z.to_nat (tenths mod 10))
  | S754_infinity negative => if negative then "-Infinity" else "Infinity"
  | S754_nan => "NaN"
  end.

(** [String(x)] of a number that is an integer below 2^53 in absolute
    value; the samples hold no other number in a response. *)
Definition integerToString (x : float) : string :=
  match Prim2SF x with
  | S754_zero _ => "0"
  | S754_finite negative mantissa exponent =>
      (if negative then "-" else EmptyString)
      ++ JsString.ofNat
           (Z.to_nat (if (0 <=? exponent)%Z
                      then Z.pos mantissa * 2 ^ exponent
                      else Z.pos mantissa / 2 ^ (- exponent)))
  | S754_infinity negative => if negative then "-Infinity" else "Infinity"
  | S754_nan => "NaN"
  end.

Definition runtime : Host :=
  {| JSON_parse :=
       parseTable [(foundJson, found); (nothingJson, nothing); ("null", JNull);
                   ("{}", JObj [])];
     numberToString := integerToString;
     isBlacklistedDomain :=
       fun v => match v with
                | Some (JStr u) => JsString.includes u "facebook.com"
                | _ => false
                end;
     getMaxAge :=
       fun f => match f with
                | Some daily => 86400000%Z
                | Some every_3_days => 259200000%Z
                | Some weekly => 604800000%Z
                | None => 3600000%Z
                end;
     toLocaleDateString := usDate;
     toFixed1 := fixedOne |}.

Definition scoutS1 : Scout.t :=
  Scout.mk "S1" "U1" "AI News" "Daily AI news" "Find new AI releases"
           ["AI news"; "artificial intelligence news"]
           (Some {| city := "any"; latitude := 0%float; longitude := 0%float |})
           (Some daily) true None 0 None.

Definition scoutS2 : Scout.t :=
  Scout.mk "S2" "U1" "Rust News" "Weekly Rust news" "Find new Rust releases"
           ["rust release"]
           (Some {| city := "Denver"; latitude := 0%float; longitude := 0%float |})
           (Some weekly) true None 2 None.

Definition store0 : St :=
  {| scouts := [scoutS1; scoutS2];
     scout_executions := [];
     scout_execution_steps := [];
     user_preferences := [Preferences.mk "U1" (Some "fc-key") key_active None];
     firecrawl_usage_logs := [];
     outbox := [];
     clock := 1767398400000%Z;
     stepNumber := 0; firecrawlApiCallsCount := 0; loopCount := 0;
     continueLoop := true; consecutiveErrors := 0; scoutResponse := None;
     summaryText := None; summaryEmbedding := None; isDuplicate := false |}.

Definition environment (name : string) : option string :=
  if String.eqb name "OPENAI_API_KEY" then Some "sk-test"
  else if String.eqb name "SUPABASE_URL" then Some "https://db.example"
  else if String.eqb name "SUPABASE_SERVICE_ROLE_KEY" then Some "service-key"
  else None.

Definition replied {B : Type} (code : nat) (reason : string) (raw : string) (b : Res B)
    : Reply B :=
  {| elapsed := 500%Z;
     outcome := Responded {| status := code; statusText := reason; reading := 20%Z;
                             text := Ok raw; body := b |} |}.

Definition searchCall (q : string) : ToolCall :=
  {| call_id := "call_1"; call_name := "searchWeb";
     call_arguments :=
       Ok (ArgsObject {| query := Some q; url := None; limit := None; tbs := Some "qdr:d" |}) |}.

Definition scrapeCall (u : string) : ToolCall :=
  {| call_id := "call_2"; call_name := "scrapeWebsite";
     call_arguments :=
       Ok (ArgsObject {| query := None; url := Some u; limit := None; tbs := None |}) |}.

Definition asks (calls : list ToolCall) : Reply AssistantMessage :=
  replied 200 "OK" EmptyString (Ok {| content := None; tool_calls := calls |}).

Definition answers (txt : string) : Reply AssistantMessage :=
  replied 200 "OK" EmptyString (Ok {| content := Some txt; tool_calls := [] |}).

Definition noWebResults : Reply json :=
  replied 200 "OK" EmptyString (Ok (JObj [("success", JBool true); ("data", JObj [("web", JArr [])])])).

Definition paymentRequired : Reply json :=
  replied 402 "Payment Required" "Insufficient credits"
          (Throw (mkJsError "SyntaxError" "Unexpected token")).

Definition serverError : Reply json :=
  replied 500 "Internal Server Error" "upstream failure"
          (Throw (mkJsError "SyntaxError" "Unexpected token")).

(** The first search meets a 402; the assistant then gives its final
    answer. *)
Definition creditsRunOut : Oracle :=
  {| env := environment;
     insert_reply := Some "E1";
     chat_reply := fun count =>
       if (count =? 1)%nat then asks [searchCall "AI news"] else answers nothingJson;
     tool_reply := fun _ => paymentRequired;
     summary_reply := replied 200 "OK" EmptyString (Ok "A new AI model was released.");
     embedding_reply := replied 200 "OK" EmptyString (Ok (Some (repeat 1%float 1536)));
     email_reply := None |}.

(** A store in which scout S1 has an execution under way. *)
Definition executionE0 : Execution.t :=
  Execution.mk "E0" "S1" Status.running 1767398000000%Z None None None None None.

Definition storeRunning : St := set_scout_executions [executionE0] store0.

(** The same, after S1 was paused. *)
Definition storePaused : St :=
  set_scouts [Scout.set_is_active false scoutS1; scoutS2] storeRunning.

Definition postS1 : Request :=
  {| method := "POST"; query_scoutId := None; body_scoutId := Ok (Some "S1") |}.

(** Embeddings of 1536 dimensions: [axis] is the first unit vector,
    [tilted] makes an angle with it whose cosine is 9/sqrt(97), about
    0.914. *)
Definition axis : list float := 1%float :: repeat 0%float 1535.
Definition tilted : list float := 9%float :: 4%float :: repeat 0%float 1534.

Definition findingRecent : Execution.t :=
  Execution.mk "E8" "S1" Status.completed 1767312000000%Z (Some 1767312060000%Z) None
               (Some found)
               (Some "Model Alpha announced") (Some tilted).

Definition findingOlder : Execution.t :=
  Execution.mk "E7" "S1" Status.completed 1767225600000%Z (Some 1767225660000%Z) None
               (Some found)
               (Some "Model Alpha released") (Some axis).

(** The chat completion endpoint answers 500. *)
Definition modelDown : Oracle :=
  {| env := environment;
     insert_reply := Some "E1";
     chat_reply := fun _ =>
       replied 500 "Internal Server Error" "overloaded"
               (Throw (mkJsError "SyntaxError" "Unexpected token"));
     tool_reply := fun _ => noWebResults;
     summary_reply := replied 200 "OK" EmptyString (Ok "A new AI model was released.");
     embedding_reply := replied 200 "OK" EmptyString (Ok (Some axis));
     email_reply := None |}.

(** The assistant keeps searching and every search fails. *)
Definition searchDown : Oracle :=
  {| env := environment;
     insert_reply := Some "E1";
     chat_reply := fun _ => asks [searchCall "AI news"];
     tool_reply := fun _ => serverError;
     summary_reply := replied 200 "OK" EmptyString (Ok "A new AI model was released.");
     embedding_reply := replied 200 "OK" EmptyString (Ok (Some axis));
     email_reply := None |}.

(** The assistant keeps searching and never gives a final answer. *)
Definition keepsSearching : Oracle :=
  {| env := environment;
     insert_reply := Some "E1";
     chat_reply := fun _ => asks [searchCall "AI news"];
     tool_reply := fun _ => noWebResults;
     summary_reply := replied 200 "OK" EmptyString (Ok "A new AI model was released.");
     embedding_reply := replied 200 "OK" EmptyString (Ok (Some axis));
     email_reply := None |}.

(** The assistant answers at once with a finding; the summary completion
    is [summary]. *)
Definition findsAtOnce (summary : string) : Oracle :=
  {| env := environment;
     insert_reply := Some "E1";
     chat_reply := fun _ => answers foundJson;
     tool_reply := fun _ => noWebResults;
     summary_reply := replied 200 "OK" EmptyString (Ok summary);
     embedding_reply := replied 200 "OK" EmptyString (Ok (Some axis));
     email_reply := None |}.

(** The store after an earlier run of S1 that found the same news. *)
Definition storeWithFinding : St := set_scout_executions [findingOlder] store0.

(** A summary of 156 characters. *)
Definition longSummary : string :=
  "The new model Alpha was released on Monday with a context window of one million tokens, "
  ++ "and it is available to every developer through the public API today.".

End Sample.


(* ===================================================================== *)
(** * openai-config.ts: the URLs of the requests *)
(* ===================================================================== *)

Section OpenAIUrls.
Context {net : Oracle}.

(** Build the chat completions URL for the configured provider *)
Definition getChatCompletionsUrl (config : OpenAIConfig) : string :=
  if isAzure config
  then
    let apiVersion := orDefault (env "AZURE_OPENAI_API_VERSION") "2024-08-01-preview" in
    baseUrl config ++ "/openai/deployments/" ++ chatModel config
    ++ "/chat/completions?api-version=" ++ apiVersion
  else baseUrl config ++ "/v1/chat/completions".

(** Build the embeddings URL for the configured provider *)
Definition getEmbeddingsUrl (config : OpenAIConfig) : string :=
  if isAzure config
  then
    let apiVersion := orDefault (env "AZURE_OPENAI_API_VERSION") "2024-08-01-preview" in
    baseUrl config ++ "/openai/deployments/" ++ embeddingModel config
    ++ "/embeddings?api-version=" ++ apiVersion
  else baseUrl config ++ "/v1/embeddings".

End OpenAIUrls.

(* ===================================================================== *)
(** * The setup script: [syncEdgeFunctionSecrets] *)
(* ===================================================================== *)

Module Setup.

(** An entry of [secretsToSync] *)
Record Secret : Type := {
  secret_env : string;
  secret_name : string;
  required : bool
}.

Definition secretsToSync : list Secret :=
  [ {| secret_env := "OPENAI_API_KEY"; secret_name := "OPENAI_API_KEY"; required := false |};
    {| secret_env := "AZURE_OPENAI_API_KEY"; secret_name := "AZURE_OPENAI_API_KEY";
       required := false |};
    {| secret_env := "AZURE_OPENAI_ENDPOINT"; secret_name := "AZURE_OPENAI_ENDPOINT";
       required := false |};
    {| secret_env := "AZURE_OPENAI_CHAT_DEPLOYMENT";
       secret_name := "AZURE_OPENAI_CHAT_DEPLOYMENT"; required := false |};
    {| secret_env := "AZURE_OPENAI_EMBEDDING_DEPLOYMENT";
       secret_name := "AZURE_OPENAI_EMBEDDING_DEPLOYMENT"; required := false |};
    {| secret_env := "AZURE_OPENAI_API_VERSION"; secret_name := "AZURE_OPENAI_API_VERSION";
       required := false |};
    {| secret_env := "FIRECRAWL_API_KEY"; secret_name := "FIRECRAWL_API_KEY";
       required := true |};
    {| secret_env := "RESEND_API_KEY"; secret_name := "RESEND_API_KEY"; required := false |};
    {| secret_env := "RESEND_FROM_EMAIL"; secret_name := "RESEND_FROM_EMAIL";
       required := false |} ].

(** The three lists the script fills: [{ name, value }] of the secrets
    that are set, and the names of those that are not. *)
Record Found : Type := {
  found_name : string;
  found_value : string
}.

Record Sorted : Type := {
  secretsToSet : list Found;
  missingRequired : list string;
  missingOptional : list string
}.

(** The body of [for (const secret of secretsToSync)]: [process.env] is
    [processEnv], and a variable set to the empty string is falsy. *)
Definition sortSecret (processEnv : string -> option string) (lists : Sorted)
    (secret : Secret) : Sorted :=
  let value := processEnv (secret_env secret) in
  if truthyStr value
  then {| secretsToSet :=
            (secretsToSet lists
               ++ [{| found_name := secret_name secret; found_value := showStr value |}])%list;
          missingRequired := missingRequired lists;
          missingOptional := missingOptional lists |}
  else if required secret
  then {| secretsToSet := secretsToSet lists;
          missingRequired := (missingRequired lists ++ [secret_env secret])%list;
          missingOptional := missingOptional lists |}
  else {| secretsToSet := secretsToSet lists;
          missingRequired := missingRequired lists;
          missingOptional := (missingOptional lists ++ [secret_env secret])%list |}.

Definition sortSecrets (processEnv : string -> option string) (secrets : list Secret)
    : Sorted :=
  fold_left (sortSecret processEnv) secrets
    {| secretsToSet := []; missingRequired := []; missingOptional := [] |}.

(** What [spawnSync] returns: [status] ([None] for [null], of a process
    that was killed), [stderr] and [stdout]. *)
Record Spawned : Type := {
  spawn_status : option Z;
  spawn_stderr : string;
  spawn_stdout : string
}.

(** [result.stderr || result.stdout || 'Unknown error'] *)
Definition failureText (result : Spawned) : string :=
  if JsString.nonEmpty (spawn_stderr result) then spawn_stderr result
  else if JsString.nonEmpty (spawn_stdout result) then spawn_stdout result
  else "Unknown error".

(** [error.message || String(error)] of what the [try] block throws. *)
Definition errorOutput (error : JsError) : string :=
  if JsString.nonEmpty (err_message error) then err_message error
  else if JsString.nonEmpty (err_name error) then err_name error
  else "Error".

(** The state of the loop that syncs the secrets: the counter, the
    secrets that failed with their error, and whether the function
    returned from inside the loop because the project is not linked. *)
Record Synced : Type := {
  successCount : nat;
  failedSecrets : list (string * string);
  notLinked : bool
}.

(** [for (const { name, value } of secretsToSet)]: [cli name value] is
    what [spawnSync('npx', ['supabase', 'secrets', 'set',
    name=value])] does. *)
Fixpoint syncSecrets (cli : string -> string -> Res Spawned) (todo : list Found)
    (state : Synced) : Synced :=
  match todo with
  | [] => state
  | secret :: rest =>
      let attempt :=
        bindRes (cli (found_name secret) (found_value secret)) (fun result =>
          match spawn_status result with
          | Some 0%Z => Ok tt
          | _ => Throw (Error (failureText result))
          end) in
      match attempt with
      | Ok _ =>
          syncSecrets cli rest
            {| successCount := successCount state + 1;
               failedSecrets := failedSecrets state;
               notLinked := notLinked state |}
      | Throw error =>
          if JsString.includes (errorOutput error) "not linked"
          then {| successCount := successCount state;
                  failedSecrets := failedSecrets state;
                  notLinked := true |}
          else
            syncSecrets cli rest
              {| successCount := successCount state;
                 failedSecrets :=
                   (failedSecrets state ++ [(found_name secret, errorOutput error)])%list;
                 notLinked := notLinked state |}
      end
  end.

End Setup.

(* ===================================================================== *)
(** * app/api/scout/route.ts: the chat that configures a scout *)
(* ===================================================================== *)

(** The handler up to the call of [streamText], and the two callbacks it
    hands to it.  The tables are those of the agent; a [select] with
    [.single()] is [fetchScout], as in index.ts, and an [insert] adds its
    row.  The one error of the store the callbacks look at on their own,
    that of the [update], is an argument of [execute]. *)
Module Chat.

(** A part of a [UIMessage]; [part_text] is the text of a text part. *)
Record Part : Type := {
  part_type : string;
  part_text : string
}.

Record UIMessage : Type := {
  role : string;
  parts : list Part
}.

(** A row of [scout_messages] *)
Record Message : Type := {
  message_scout_id : string;
  message_role : string;
  message_content : string
}.

(** The request body, at the type the code declares for it. *)
Record Body : Type := {
  messages : list UIMessage;
  scoutId : string;
  location : option Location
}.

(** The tables the route works on. *)
Record Store : Type := {
  scouts : list Scout.t;
  scout_messages : list Message
}.

(** What [POST] does before it starts to stream: it answers with a
    status and an error, or goes on to [streamText] with the scout as
    stored ([currentScout], [None] for the empty object). *)
Inductive Answer : Type :=
| Refused (status : nat) (error : string)
| Streams (currentScout : option Scout.t).

(** [messages[messages.length - 1]] *)
Definition lastMessage (all : list UIMessage) : option UIMessage :=
  match rev all with
  | [] => None
  | message :: _ => Some message
  end.

(** [lastMessage.parts.filter((part) => part.type === "text").map((part)
    => part.text).join("\n")] *)
Definition textOf (message : UIMessage) : string :=
  String.concat JsString.newline
    (map part_text (filter (fun part => String.eqb (part_type part) "text") (parts message))).

(** "Save user message to database" *)
Definition saveUserMessage (body : Body) (store : Store) : Store :=
  match lastMessage (messages body) with
  | Some message =>
      if String.eqb (role message) "user"
      then
        let content := textOf message in
        if JsString.nonEmpty content
        then {| scouts := scouts store;
                scout_messages :=
                  (scout_messages store
                   ++ [{| message_scout_id := scoutId body; message_role := "user";
                          message_content := content |}])%list |}
        else store
      else store
  | None => store
  end.

(** [POST] up to the call of [streamText]: [user] is the id of the user
    of the session, [body] what [req.json()] yields. *)
Definition POST (user : option string) (body : Res Body) (store : Store)
    : Answer * Store :=
  match user with
  | None => (Refused 401 "Unauthorized", store)
  | Some userId =>
      match body with
      | Throw _ => (Refused 400 "Invalid request body", store)
      | Ok body =>
          match fetchScout (scoutId body) (scouts store) with
          | Some scout =>
              if negb (String.eqb (Scout.user_id scout) userId)
              then (Refused 403 "Scout not found or unauthorized", store)
              else
                let store := saveUserMessage body store in
                (Streams (fetchScout (scoutId body) (scouts store)), store)
          | None => (Refused 403 "Scout not found or unauthorized", store)
          end
      end
  end.

(** The input of the tool [update_scout_config]: every field is
    optional. *)
Record Params : Type := {
  new_title : option string;
  new_goal : option string;
  new_description : option string;
  new_location : option Location;
  new_search_queries : option (list string);
  new_frequency : option Frequency
}.

Definition orKeep {A : Type} (given : option A) (kept : A) : A :=
  match given with
  | Some value => value
  | None => kept
  end.

(** [.update(params)] on one row: the fields that are given are
    written. *)
Definition written (params : Params) (row : Scout.t) : Scout.t :=
  Scout.mk (Scout.id row) (Scout.user_id row)
    (orKeep (new_title params) (Scout.title row))
    (orKeep (new_description params) (Scout.description row))
    (orKeep (new_goal params) (Scout.goal row))
    (orKeep (new_search_queries params) (Scout.search_queries row))
    (match new_location params with
     | Some l => Some l
     | None => Scout.location row
     end)
    (match new_frequency params with
     | Some f => Some f
     | None => Scout.frequency row
     end)
    (Scout.is_active row) (Scout.last_run_at row) (Scout.consecutive_failures row)
    (Scout.scrape_options row).

(** What [execute] returns *)
Record Outcome : Type := {
  success : bool;
  completed : option bool;
  message : option string;
  error : option string
}.

(** [execute] of [update_scout_config] for the scout of the
    conversation; [updateError] is the error of the update, if the
    store reports one.  The test of lines 190-196 is the expression of
    index.ts, [isComplete]. *)
Definition execute (conversation : string) (updateError : option string)
    (params : Params) (store : Store) : Outcome * Store :=
  match updateError with
  | Some reason =>
      ({| success := false; completed := None; message := None; error := Some reason |},
       store)
  | None =>
      let store :=
        {| scouts :=
             updateWhere (fun row => String.eqb (Scout.id row) conversation)
                         (written params) (scouts store);
           scout_messages := scout_messages store |} in
      match fetchScout conversation (scouts store) with
      | Some updatedScout =>
          if isComplete updatedScout
          then ({| success := true; completed := Some true;
                   message := Some "Scout is now complete and ready!"; error := None |},
                store)
          else ({| success := true; completed := Some false;
                   message := Some "Scout updated successfully"; error := None |},
                store)
      | None =>
          ({| success := true; completed := Some false; message := None; error := None |},
           store)
      end
  end.

(** [onFinish]: "Save assistant message to database" *)
Definition onFinish (conversation : string) (text : string) (store : Store) : Store :=
  {| scouts := scouts store;
     scout_messages :=
       (scout_messages store
        ++ [{| message_scout_id := conversation; message_role := "assistant";
               message_content := text |}])%list |}.

End Chat.

(* ===================================================================== *)
(** * Further concrete runs *)
(* ===================================================================== *)

Module Scenario.

(** The store refuses the insert of the execution. *)
Definition insertFails : Oracle :=
  {| env := Sample.environment;
     insert_reply := None;
     chat_reply := fun _ => Sample.answers Sample.foundJson;
     tool_reply := fun _ => Sample.noWebResults;
     summary_reply := Sample.replied 200 "OK" EmptyString (Ok "A new AI model was released.");
     embedding_reply := Sample.replied 200 "OK" EmptyString (Ok (Some Sample.axis));
     email_reply := None |}.

(** Only the store credentials are configured: no OpenAI key, no Azure
    OpenAI key. *)
Definition storeOnly (name : string) : option string :=
  if String.eqb name "SUPABASE_URL" then Some "https://db.example"
  else if String.eqb name "SUPABASE_SERVICE_ROLE_KEY" then Some "service-key"
  else None.

Definition noProvider : Oracle :=
  {| env := storeOnly;
     insert_reply := Some "E1";
     chat_reply := fun _ => Sample.answers Sample.foundJson;
     tool_reply := fun _ => Sample.noWebResults;
     summary_reply := Sample.replied 200 "OK" EmptyString (Ok "A new AI model was released.");
     embedding_reply := Sample.replied 200 "OK" EmptyString (Ok (Some Sample.axis));
     email_reply := None |}.

(** The assistant asks for one search, which finds nothing, and then
    answers that there is nothing new. *)
Definition searchesOnce : Oracle :=
  {| env := Sample.environment;
     insert_reply := Some "E1";
     chat_reply := fun count =>
       if (count =? 1)%nat then Sample.asks [Sample.searchCall "AI news"]
       else Sample.answers Sample.nothingJson;
     tool_reply := fun _ => Sample.noWebResults;
     summary_reply := Sample.replied 200 "OK" EmptyString (Ok "A new AI model was released.");
     embedding_reply := Sample.replied 200 "OK" EmptyString (Ok (Some Sample.axis));
     email_reply := None |}.

(** The completions of [searchesOnce] for the seven iterations; any
    further request would be answered with a finding. *)
Definition afterTheLimit (count : nat) : Reply AssistantMessage :=
  if (count <=? 7)%nat then @chat_reply searchesOnce count
  else Sample.answers Sample.foundJson.

(** A search reply with two results, the second on a blacklisted
    domain. *)
Definition webResult (title url : string) : json :=
  JObj [("title", JStr title); ("url", JStr url); ("description", JStr "A page.")].

Definition twoResults : Reply json :=
  Sample.replied 200 "OK" EmptyString
    (Ok (JObj [("success", JBool true);
               ("data", JObj [("web", JArr [webResult "Release notes" "https://example.org/notes";
                                            webResult "A post" "https://facebook.com/post"])])])).

(** A scrape reply with a page of 3000 characters. *)
Definition longPage : Reply json :=
  Sample.replied 200 "OK" EmptyString
    (Ok (JObj [("success", JBool true);
               ("data", JObj [("markdown", JStr (String.concat EmptyString (repeat "abc" 1000)))])])).

(** A scrape reply that is there after half a second, and whose body takes
    70 seconds to arrive. *)
Definition slowPage : Reply json :=
  {| elapsed := 500%Z;
     outcome :=
       Responded {| status := 200; statusText := "OK"; reading := 70000%Z;
                    text := Ok EmptyString;
                    body := Ok (JObj [("success", JBool true);
                                      ("data", JObj [("markdown", JStr "# Notes")])]) |} |}.

(** A reply that is not there after 60 seconds. *)
Definition noReply : Reply json :=
  {| elapsed := 90000%Z; outcome := Rejected (Error "socket hang up") |}.

Definition searchArgs : ToolArgs :=
  {| query := Some "AI news"; url := None; limit := None; tbs := Some "qdr:d" |}.

Definition scrapeArgs : ToolArgs :=
  {| query := None; url := Some "https://example.org/notes"; limit := None; tbs := None |}.

(** Azure OpenAI is configured, the endpoint written without a slash at
    its end; an OpenAI key is set as well. *)
Definition azureSettings (endpoint : string) (openaiKey : option string)
    (name : string) : option string :=
  if String.eqb name "AZURE_OPENAI_API_KEY" then Some "azure-key"
  else if String.eqb name "AZURE_OPENAI_ENDPOINT" then Some endpoint
  else if String.eqb name "AZURE_OPENAI_CHAT_DEPLOYMENT" then Some "chat-prod"
  else if String.eqb name "OPENAI_API_KEY" then openaiKey
  else storeOnly name.

Definition onAzure (endpoint : string) (openaiKey : option string) : Oracle :=
  {| env := azureSettings endpoint openaiKey;
     insert_reply := Some "E1";
     chat_reply := fun _ => Sample.answers Sample.foundJson;
     tool_reply := fun _ => Sample.noWebResults;
     summary_reply := Sample.replied 200 "OK" EmptyString (Ok "A new AI model was released.");
     embedding_reply := Sample.replied 200 "OK" EmptyString (Ok (Some Sample.axis));
     email_reply := None |}.

(** A [.env] with an OpenAI key, an empty Firecrawl key and a Resend
    key. *)
Definition dotEnv (name : string) : option string :=
  if String.eqb name "OPENAI_API_KEY" then Some "sk-test"
  else if String.eqb name "FIRECRAWL_API_KEY" then Some EmptyString
  else if String.eqb name "RESEND_API_KEY" then Some "re-test"
  else None.

(** A command line that sets every secret but the Resend key, for which
    it reports an error. *)
Definition flakyCli (name value : string) : Res Setup.Spawned :=
  if String.eqb name "RESEND_API_KEY"
  then Ok {| Setup.spawn_status := Some 1%Z; Setup.spawn_stderr := "request failed";
             Setup.spawn_stdout := EmptyString |}
  else Ok {| Setup.spawn_status := Some 0%Z; Setup.spawn_stderr := EmptyString;
             Setup.spawn_stdout := "Finished" |}.

(** A conversation about scout S1: the user of the session is its
    owner, U1. *)
(** A scout of another user, not yet configured *)
Definition scoutS3 : Scout.t :=
  Scout.mk "S3" "U2" "Jobs" EmptyString EmptyString [] None None false None 0 None.

Definition chatStore : Chat.Store :=
  {| Chat.scouts := [Sample.scoutS1; Sample.scoutS2; scoutS3];
     Chat.scout_messages := [] |}.

Definition userSays (text : string) : Chat.UIMessage :=
  {| Chat.role := "user";
     Chat.parts := [{| Chat.part_type := "step-start"; Chat.part_text := EmptyString |};
                    {| Chat.part_type := "text"; Chat.part_text := text |}] |}.

Definition chatBody : Chat.Body :=
  {| Chat.messages := [userSays "Track AI news"]; Chat.scoutId := "S1";
     Chat.location := None |}.

Definition newTitle : Chat.Params :=
  {| Chat.new_title := Some "AI Releases"; Chat.new_goal := None;
     Chat.new_description := None; Chat.new_location := None;
     Chat.new_search_queries := None; Chat.new_frequency := None |}.

End Scenario.
(* ===================================================================== *)
(** * Vocabulary of the statements *)
(* ===================================================================== *)

(** [triple P m Q E]: from a state in [P], [m] either returns [a] in a state
    of [Q a] or throws [e] in a state of [E e].  Every computation of [M] is
    a total function, so it always does one of the two. *)
Definition triple {A : Type} (P : St -> Prop) (m : M A)
    (Q : A -> St -> Prop) (E : JsError -> St -> Prop) : Prop :=
  forall st, P st ->
    match m st with
    | (Ok a, st') => Q a st'
    | (Throw e, st') => E e st'
    end.

(** [m] keeps the invariant [J] when it returns, and ends in [E] when it
    throws. *)
Definition keeps {A : Type} (J : St -> Prop) (E : JsError -> St -> Prop) (m : M A)
    : Prop :=
  triple J m (fun _ => J) E.

(** [m] keeps the invariant [J], however it ends. *)
Definition preserves {A : Type} (J : St -> Prop) (m : M A) : Prop :=
  keeps J (fun _ => J) m.

(** The similarity the loop computes for a finding, when it compares it at
    all: a finding whose embedding is missing, is not of 1536 dimensions or
    differs in length from the new one is skipped. *)
Definition similarityTo (currentEmbedding : list float) (prevExecution : Execution.t)
    : option float :=
  match Execution.summary_embedding prevExecution with
  | None => None
  | Some prevEmbedding =>
      if negb (List.length prevEmbedding =? 1536)%nat then None
      else if negb (List.length prevEmbedding =? List.length currentEmbedding)%nat then None
      else match cosineSimilarity currentEmbedding prevEmbedding with
           | Ok similarity => Some similarity
           | Throw _ => None
           end
  end.

(** The finding was compared and its similarity is at least the
    threshold. *)
Definition reachesThreshold (currentEmbedding : list float) (prevExecution : Execution.t)
    : bool :=
  match similarityTo currentEmbedding prevExecution with
  | Some similarity => PrimFloat.leb similarityThreshold similarity
  | None => false
  end.

(** The store holds a scout, an execution, with this id. *)
Definition hasScout (scoutId : string) (st : St) : Prop :=
  exists row, In row (scouts st) /\ Scout.id row = scoutId.

Definition hasExecution (executionId : string) (st : St) : Prop :=
  exists e, In e (scout_executions st) /\ Execution.id e = executionId.

(** The loop is under way: the execution is stored, no final message has
    come, and [count] iterations have been started. *)
Definition looping (executionId : string) (count : nat) (st : St) : Prop :=
  hasExecution executionId st /\ continueLoop st = true /\ loopCount st = count.

(** The loop has made all its iterations. *)
Definition loopsUsedUp (executionId : string) (st : St) : Prop :=
  hasExecution executionId st /\ loopCount st = maxLoops.

(** No e-mail has been handed over beyond [sent], and no final response
    exists yet. *)
Definition quiet (sent : list Email) (st : St) : Prop :=
  outbox st = sent /\ scoutResponse st = None.

Definition quietLoop (sent : list Email) (st : St) : Prop :=
  quiet sent st /\ continueLoop st = true.

(** The e-mail of a run with this final response and duplicate mark. *)
Definition mailFor (scout : Scout.t) (deliveredFlag : bool)
    (final : option ScoutResponse) (duplicate : bool) : list Email :=
  match final with
  | Some r =>
      if taskCompleted r && negb duplicate
      then [{| email_scout := scout; email_response := r; delivered := deliveredFlag |}]
      else []
  | None => []
  end.

Definition mailed (scout : Scout.t) (deliveredFlag : bool) (sent : list Email) (st : St)
    : Prop :=
  outbox st = (sent ++ mailFor scout deliveredFlag (scoutResponse st) (isDuplicate st))%list.

(** The limits the data model puts on a summary and its embedding. *)
Definition textWithinLimit (txt : option string) : Prop :=
  match txt with
  | Some s => String.length s <= 150
  | None => True
  end.

Definition embeddingWithinLimit (embedding : option (list float)) : Prop :=
  match embedding with
  | Some v => List.length v = 1536
  | None => True
  end.

(** Every stored execution has a summary within the limit, and so has
    the summary the run holds. *)
Definition textsWithinLimit (st : St) : Prop :=
  (forall e, In e (scout_executions st) -> textWithinLimit (Execution.summary_text e))
  /\ textWithinLimit (summaryText st).

(** Every stored execution has an embedding that fits the column. *)
Definition embeddingsFit (st : St) : Prop :=
  forall e, In e (scout_executions st) ->
    embeddingWithinLimit (Execution.summary_embedding e).

(** [fuel] more iterations bring [loopCount] to [maxLoops]. *)
Definition enoughFuel (fuel : nat) (st : St) : Prop :=
  maxLoops <= loopCount st + fuel.




Definition alwaysTrue : JsError -> St -> Prop := fun _ _ => True.

Section WorldVocabulary.
Context {net : Oracle}.

(** Every chat completion of the run that carries a message carries tool
    calls. *)
Definition neverFinal : Prop :=
  forall count response message,
    1 <= count <= maxLoops ->
    outcome (chat_reply count) = Responded response ->
    body response = Ok message ->
    tool_calls message <> [].

(** Whether [sendScoutSuccessEmail] returns. *)
Definition emailGoesOut : bool :=
  match email_reply with
  | None => true
  | Some _ => false
  end.

(** The provider respects the limit the prompt asks for: a summary
    completion that yields a text yields one of at most 150 characters
    once trimmed. *)
Definition summaryKeepsLimit : Prop :=
  forall response summary,
    outcome summary_reply = Responded response ->
    body response = Ok summary ->
    String.length (JsString.trim summary) <= 150.

(** An embedding reply that yields a vector yields one that fits the
    column of the store. *)
Definition embeddingFits : Prop :=
  forall response embedding,
    outcome embedding_reply = Responded response ->
    body response = Ok (Some embedding) ->
    List.length embedding = 1536.

(** The provider gave [message] as a chat completion, in time and with a
    status that is ok, and the message calls no tool. *)
Definition finalMessage (message : AssistantMessage) : Prop :=
  exists count response,
    outcome (chat_reply count) = Responded response
    /\ (elapsed (chat_reply count) < 60000)%Z
    /\ ok response = true
    /\ body response = Ok message
    /\ tool_calls message = [].

End WorldVocabulary.

Section AnswerVocabulary.
Context {host : Host} {net : Oracle}.

(** The final response of the run comes from a final message of the
    provider: it is the value parsed from the content of that message,
    with the note of the duplicate check added to its [response] when
    the run is marked duplicate. *)
Definition answered (st : St) : Prop :=
  forall final,
    scoutResponse st = Some final ->
    exists message,
      finalMessage message
      /\ taskCompleted final = taskCompleted (parseScoutResponse (content message))
      /\ (isDuplicate st = false -> final = parseScoutResponse (content message)).

(** The e-mails are those sent before and the one of the final
    response, which comes from a final message. *)
Definition mailedAnswer (scout : Scout.t) (sent : list Email) (st : St) : Prop :=
  mailed scout emailGoesOut sent st /\ answered st.

Definition mailedAnswerLoop (scout : Scout.t) (sent : list Email) (st : St) : Prop :=
  mailedAnswer scout sent st
  /\ (continueLoop st = true -> scoutResponse st = None).

(** The e-mail of a run that ends with the value [parsed] and the
    duplicate mark of [st]. *)
Definition mailOf (scout : Scout.t) (parsed : ScoutResponse) (st : St) : list Email :=
  if taskCompleted parsed && negb (isDuplicate st)
  then [{| email_scout := scout; email_response := parsed; delivered := emailGoesOut |}]
  else [].

End AnswerVocabulary.

(** [rest] is what is left of [s] when some of its characters are
    deleted. *)
Inductive Remains : string -> string -> Prop :=
| Remains_nil : Remains EmptyString EmptyString
| Remains_keep (c : ascii) (rest s : string) :
    Remains rest s -> Remains (String c rest) (String c s)
| Remains_drop (c : ascii) (rest s : string) :
    Remains rest s -> Remains rest (String c s).

(** White space only; white space at the start; white space at the
    end. *)
Fixpoint allSpace (s : string) : bool :=
  match s with
  | EmptyString => true
  | String c rest => JsString.isSpace c && allSpace rest
  end.

Definition startsWithSpace (s : string) : bool :=
  match s with
  | EmptyString => false
  | String c _ => JsString.isSpace c
  end.

Fixpoint endsWithSpace (s : string) : bool :=
  match s with
  | EmptyString => false
  | String c EmptyString => JsString.isSpace c
  | String _ rest => endsWithSpace rest
  end.

(** What is written once the loop has used up its iterations. *)
Definition limitRecorded (scout : Scout.t) (executionId : string) (st : St) : Prop :=
  loopCount st = maxLoops
  /\ hasExecution executionId st
  /\ (forall e, In e (scout_executions st) -> Execution.id e = executionId ->
        Execution.status e = Status.completed
        /\ Execution.results_summary e = Some incompleteSummary)
  /\ (forall row, In row (scouts st) -> Scout.id row = Scout.id scout ->
        Scout.consecutive_failures row = 0).


(* ===================================================================== *)
(** * Vocabulary of the statements about a whole run *)
(* ===================================================================== *)

(** An execution that is recorded as over. *)
Definition isOver (e : Execution.t) : Prop :=
  Execution.status e <> Status.running /\ Execution.completed_at e <> None.

(** The executions with this id are written as [completed]. *)
Definition settled (executionId : string) (st : St) : Prop :=
  forall e, In e (scout_executions st) -> Execution.id e = executionId ->
    Execution.status e = Status.completed /\ Execution.completed_at e <> None.

(** Once the final message has come, the execution is written. *)
Definition settledWhenDone (executionId : string) (st : St) : Prop :=
  continueLoop st = false -> settled executionId st.

(** No execution of the scout is under way, but perhaps this one. *)
Definition onlyRunning (scoutId executionId : string) (st : St) : Prop :=
  forall e, In e (scout_executions st) -> Execution.scout_id e = scoutId ->
    Execution.status e = Status.running -> Execution.id e = executionId.

(** No execution of the scout is under way. *)
Definition noneRunning (scoutId : string) (st : St) : Prop :=
  forall e, In e (scout_executions st) -> Execution.scout_id e = scoutId ->
    Execution.status e <> Status.running.

(** The row of the run's own execution follows the rows [old] that were
    stored before, which are as they were. *)
Definition ownRowAdded (old : list Execution.t) (executionId scoutId : string)
    (insertedAt : Z) (st : St) : Prop :=
  exists own,
    scout_executions st = (old ++ [own])%list
    /\ Execution.id own = executionId
    /\ Execution.scout_id own = scoutId
    /\ Execution.created_at own = insertedAt.

(** What a scout is configured to do, and whose it is. *)
Definition sameConfiguration (before after : Scout.t) : Prop :=
  Scout.id after = Scout.id before
  /\ Scout.user_id after = Scout.user_id before
  /\ Scout.title after = Scout.title before
  /\ Scout.description after = Scout.description before
  /\ Scout.goal after = Scout.goal before
  /\ Scout.search_queries after = Scout.search_queries before
  /\ Scout.location after = Scout.location before
  /\ Scout.frequency after = Scout.frequency before
  /\ Scout.scrape_options after = Scout.scrape_options before.

(** What a run of [scout] may do to a stored scout: keep its
    configuration; pause it but not activate it; write [last_run_at] and
    [consecutive_failures] of the scout that runs only; and leave a scout
    of another user, which is not the one that runs, as it is. *)
Definition bookkeepingOnly (scout : Scout.t) (before after : Scout.t) : Prop :=
  sameConfiguration before after
  /\ (Scout.is_active after = true -> Scout.is_active before = true)
  /\ (Scout.id before <> Scout.id scout ->
        Scout.last_run_at after = Scout.last_run_at before
        /\ Scout.consecutive_failures after = Scout.consecutive_failures before)
  /\ (Scout.id before <> Scout.id scout ->
      Scout.user_id before <> Scout.user_id scout ->
      after = before).

Definition scoutsKept (scout : Scout.t) (before : list Scout.t) (st : St) : Prop :=
  Forall2 (bookkeepingOnly scout) before (scouts st).

(** The usage row of a run. *)
Definition usageOf (scout : Scout.t) (runId : string) (calls : nat)
    (entry : UsageLog) : Prop :=
  userId entry = Scout.user_id scout
  /\ scoutId entry = Scout.id scout
  /\ executionId entry = runId
  /\ apiCallsCount entry = calls.

(** The tables, the e-mails handed over and the clock are the same in both
    states. *)
Definition sameStore (a b : St) : Prop :=
  scouts b = scouts a
  /\ scout_executions b = scout_executions a
  /\ scout_execution_steps b = scout_execution_steps a
  /\ user_preferences b = user_preferences a
  /\ firecrawl_usage_logs b = firecrawl_usage_logs a
  /\ outbox b = outbox a
  /\ clock b = clock a.

(** The message of the error [getOpenAIConfig] throws. *)
Definition providerMessage : string :=
  "OpenAI API key not configured. Set either OPENAI_API_KEY for OpenAI or AZURE_OPENAI_API_KEY and AZURE_OPENAI_ENDPOINT for Azure OpenAI.".

Section RunVocabulary.
Context {host : Host} {net : Oracle}.

(** The [try] block of the run that starts in [st], once the locals are
    fresh and the execution is inserted. *)
Definition tryBlock (scout : Scout.t) (runId : string) (st : St) : Res unit * St :=
  runBody scout runId (snd (insertExecution (Scout.id scout) (snd (freshLocals st)))).

(** One usage row when the run called Firecrawl, none when it did not. *)
Definition usageLogged (scout : Scout.t) (runId : string) (logged : list UsageLog)
    (st : St) : Prop :=
  if (0 <? firecrawlApiCallsCount st)%nat
  then exists entry,
         firecrawl_usage_logs st = (logged ++ [entry])%list
         /\ usageOf scout runId (firecrawlApiCallsCount st) entry
  else firecrawl_usage_logs st = logged.

(** Azure OpenAI or OpenAI is configured. *)
Definition providerConfigured : bool :=
  (truthyStr (env "AZURE_OPENAI_API_KEY") && truthyStr (env "AZURE_OPENAI_ENDPOINT"))
  || truthyStr (env "OPENAI_API_KEY").

(** The user has a Firecrawl key the run can use. *)
Definition hasKey (userId : string) (st : St) : bool :=
  match fst (getFirecrawlKeyForUser userId st) with
  | Ok keyResult => truthyStr (apiKey keyResult)
  | Throw _ => false
  end.

End RunVocabulary.

(** The same services, but the chat completions are answered by [g]. *)
Definition withChat (net : Oracle) (g : nat -> Reply AssistantMessage) : Oracle :=
  {| env := @env net;
     insert_reply := @insert_reply net;
     chat_reply := g;
     tool_reply := @tool_reply net;
     summary_reply := @summary_reply net;
     embedding_reply := @embedding_reply net;
     email_reply := @email_reply net |}.

(** What a successful search returns, whatever the provider sent. *)
Definition searchOutputSound {host : Host} (a : ToolArgs) (maxAge : option Z)
    (out : SearchOutput) : Prop :=
  so_query out = query a
  /\ so_count out = List.length (so_results out)
  /\ so_searchResults out = so_results out
  /\ Forall (fun item => isBlacklistedDomain (item_url item) = false) (so_results out)
  /\ so_maxAge out <> 0%Z
  /\ (forall n, maxAge = Some n -> n <> 0%Z -> so_maxAge out = n).

(** The size of the content a scrape returns. *)
Definition contentSize (c : ScrapeContent) : nat :=
  match c with
  | ContentText s => String.length s
  | ContentItems items => List.length items
  end.

(** The milliseconds a request takes.  The abort after 60 seconds ends the
    wait for the response; the body of a response that came in time takes
    its own time on top, with no limit. *)
Definition requestTime {B : Type} (reply : Reply B) : Z :=
  if (60000 <=? elapsed reply)%Z
  then 60000%Z
  else match outcome reply with
       | Responded resp => (elapsed reply + reading resp)%Z
       | Rejected _ => elapsed reply
       end.

(** A finding of the scout: a completed execution with a summary and an
    embedding of 1536 dimensions. *)
Definition isFinding (scoutId : string) (e : Execution.t) : Prop :=
  Execution.scout_id e = scoutId
  /\ Execution.status e = Status.completed
  /\ Execution.summary_text e <> None
  /\ exists v, Execution.summary_embedding e = Some v /\ List.length v = 1536.

(** The mark [isDuplicate] is backed by one of the executions of [pool]. *)
Definition duplicateJustified (pool : list Execution.t) (st : St) : Prop :=
  isDuplicate st = true ->
  exists currentEmbedding prev,
    summaryEmbedding st = Some currentEmbedding
    /\ In prev pool
    /\ reachesThreshold currentEmbedding prev = true.

(** ... and while the loop goes on, nothing is marked yet. *)
Definition duplicateJustifiedLoop (pool : list Execution.t) (st : St) : Prop :=
  duplicateJustified pool st /\ (continueLoop st = true -> isDuplicate st = false).

(** The string ends with a slash. *)
Fixpoint endsWithSlash (s : string) : bool :=
  match s with
  | EmptyString => false
  | String c EmptyString => Ascii.eqb c "/"%char
  | String _ rest => endsWithSlash rest
  end.

(** The variable of the secret is set, and not to the empty string. *)
Definition isSet (processEnv : string -> option string) (secret : Setup.Secret) : bool :=
  truthyStr (processEnv (Setup.secret_env secret)).

(** What [update_scout_config] may do to a stored scout: write the fields
    it is given, of the scout of the conversation, and nothing else. *)
Definition configuredOnly (conversation : string) (params : Chat.Params)
    (before after : Scout.t) : Prop :=
  Scout.id after = Scout.id before
  /\ Scout.user_id after = Scout.user_id before
  /\ Scout.is_active after = Scout.is_active before
  /\ Scout.last_run_at after = Scout.last_run_at before
  /\ Scout.consecutive_failures after = Scout.consecutive_failures before
  /\ Scout.scrape_options after = Scout.scrape_options before
  /\ (Scout.id before <> conversation -> after = before)
  /\ (Chat.new_title params = None -> Scout.title after = Scout.title before)
  /\ (Chat.new_goal params = None -> Scout.goal after = Scout.goal before)
  /\ (Chat.new_description params = None ->
      Scout.description after = Scout.description before)
  /\ (Chat.new_location params = None -> Scout.location after = Scout.location before)
  /\ (Chat.new_search_queries params = None ->
      Scout.search_queries after = Scout.search_queries before)
  /\ (Chat.new_frequency params = None -> Scout.frequency after = Scout.frequency before).

(** The store after the tool calls of one answer: [execute] is called
    once for each, with the input the model chose and the error the store
    reports for its update. *)
Definition afterToolCalls (conversation : string)
    (calls : list (option string * Chat.Params)) (store : Chat.Store) : Chat.Store :=
  fold_left (fun store call => snd (Chat.execute conversation (fst call) (snd call) store))
            calls store.

(** A stored scout is the one of the conversation, or as it was; and it
    is whose it was, and as active as it was, in either case. *)
Definition sameButConfigured (conversation : string) (before after : Scout.t) : Prop :=
  Scout.id after = Scout.id before
  /\ Scout.user_id after = Scout.user_id before
  /\ Scout.is_active after = Scout.is_active before
  /\ (Scout.id before <> conversation -> after = before).
(* ===================================================================== *)
(** * Reasoning about computations in [M] *)
(* ===================================================================== *)

Section Triples.
Context {A B : Type}.
Implicit Types (P : St -> Prop) (E : JsError -> St -> Prop).

Lemma triple_ret P (a : A) (Q : A -> St -> Prop) E :
  (forall st, P st -> Q a st) -> triple P (ret a) Q E.
Proof. intros H st HP. cbn. auto. Qed.

Lemma triple_throw P (e : JsError) (Q : A -> St -> Prop) E :
  (forall st, P st -> E e st) -> triple P (throw e) Q E.
Proof. intros H st HP. cbn. auto. Qed.

Lemma triple_bind P (m : M A) (k : A -> M B) (R : A -> St -> Prop)
    (Q : B -> St -> Prop) E :
  triple P m R E ->
  (forall a, triple (R a) (k a) Q E) ->
  triple P (bind m k) Q E.
Proof.
  intros Hm Hk st HP. unfold bind. specialize (Hm st HP).
  destruct (m st) as [[a | e] st']; [ exact (Hk a st' Hm) | exact Hm ].
Qed.

Lemma triple_try_catch P (m : M A) (handler : JsError -> M A)
    (Q : A -> St -> Prop) (R : JsError -> St -> Prop) E :
  triple P m Q R ->
  (forall e, triple (R e) (handler e) Q E) ->
  triple P (try_catch m handler) Q E.
Proof.
  intros Hm Hh st HP. unfold try_catch. specialize (Hm st HP).
  destruct (m st) as [[a | e] st']; [ exact Hm | exact (Hh e st' Hm) ].
Qed.

Lemma triple_gets P (f : St -> A) (Q : A -> St -> Prop) E :
  (forall st, P st -> Q (f st) st) -> triple P (gets f) Q E.
Proof. intros H st HP. cbn. auto. Qed.

Lemma triple_lift P (r : Res A) (Q : A -> St -> Prop) E :
  (forall st, P st -> match r with Ok a => Q a st | Throw e => E e st end) ->
  triple P (lift r) Q E.
Proof. intros H st HP. unfold lift. specialize (H st HP). destruct r; exact H. Qed.

Lemma triple_weaken (P P' : St -> Prop) (m : M A) (Q Q' : A -> St -> Prop)
    (E E' : JsError -> St -> Prop) :
  triple P m Q E ->
  (forall st, P' st -> P st) ->
  (forall a st, Q a st -> Q' a st) ->
  (forall e st, E e st -> E' e st) ->
  triple P' m Q' E'.
Proof.
  intros Hm HP HQ HE st HP'. specialize (Hm st (HP st HP')).
  destruct (m st) as [[a | e] st']; auto.
Qed.

(** A step that keeps [P], then the rest. *)
Lemma triple_bind_keeps P (m : M A) (k : A -> M B) (Q : B -> St -> Prop) E :
  keeps P E m ->
  (forall a, triple P (k a) Q E) ->
  triple P (bind m k) Q E.
Proof. intros Hm Hk. exact (triple_bind P m k _ Q E Hm Hk). Qed.

Lemma triple_bind_lift_ok P (a : A) (k : A -> M B) (Q : B -> St -> Prop) E :
  triple P (k a) Q E -> triple P (bind (lift (Ok a)) k) Q E.
Proof. intros Hk st HP. exact (Hk st HP). Qed.

Lemma triple_bind_lift_throw P (e : JsError) (k : A -> M B) (Q : B -> St -> Prop) E :
  (forall st, P st -> E e st) -> triple P (bind (lift (Throw e)) k) Q E.
Proof. intros He st HP. exact (He st HP). Qed.

(** A fact that does not depend on the state can be taken out of the
    precondition. *)
Lemma triple_pure P (fact : Prop) (m : M A) (Q : A -> St -> Prop) E :
  (fact -> triple P m Q E) ->
  triple (fun st => P st /\ fact) m Q E.
Proof. intros Hm st [HP Hfact]. exact (Hm Hfact st HP). Qed.

Lemma triple_result P (m : M A) (Q : A -> St -> Prop) E (st : St) :
  triple P m Q E -> P st ->
  match fst (m st) with
  | Ok a => Q a (snd (m st))
  | Throw e => E e (snd (m st))
  end.
Proof.
  intros Hm HP. specialize (Hm st HP). destruct (m st) as [[a | e] st']; exact Hm.
Qed.

End Triples.

Lemma triple_modify (P : St -> Prop) (f : St -> St) (Q : unit -> St -> Prop)
    (E : JsError -> St -> Prop) :
  (forall st, P st -> Q tt (f st)) -> triple P (modify f) Q E.
Proof. intros H st HP. cbn. auto. Qed.

Lemma triple_when (P : St -> Prop) (b : bool) (m : M unit) (Q : unit -> St -> Prop)
    (E : JsError -> St -> Prop) :
  (b = true -> triple P m Q E) ->
  (b = false -> forall st, P st -> Q tt st) ->
  triple P (when b m) Q E.
Proof.
  intros Hm Hskip. destruct b; cbn.
  - auto.
  - apply triple_ret. auto.
Qed.

(** What [fetch] returns is the response of the reply, which came within the
    60 seconds. *)
Lemma triple_fetch {B : Type} (J : St -> Prop) (E : JsError -> St -> Prop) (r : Reply B) :
  (forall c st, J st -> J (set_clock c st)) ->
  (forall e st, J st -> E e st) ->
  triple J (fetch r)
    (fun resp st => J st /\ outcome r = Responded resp /\ (elapsed r < 60000)%Z)
    E.
Proof.
  intros Hclock Hthrow st HJ. unfold fetch.
  destruct (60000 <=? elapsed r)%Z eqn:Hslow; cbn.
  - apply Hthrow, Hclock, HJ.
  - apply Z.leb_gt in Hslow.
    destruct (outcome r); cbn; auto using Hclock.
Qed.

(** What [response.json()] and [response.text()] yield is what the
    response holds; reading it takes time. *)
Lemma triple_readJson {B : Type} (J : St -> Prop) (E : JsError -> St -> Prop)
    (resp : Response B) :
  (forall c st, J st -> J (set_clock c st)) ->
  (forall e st, J st -> E e st) ->
  triple J (readJson resp) (fun b st => J st /\ body resp = Ok b) E.
Proof.
  intros Hclock Hthrow st HJ. unfold readJson, bind, tick, modify, lift.
  destruct (body resp); cbn; auto using Hclock.
Qed.

Lemma triple_readText {B : Type} (J : St -> Prop) (E : JsError -> St -> Prop)
    (resp : Response B) :
  (forall c st, J st -> J (set_clock c st)) ->
  (forall e st, J st -> E e st) ->
  triple J (readText resp) (fun errorText st => J st /\ text resp = Ok errorText) E.
Proof.
  intros Hclock Hthrow st HJ. unfold readText, bind, tick, modify, lift.
  destruct (text resp); cbn; auto using Hclock.
Qed.

(** A reply that comes in time with a response, whose body can be read. *)
Lemma triple_fetch_responded {B : Type} (J : St -> Prop) (E : JsError -> St -> Prop)
    (r : Reply B) (resp : Response B) :
  outcome r = Responded resp ->
  (elapsed r < 60000)%Z ->
  (forall c st, J st -> J (set_clock c st)) ->
  triple J (fetch r) (fun got st => J st /\ got = resp) E.
Proof.
  intros Hreply Hintime Hclock st HJ. unfold fetch.
  apply Z.leb_gt in Hintime. rewrite Hintime, Hreply. cbn. auto using Hclock.
Qed.

Lemma triple_readJson_value {B : Type} (J : St -> Prop) (E : JsError -> St -> Prop)
    (resp : Response B) (b : B) :
  body resp = Ok b ->
  (forall c st, J st -> J (set_clock c st)) ->
  triple J (readJson resp) (fun got st => J st /\ got = b) E.
Proof.
  intros Hbody Hclock st HJ. unfold readJson, bind, tick, modify, lift.
  rewrite Hbody. cbn. auto using Hclock.
Qed.

(** ** Keeping an invariant *)

Section Keeps.
Context {A B : Type}.
Variable J : St -> Prop.
Variable E : JsError -> St -> Prop.

Lemma keeps_bind (m : M A) (k : A -> M B) :
  keeps J E m -> (forall a, keeps J E (k a)) -> keeps J E (bind m k).
Proof. intros Hm Hk. exact (triple_bind J m k _ _ _ Hm Hk). Qed.

(** The handlers of the code's inner [try] blocks run in whatever state
    the block threw: the block itself has to keep the invariant. *)
Lemma keeps_try_catch (m : M A) (h : JsError -> M A) :
  preserves J m -> (forall e, keeps J E (h e)) -> keeps J E (try_catch m h).
Proof. intros Hm Hh. exact (triple_try_catch J m h _ _ _ Hm Hh). Qed.

Lemma keeps_ret (a : A) : keeps J E (ret a).
Proof. apply triple_ret. auto. Qed.

Lemma keeps_throw (e : JsError) :
  (forall st, J st -> E e st) -> keeps J E (throw (A := A) e).
Proof. intros H. apply triple_throw. exact H. Qed.

Lemma keeps_gets (f : St -> A) : keeps J E (gets f).
Proof. apply triple_gets. auto. Qed.

Lemma keeps_lift (r : Res A) :
  (forall e st, J st -> E e st) -> keeps J E (lift r).
Proof. intros H. apply triple_lift. intros st HJ. destruct r; auto. Qed.

End Keeps.

Lemma keeps_modify (J : St -> Prop) (E : JsError -> St -> Prop) (f : St -> St) :
  (forall st, J st -> J (f st)) -> keeps J E (modify f).
Proof. intros H. exact (triple_modify J f _ _ H). Qed.

Lemma keeps_when (J : St -> Prop) (E : JsError -> St -> Prop) (b : bool) (m : M unit) :
  keeps J E m -> keeps J E (when b m).
Proof. intros Hm. destruct b; [ exact Hm | apply keeps_ret ]. Qed.

Lemma preserves_result {A : Type} (J : St -> Prop) (m : M A) (st : St) :
  preserves J m -> J st -> J (snd (m st)).
Proof.
  intros Hm HJ. specialize (Hm st HJ). destruct (m st) as [[a | e] st']; exact Hm.
Qed.

Section LoopsKeep.
Context {host : Host} {net : Oracle}.
Variable J : St -> Prop.
Variable E : JsError -> St -> Prop.

Lemma keeps_processToolCalls scout executionId key maxAgeMs calls :
  (forall toolCall, keeps J E (processToolCall scout executionId key maxAgeMs toolCall)) ->
  keeps J E (processToolCalls scout executionId key maxAgeMs calls).
Proof.
  intros Hcall. induction calls as [| toolCall rest IH]; cbn [processToolCalls].
  - apply keeps_ret.
  - apply keeps_bind; [ apply Hcall | intros _; exact IH ].
Qed.

(** An iteration runs only while [continueLoop] holds. *)
Lemma keeps_agentLoop_while fuel scout executionId key maxAgeMs similar :
  triple (fun st => J st /\ continueLoop st = true)
         (agentIteration scout executionId key maxAgeMs similar)
         (fun _ => J) E ->
  keeps J E (agentLoop fuel scout executionId key maxAgeMs similar).
Proof.
  intros Hiter. induction fuel as [| fuel IH]; cbn [agentLoop].
  - apply keeps_ret.
  - intros st HJ. unfold bind at 1 2, gets.
    destruct (continueLoop st) eqn:Hcontinue; cbn [andb]; [ | exact HJ ].
    destruct (loopCount st <? maxLoops)%nat; [ | exact HJ ].
    refine (triple_bind _ _ _ _ _ _ Hiter (fun _ => IH) st (conj HJ Hcontinue)).
Qed.

Lemma keeps_agentLoop fuel scout executionId key maxAgeMs similar :
  keeps J E (agentIteration scout executionId key maxAgeMs similar) ->
  keeps J E (agentLoop fuel scout executionId key maxAgeMs similar).
Proof.
  intros Hiter. apply keeps_agentLoop_while.
  eapply triple_weaken; [ exact Hiter | | | ]; cbn; intuition.
Qed.

End LoopsKeep.

(** ** Stepping through a computation

    [keep leaf known] takes a goal [keeps J E m] apart along the structure
    of [m], through the loops and into the functions of the agent.  The
    state changes go to [leaf]; [known] may settle a function as a whole. *)
Ltac head_of t :=
  lazymatch t with
  | ?f _ => head_of f
  | _ => t
  end.

Ltac keep_throws :=
  first [ solve [ intros; assumption ] | solve [ cbn beta; eauto ] ].

Ltac keep_step leaf known :=
  lazymatch goal with
  | |- preserves _ _ => unfold preserves
  | |- keeps _ _ (bind _ _) => apply keeps_bind; [ | intro ]
  | |- keeps _ _ (try_catch _ _) => apply keeps_try_catch; [ | intro ]
  | |- keeps _ _ (ret _) => apply keeps_ret
  | |- keeps _ _ (throw _) => apply keeps_throw; keep_throws
  | |- keeps _ _ (gets _) => apply keeps_gets
  | |- keeps _ _ now => apply keeps_gets
  | |- keeps _ _ (lift _) => apply keeps_lift; keep_throws
  | |- keeps _ _ (when _ _) => apply keeps_when
  | |- keeps _ _ (modify _) => apply keeps_modify; intros ? ?; leaf
  | |- keeps _ _ (tick _) => apply keeps_modify; intros ? ?; leaf
  | |- keeps _ _ (if ?b then _ else _) => destruct b
  | |- keeps _ _ (match ?x with _ => _ end) => destruct x
  | |- keeps _ _ (processToolCalls _ _ _ _ _) => apply keeps_processToolCalls; intro
  | |- keeps _ _ (agentLoop _ _ _ _ _ _) => first [ known | apply keeps_agentLoop ]
  | |- keeps _ _ ?m => first [ known | let h := head_of m in unfold h ]
  end.

Ltac keep leaf known := repeat (keep_step leaf known).

(** [walk leaf known stop]: down the spine of a computation, past the steps
    that keep the precondition, to the first that does not or that [stop]
    refuses. *)
Ltac walk_step leaf known stop :=
  lazymatch goal with
  | |- triple _ (bind ?m _) _ _ =>
      stop m; apply triple_bind_keeps; [ solve [ keep leaf known ] | intro ]
  | |- triple _ (if ?b then _ else _) _ _ => destruct b
  | |- triple _ (match ?x with _ => _ end) _ _ => destruct x
  | |- triple _ (throw _) _ _ => apply triple_throw; keep_throws
  end.

Ltac walk leaf known stop := repeat (walk_step leaf known stop).

(** A triple that returns in its precondition, read as [keeps]. *)
Ltac as_keeps :=
  lazymatch goal with
  | |- triple ?J ?m _ ?E => change (keeps J E m)
  end.

Ltac stop_at_loop m :=
  lazymatch m with
  | agentLoop _ _ _ _ _ _ => fail
  | _ => idtac
  end.

(* ===================================================================== *)
(** * Facts about strings *)
(* ===================================================================== *)

Lemma trimStart_length (s : string) :
  String.length (JsString.trimStart s) <= String.length s.
Proof.
  induction s as [| c rest IH]; cbn; [ lia | ].
  destruct (JsString.isSpace c); cbn; lia.
Qed.

Lemma trimEnd_length (s : string) :
  String.length (JsString.trimEnd s) <= String.length s.
Proof.
  induction s as [| c rest IH]; cbn; [ lia | ].
  destruct (JsString.trimEnd rest) as [| d rest'] eqn:Hrest.
  - destruct (JsString.isSpace c); cbn; lia.
  - cbn in *. lia.
Qed.

Lemma trim_length (s : string) :
  String.length (JsString.trim s) <= String.length s.
Proof.
  unfold JsString.trim.
  pose proof (trimEnd_length (JsString.trimStart s)).
  pose proof (trimStart_length s). lia.
Qed.

Lemma prefix_nil (s : string) : String.prefix EmptyString s = true.
Proof. destruct s; reflexivity. Qed.

Lemma prefix_cons (a b : ascii) (p s : string) :
  String.prefix (String a p) (String b s)
  = if ascii_dec a b then String.prefix p s else false.
Proof. cbn. destruct (ascii_dec a b); reflexivity. Qed.

Lemma prefix_shorter (a : ascii) (p s : string) :
  String.prefix (p ++ String a EmptyString) s = true -> String.prefix p s = true.
Proof.
  revert s. induction p as [| b p IH]; intros s; [ intros _; apply prefix_nil | ].
  destruct s as [| c s]; [ discriminate | ].
  cbn [append]. rewrite !prefix_cons. destruct (ascii_dec b c); [ apply IH | discriminate ].
Qed.

(** A prefix of the first characters of a string is a prefix of the
    string. *)
Lemma prefix_of_substring (p s : string) (n : nat) :
  String.prefix p (String.substring 0 n s) = true -> String.prefix p s = true.
Proof.
  revert s n. induction p as [| a p IH]; intros s n; [ intros _; apply prefix_nil | ].
  destruct s as [| b s]; [ destruct n; discriminate | ].
  destruct n as [| n]; [ discriminate | ].
  cbn [String.substring]. rewrite !prefix_cons.
  destruct (ascii_dec a b); [ apply IH | discriminate ].
Qed.

Lemma includes_cons (a : ascii) (s sub : string) :
  JsString.includes (String a s) sub
  = String.prefix sub (String a s) || JsString.includes s sub.
Proof. reflexivity. Qed.

(** Cutting a string short brings no new occurrence. *)
Lemma includes_substring (a : ascii) (p s : string) (n : nat) :
  JsString.includes s (String a p) = false ->
  JsString.includes (String.substring 0 n s) (String a p) = false.
Proof.
  revert n. induction s as [| b s IH]; intros n Hnone.
  - destruct n; reflexivity.
  - destruct n as [| n]; [ reflexivity | ].
    rewrite includes_cons in Hnone. apply orb_false_iff in Hnone.
    destruct Hnone as [Hhere Hlater].
    cbn [String.substring]. rewrite includes_cons. apply orb_false_iff. split.
    + destruct (String.prefix (String a p) (String b (String.substring 0 n s))) eqn:Hp;
        [ | reflexivity ].
      apply (prefix_of_substring (String a p) (String b s) (S n)) in Hp. congruence.
    + apply IH, Hlater.
Qed.

Lemma drop_length (k : nat) (s : string) :
  String.length (JsString.drop k s) <= String.length s.
Proof.
  revert s. induction k as [| k IH]; intros [| c s]; cbn; try lia.
  specialize (IH s). lia.
Qed.

(** ** Removing the fences

    The fence is three backticks.  After [replace(/```\s*/g, '')] no fence
    is left: a run of backticks loses its threes from the left, and what
    is left of it, one or two backticks, is followed by another
    character. *)

Lemma removeWithSpace_head (fuel : nat) (s : string) :
  String.prefix "`" (JsString.removeWithSpace fuel "```" s) = true ->
  String.prefix "`" s = true.
Proof.
  destruct fuel as [| fuel]; [ exact (fun H => H) | ].
  destruct s as [| a s]; [ exact (fun H => H) | ].
  cbn [JsString.removeWithSpace].
  destruct (String.prefix "```" (String a s)) eqn:Hfence.
  - intros _. apply (prefix_shorter "`"%char "`"), (prefix_shorter "`"%char "``"), Hfence.
  - rewrite !prefix_cons. destruct (ascii_dec "`"%char a); [ | discriminate ].
    intros _. apply prefix_nil.
Qed.

Lemma removeWithSpace_head2 (fuel : nat) (s : string) :
  String.prefix "``" (JsString.removeWithSpace fuel "```" s) = true ->
  String.prefix "``" s = true.
Proof.
  destruct fuel as [| fuel]; [ exact (fun H => H) | ].
  destruct s as [| a s]; [ exact (fun H => H) | ].
  cbn [JsString.removeWithSpace].
  destruct (String.prefix "```" (String a s)) eqn:Hfence.
  - intros _. apply (prefix_shorter "`"%char "``"), Hfence.
  - rewrite prefix_cons. destruct (ascii_dec "`"%char a) as [<- |]; [ | discriminate ].
    intros Hhead. apply removeWithSpace_head in Hhead.
    destruct s as [| b s]; [ discriminate | ].
    rewrite !prefix_cons in *. destruct (ascii_dec "`"%char "`"%char); [ | contradiction ].
    destruct (ascii_dec "`"%char b); [ apply prefix_nil | discriminate ].
Qed.

Lemma removeWithSpace_no_fence (fuel : nat) (s : string) :
  String.length s <= fuel ->
  JsString.includes (JsString.removeWithSpace fuel "```" s) "```" = false.
Proof.
  revert s. induction fuel as [| fuel IH]; intros s Hfuel.
  - destruct s; [ reflexivity | cbn in Hfuel; lia ].
  - destruct s as [| a s]; [ reflexivity | ].
    cbn [JsString.removeWithSpace].
    destruct (String.prefix "```" (String a s)) eqn:Hfence.
    + apply IH.
      pose proof (trimStart_length (JsString.drop (String.length "```") (String a s))).
      pose proof (drop_length 2 s).
      cbn [String.length JsString.drop] in *. lia.
    + rewrite includes_cons. apply orb_false_iff. split.
      * destruct (String.prefix "```" (String a (JsString.removeWithSpace fuel "```" s)))
          eqn:Hnew; [ | reflexivity ].
        rewrite prefix_cons in Hnew, Hfence.
        destruct (ascii_dec "`"%char a); [ | discriminate ].
        apply removeWithSpace_head2 in Hnew. congruence.
      * apply IH. cbn in Hfuel. lia.
Qed.

Lemma replaceAllWithSpace_no_fence (s : string) :
  JsString.includes (JsString.replaceAllWithSpace "```" s) "```" = false.
Proof. apply removeWithSpace_no_fence. lia. Qed.

Lemma lastIndexOf_cut (c : ascii) (s : string) (k : nat) :
  JsString.lastIndexOf c s = Some k ->
  String.length (String.substring 0 (k + 1) s) = k + 1
  /\ JsString.lastIndexOf c (String.substring 0 (k + 1) s) = Some k.
Proof.
  revert k. induction s as [| d s IH]; intros k; [ discriminate | ].
  cbn [JsString.lastIndexOf].
  destruct (JsString.lastIndexOf c s) as [i |] eqn:Hlater.
  - intros [= <-]. destruct (IH i eq_refl) as [Hlength Hlast].
    cbn [Nat.add String.substring String.length JsString.lastIndexOf].
    rewrite Hlength, Hlast. split; reflexivity.
  - destruct (Ascii.eqb d c) eqn:Hhere; [ | discriminate ].
    intros [= <-]. cbn [Nat.add String.substring String.length JsString.lastIndexOf].
    destruct s; cbn; rewrite Hhere; split; reflexivity.
Qed.

(** ** The cleaning only deletes characters *)

Lemma Remains_refl (s : string) : Remains s s.
Proof. induction s; constructor; assumption. Qed.

Lemma Remains_empty (s : string) : Remains EmptyString s.
Proof. induction s; constructor; assumption. Qed.

Lemma Remains_trans (a b c : string) : Remains a b -> Remains b c -> Remains a c.
Proof.
  intros Hab Hbc. revert a Hab.
  induction Hbc as [| x b c _ IH | x b c _ IH]; intros a Hab.
  - exact Hab.
  - inversion Hab as [| y a' b' Hrest | y a' b' Hrest]; subst.
    + apply Remains_keep, IH, Hrest.
    + apply Remains_drop, IH, Hrest.
  - apply Remains_drop, IH, Hab.
Qed.

Lemma Remains_trimStart (s : string) : Remains (JsString.trimStart s) s.
Proof.
  induction s as [| c rest IH]; cbn; [ constructor | ].
  destruct (JsString.isSpace c); [ apply Remains_drop, IH | apply Remains_refl ].
Qed.

Lemma Remains_trimEnd (s : string) : Remains (JsString.trimEnd s) s.
Proof.
  induction s as [| c rest IH]; cbn; [ constructor | ].
  destruct (JsString.trimEnd rest) as [| d rest'].
  - destruct (JsString.isSpace c); [ apply Remains_drop, IH | apply Remains_keep, IH ].
  - apply Remains_keep, IH.
Qed.

Lemma Remains_trim (s : string) : Remains (JsString.trim s) s.
Proof.
  unfold JsString.trim.
  exact (Remains_trans _ _ _ (Remains_trimEnd _) (Remains_trimStart s)).
Qed.

(** [trim] takes the white space off both ends, and nothing else. *)
Lemma trimStart_spec (s : string) :
  exists before,
    s = before ++ JsString.trimStart s
    /\ allSpace before = true
    /\ startsWithSpace (JsString.trimStart s) = false.
Proof.
  induction s as [| c rest IH]; cbn [JsString.trimStart].
  - exists EmptyString. auto.
  - destruct (JsString.isSpace c) eqn:Hspace.
    + destruct IH as (before & Hrest & Hbefore & Hstart).
      exists (String c before). cbn. rewrite Hspace, Hbefore, <- Hrest. auto.
    + exists EmptyString. cbn. auto.
Qed.

Lemma trimEnd_spec (s : string) :
  exists after,
    s = JsString.trimEnd s ++ after
    /\ allSpace after = true
    /\ endsWithSpace (JsString.trimEnd s) = false.
Proof.
  induction s as [| c rest IH]; cbn [JsString.trimEnd].
  - exists EmptyString. auto.
  - destruct IH as (after & Hrest & Hafter & Hend).
    destruct (JsString.trimEnd rest) as [| d kept] eqn:Hkept.
    + cbn in Hrest. subst after.
      destruct (JsString.isSpace c) eqn:Hspace.
      * exists (String c rest). cbn. rewrite Hspace, Hafter. auto.
      * exists rest. cbn. auto.
    + exists after. split; [ cbn; rewrite Hrest at 1; reflexivity | ].
      split; [ exact Hafter | exact Hend ].
Qed.

Lemma trimEnd_start (s : string) :
  startsWithSpace s = false -> startsWithSpace (JsString.trimEnd s) = false.
Proof.
  destruct s as [| c rest]; [ auto | ]. cbn [JsString.trimEnd startsWithSpace].
  intros Hspace. destruct (JsString.trimEnd rest); [ rewrite Hspace | ]; auto.
Qed.

Lemma trim_spec (s : string) :
  (exists before after,
     s = before ++ JsString.trim s ++ after
     /\ allSpace before = true /\ allSpace after = true)
  /\ startsWithSpace (JsString.trim s) = false
  /\ endsWithSpace (JsString.trim s) = false.
Proof.
  unfold JsString.trim.
  destruct (trimStart_spec s) as (before & Hs & Hbefore & Hstart).
  destruct (trimEnd_spec (JsString.trimStart s)) as (after & Hkept & Hafter & Hend).
  split; [ | split; [ apply trimEnd_start, Hstart | exact Hend ] ].
  exists before, after. split; [ | auto ].
  rewrite <- Hkept. exact Hs.
Qed.

Lemma Remains_dropped (k : nat) (s : string) : Remains (JsString.drop k s) s.
Proof.
  revert s. induction k as [| k IH]; intros [| c s]; cbn;
    try apply Remains_refl.
  apply Remains_drop, IH.
Qed.

Lemma Remains_removeWithSpace (fuel : nat) (pat s : string) :
  Remains (JsString.removeWithSpace fuel pat s) s.
Proof.
  revert s. induction fuel as [| fuel IH]; intros s; cbn [JsString.removeWithSpace];
    [ apply Remains_refl | ].
  destruct s as [| c rest]; [ constructor | ].
  destruct (String.prefix pat (String c rest)).
  - eapply Remains_trans; [ apply IH | ].
    eapply Remains_trans; [ apply Remains_trimStart | apply Remains_dropped ].
  - apply Remains_keep, IH.
Qed.

Lemma Remains_substring (n : nat) (s : string) : Remains (String.substring 0 n s) s.
Proof.
  revert n. induction s as [| c s IH]; intros [| n]; cbn;
    try constructor; try apply Remains_empty.
  apply IH.
Qed.
(* ===================================================================== *)
(** * The final message (agent.ts, "Parse the final response") *)
(* ===================================================================== *)

Example extractJson_fenced :
  extractJson ("```json" ++ JsString.newline ++ Sample.foundJson ++ JsString.newline ++ "```")
  = Sample.foundJson.
Proof. reflexivity. Qed.

Example extractJson_trailing_text :
  extractJson ("  " ++ Sample.foundJson ++ " Hope this helps!") = Sample.foundJson.
Proof. reflexivity. Qed.

(** A no-break space before the object is white space to [trim]. *)
Example extractJson_no_break_space :
  extractJson (String (ascii_of_nat 160) Sample.foundJson) = Sample.foundJson.
Proof. reflexivity. Qed.

Example fenced_answer_is_parsed :
  @parseScoutResponse Sample.runtime
    (Some ("```json" ++ JsString.newline ++ Sample.foundJson ++ JsString.newline ++ "```"))
  = Sample.found.
Proof. reflexivity. Qed.

Example prose_answer_is_kept :
  @parseScoutResponse Sample.runtime (Some "I could not find anything.")
  = JObj [("taskCompleted", JBool false); ("taskStatus", JStr "insufficient_data");
          ("response", JStr "I could not find anything.")].
Proof. reflexivity. Qed.

(** A text that parses is used whatever it parses to, [null] included. *)
Example null_answer_is_null :
  @parseScoutResponse Sample.runtime (Some "null") = JNull.
Proof. reflexivity. Qed.

Ltac steps_leaf := cbn; assumption.

Section FinalMessage.
Context {host : Host} {net : Oracle}.

Lemma extractJson_remains (raw : string) : Remains (extractJson raw) raw.
Proof.
  unfold extractJson. cbv zeta.
  assert (Hclean : Remains
            (if JsString.includes (JsString.trim raw) "```json"
             then JsString.replaceAllWithSpace "```"
                    (JsString.replaceAllWithSpace "```json" (JsString.trim raw))
             else if JsString.includes (JsString.trim raw) "```"
                  then JsString.replaceAllWithSpace "```" (JsString.trim raw)
                  else JsString.trim raw) raw).
  { unfold JsString.replaceAllWithSpace.
    destruct (JsString.includes (JsString.trim raw) "```json").
    - eapply Remains_trans; [ apply Remains_removeWithSpace | ].
      eapply Remains_trans; [ apply Remains_removeWithSpace | apply Remains_trim ].
    - destruct (JsString.includes (JsString.trim raw) "```").
      + eapply Remains_trans; [ apply Remains_removeWithSpace | apply Remains_trim ].
      + apply Remains_trim. }
  revert Hclean.
  generalize (if JsString.includes (JsString.trim raw) "```json"
              then JsString.replaceAllWithSpace "```"
                     (JsString.replaceAllWithSpace "```json" (JsString.trim raw))
              else if JsString.includes (JsString.trim raw) "```"
                   then JsString.replaceAllWithSpace "```" (JsString.trim raw)
                   else JsString.trim raw).
  intros jsonString Hclean.
  destruct (JsString.lastIndexOf "}"%char jsonString);
    [ eapply Remains_trans; [ apply Remains_substring | exact Hclean ] | exact Hclean ].
Qed.

Lemma extractJson_no_fence (raw : string) :
  JsString.includes (extractJson raw) "```" = false.
Proof.
  unfold extractJson. cbv zeta.
  set (trimmed := JsString.trim raw).
  assert (Hclean : JsString.includes
            (if JsString.includes trimmed "```json"
             then JsString.replaceAllWithSpace "```"
                    (JsString.replaceAllWithSpace "```json" trimmed)
             else if JsString.includes trimmed "```"
                  then JsString.replaceAllWithSpace "```" trimmed
                  else trimmed) "```" = false).
  { destruct (JsString.includes trimmed "```json");
      [ apply replaceAllWithSpace_no_fence | ].
    destruct (JsString.includes trimmed "```") eqn:Hfenced;
      [ apply replaceAllWithSpace_no_fence | exact Hfenced ]. }
  revert Hclean.
  generalize (if JsString.includes trimmed "```json"
              then JsString.replaceAllWithSpace "```"
                     (JsString.replaceAllWithSpace "```json" trimmed)
              else if JsString.includes trimmed "```"
                   then JsString.replaceAllWithSpace "```" trimmed
                   else trimmed).
  intros jsonString Hclean.
  destruct (JsString.lastIndexOf "}"%char jsonString) as [lastBrace |];
    [ apply includes_substring, Hclean | exact Hclean ].
Qed.

Lemma extractJson_last_brace (raw : string) (lastBrace : nat) :
  JsString.lastIndexOf "}"%char (extractJson raw) = Some lastBrace ->
  String.length (extractJson raw) = lastBrace + 1.
Proof.
  unfold extractJson. cbv zeta.
  generalize (if JsString.includes (JsString.trim raw) "```json"
              then JsString.replaceAllWithSpace "```"
                     (JsString.replaceAllWithSpace "```json" (JsString.trim raw))
              else if JsString.includes (JsString.trim raw) "```"
                   then JsString.replaceAllWithSpace "```" (JsString.trim raw)
                   else JsString.trim raw).
  intros jsonString.
  destruct (JsString.lastIndexOf "}"%char jsonString) as [k |] eqn:Hbrace.
  - destruct (lastIndexOf_cut _ _ _ Hbrace) as [Hlength Hlast].
    rewrite Hlast. intros [= <-]. exact Hlength.
  - rewrite Hbrace. discriminate.
Qed.

(** The branch of the final message records the structured result as the
    output of its step, before it reads a property of it. *)
Lemma finalizeRun_step scout executionId similar assistantMessage steps number :
  triple (fun st => scout_execution_steps st = steps /\ stepNumber st = number)
         (finalizeRun scout executionId similar assistantMessage)
         (fun _ st =>
            scout_execution_steps st
            = (steps ++ [Step.mk executionId (number + 1) summarize
                           "Agent completed execution" Status.completed
                           (Some (OutResponse
                                    (parseScoutResponse (content assistantMessage))))
                           None])%list)
         (fun _ st =>
            scout_execution_steps st
            = (steps ++ [Step.mk executionId (number + 1) summarize
                           "Agent completed execution" Status.completed
                           (Some (OutResponse
                                    (parseScoutResponse (content assistantMessage))))
                           None])%list).
Proof.
  unfold finalizeRun. cbv zeta.
  apply triple_bind
    with (R := fun _ st => scout_execution_steps st = steps /\ stepNumber st = number).
  { apply triple_modify. intros st H. exact H. }
  intros _.
  apply triple_bind
    with (R := fun _ st => scout_execution_steps st = steps /\ stepNumber st = number).
  { apply triple_modify. intros st H. exact H. }
  intros _.
  apply triple_bind
    with (R := fun _ st => scout_execution_steps st = steps /\ stepNumber st = number + 1).
  { apply triple_modify. intros st [Hsteps Hnumber]. cbn. rewrite Hnumber. auto. }
  intros _.
  apply triple_bind
    with (R := fun sn st => scout_execution_steps st = steps /\ sn = number + 1).
  { apply triple_gets. intros st [Hsteps Hnumber]. auto. }
  intros sn. apply triple_pure. intros ->.
  apply triple_bind
    with (R := fun _ st =>
            scout_execution_steps st
            = (steps ++ [Step.mk executionId (number + 1) summarize
                           "Agent completed execution" Status.completed
                           (Some (OutResponse
                                    (parseScoutResponse (content assistantMessage))))
                           None])%list).
  { unfold createStep. apply triple_modify. intros st Hsteps. cbn. rewrite Hsteps.
    reflexivity. }
  intros _. as_keeps. keep steps_leaf nothing_known.
Qed.

(** C9, as the code has it.  The content of the final message is
    trimmed (the white space at its two ends is taken off, and nothing
    else), the code fences are removed with the white space after them,
    and the text is cut after its last closing brace: what is handed to
    [JSON.parse] is what these deletions leave of the content, it holds
    no fence and nothing after its last brace.  When it parses,
    the value it parses to is the structured result; when it does not,
    the structured result has [taskCompleted = false], [taskStatus =
    "insufficient_data"] and as [response] the raw content, or the text
    "Agent completed without structured output" when the raw content is
    empty or [null].  The structured result is what the run records as
    the output of its last step. *)
Theorem C9_final_message_parsing (finalContent : option string) :
  (match finalContent with
   | Some raw =>
       let trimmed := JsString.trim raw in
       let unfenced :=
         if JsString.includes trimmed "```json"
         then JsString.replaceAllWithSpace "```"
                (JsString.replaceAllWithSpace "```json" trimmed)
         else if JsString.includes trimmed "```"
              then JsString.replaceAllWithSpace "```" trimmed
              else trimmed in
       let jsonString :=
         match JsString.lastIndexOf "}"%char unfenced with
         | Some lastBrace => String.substring 0 (lastBrace + 1) unfenced
         | None => unfenced
         end in
       (exists before after,
          raw = before ++ trimmed ++ after
          /\ allSpace before = true /\ allSpace after = true)
       /\ startsWithSpace trimmed = false
       /\ endsWithSpace trimmed = false
       /\ Remains jsonString raw
       /\ JsString.includes jsonString "```" = false
       /\ (forall lastBrace,
             JsString.lastIndexOf "}"%char jsonString = Some lastBrace ->
             String.length jsonString = lastBrace + 1)
       /\ match JSON_parse jsonString with
          | Some parsed => parseScoutResponse finalContent = parsed
          | None =>
              parseScoutResponse finalContent
              = JObj [("taskCompleted", JBool false);
                      ("taskStatus", JStr "insufficient_data");
                      ("response",
                       JStr (if JsString.nonEmpty raw then raw else noStructuredOutput))]
          end
   | None =>
       parseScoutResponse finalContent
       = JObj [("taskCompleted", JBool false);
               ("taskStatus", JStr "insufficient_data");
               ("response", JStr noStructuredOutput)]
   end)
  /\ forall scout executionId similar assistantMessage st,
       content assistantMessage = finalContent ->
       scout_execution_steps
         (snd (finalizeRun scout executionId similar assistantMessage st))
       = (scout_execution_steps st
          ++ [Step.mk executionId (stepNumber st + 1) summarize
                "Agent completed execution" Status.completed
                (Some (OutResponse (parseScoutResponse finalContent))) None])%list.
Proof.
  split.
  - destruct finalContent as [raw |]; [ | reflexivity ].
    cbv zeta. fold (extractJson raw).
    destruct (trim_spec raw) as (Hends & Hstart & Hend).
    split; [ exact Hends | ]. split; [ exact Hstart | ]. split; [ exact Hend | ].
    split; [ apply extractJson_remains | ].
    split; [ apply extractJson_no_fence | ].
    split; [ apply extractJson_last_brace | ].
    unfold parseScoutResponse.
    destruct (JSON_parse (extractJson raw)); [ reflexivity | ].
    destruct raw; reflexivity.
  - intros scout executionId similar assistantMessage st <-.
    pose proof (finalizeRun_step scout executionId similar assistantMessage
                  (scout_execution_steps st) (stepNumber st) st (conj eq_refl eq_refl))
      as Hstep.
    destruct (finalizeRun scout executionId similar assistantMessage st)
      as [[[] | e] st']; exact Hstep.
Qed.

End FinalMessage.

(** C9 as stated fails on the empty content: it does not parse, and the
    response is not the raw content. *)
Lemma C9_counterexample_empty_content :
  @JSON_parse Sample.runtime (extractJson EmptyString) = None /\
  @parseScoutResponse Sample.runtime (Some EmptyString) <>
  JObj [("taskCompleted", JBool false); ("taskStatus", JStr "insufficient_data");
        ("response", JStr EmptyString)].
Proof. split; [ reflexivity | discriminate ]. Qed.
(* ===================================================================== *)
(** * Duplicate detection (agent.ts, "Check for similar previous
      executions") *)
(* ===================================================================== *)

Section Duplicates.
Context {host : Host}.

Lemma findDuplicate_skip cur r prev rest :
  reachesThreshold cur prev = false ->
  findDuplicate cur r (prev :: rest) = findDuplicate cur r rest.
Proof.
  unfold reachesThreshold, similarityTo. cbn [findDuplicate].
  destruct (Execution.summary_embedding prev) as [prevEmbedding |]; [ | reflexivity ].
  destruct (negb (List.length prevEmbedding =? 1536)%nat); [ reflexivity | ].
  destruct (negb (List.length prevEmbedding =? List.length cur)%nat); [ reflexivity | ].
  destruct (cosineSimilarity cur prevEmbedding) as [similarity | e]; [ | reflexivity ].
  intros Hbelow. rewrite Hbelow. reflexivity.
Qed.

Lemma findDuplicate_hit cur r prev rest similarity :
  similarityTo cur prev = Some similarity ->
  PrimFloat.leb similarityThreshold similarity = true ->
  findDuplicate cur r (prev :: rest) = (true, duplicateNote r prev similarity).
Proof.
  unfold similarityTo. cbn [findDuplicate].
  destruct (Execution.summary_embedding prev) as [prevEmbedding |]; [ | discriminate ].
  destruct (negb (List.length prevEmbedding =? 1536)%nat); [ discriminate | ].
  destruct (negb (List.length prevEmbedding =? List.length cur)%nat); [ discriminate | ].
  destruct (cosineSimilarity cur prevEmbedding) as [s | e]; [ | discriminate ].
  intros [= ->] Hreach. rewrite Hreach. reflexivity.
Qed.

Lemma findDuplicate_first cur r before prev after similarity :
  (forall p, In p before -> reachesThreshold cur p = false) ->
  similarityTo cur prev = Some similarity ->
  PrimFloat.leb similarityThreshold similarity = true ->
  findDuplicate cur r (before ++ prev :: after)%list
  = (true, duplicateNote r prev similarity).
Proof.
  intros Hbefore Hsim Hreach.
  induction before as [| p before IH]; cbn [app].
  - eapply findDuplicate_hit; eassumption.
  - rewrite findDuplicate_skip by (apply Hbefore; left; reflexivity).
    apply IH. intros q Hq. apply Hbefore. right. exact Hq.
Qed.

Lemma findDuplicate_none cur r similar :
  (forall p, In p similar -> reachesThreshold cur p = false) ->
  findDuplicate cur r similar = (false, r).
Proof.
  induction similar as [| p rest IH]; intros Hall; [ reflexivity | ].
  rewrite findDuplicate_skip by (apply Hall; left; reflexivity).
  apply IH. intros q Hq. apply Hall. right. exact Hq.
Qed.

(** C4, as the code has it.  For a completed run with a summary embedding
    and at least one recent finding: when some finding reaches a
    similarity of 0.85, the run is marked duplicate of the first such
    finding in the order of the list, most recent first, and the note with
    that finding's date, summary text and similarity is appended to the
    response; when no finding reaches 0.85, the run is not marked
    duplicate and the response is left as it was. *)
Theorem C4_duplicate_of_first_match (r : ScoutResponse)
    (currentEmbedding : list float) (similarExecutions : list Execution.t) :
  taskCompleted r = true ->
  similarExecutions <> [] ->
  (forall before prev after similarity,
      similarExecutions = (before ++ prev :: after)%list ->
      (forall p, In p before -> reachesThreshold currentEmbedding p = false) ->
      similarityTo currentEmbedding prev = Some similarity ->
      PrimFloat.leb similarityThreshold similarity = true ->
      checkDuplicates r (Some currentEmbedding) similarExecutions
      = (true, duplicateNote r prev similarity))
  /\
  ((forall p, In p similarExecutions -> reachesThreshold currentEmbedding p = false) ->
   checkDuplicates r (Some currentEmbedding) similarExecutions = (false, r)).
Proof.
  intros Hcompleted Hnonempty.
  assert (Hcheck : checkDuplicates r (Some currentEmbedding) similarExecutions
                   = findDuplicate currentEmbedding r similarExecutions).
  { unfold checkDuplicates. rewrite Hcompleted.
    destruct similarExecutions; [ congruence | reflexivity ]. }
  rewrite Hcheck. split.
  - intros before prev after similarity -> Hbefore Hsim Hreach.
    apply findDuplicate_first; assumption.
  - apply findDuplicate_none.
Qed.

End Duplicates.

(** The first finding that reaches the threshold is named, here the recent
    one at similarity 0.914, before the older one at similarity 1. *)
Lemma C4_witness_first_match :
  (taskCompleted Sample.found = true /\ [Sample.findingRecent; Sample.findingOlder] <> [])
  /\ exists similarity,
       similarityTo Sample.axis Sample.findingRecent = Some similarity /\
       @checkDuplicates Sample.runtime Sample.found (Some Sample.axis)
         [Sample.findingRecent; Sample.findingOlder]
       = (true, @duplicateNote Sample.runtime Sample.found Sample.findingRecent similarity).
Proof.
  split; [ split; [ reflexivity | discriminate ] | ].
  assert (Hsim : { s | similarityTo Sample.axis Sample.findingRecent = Some s }).
  { destruct (similarityTo Sample.axis Sample.findingRecent) as [s |] eqn:H.
    - exists s. reflexivity.
    - vm_compute in H. discriminate H. }
  destruct Hsim as [similarity Hsim].
  exists similarity. split; [ exact Hsim | ].
  refine (proj1 (@C4_duplicate_of_first_match Sample.runtime Sample.found Sample.axis
                   [Sample.findingRecent; Sample.findingOlder] eq_refl _)
                [] Sample.findingRecent [Sample.findingOlder] similarity eq_refl _ Hsim _).
  - discriminate.
  - intros p [].
  - revert Hsim. vm_compute. intros [= <-]. reflexivity.
Defined.

(** C4 as stated fails: the older finding has the highest similarity, and
    the run is marked duplicate of the recent one, whose date and summary
    the note carries. *)
Lemma C4_counterexample_not_argmax :
  exists sRecent sOlder,
    similarityTo Sample.axis Sample.findingRecent = Some sRecent /\
    similarityTo Sample.axis Sample.findingOlder = Some sOlder /\
    PrimFloat.ltb sRecent sOlder = true /\
    @checkDuplicates Sample.runtime Sample.found (Some Sample.axis)
      [Sample.findingRecent; Sample.findingOlder]
    = (true, @duplicateNote Sample.runtime Sample.found Sample.findingRecent sRecent) /\
    @checkDuplicates Sample.runtime Sample.found (Some Sample.axis)
      [Sample.findingRecent; Sample.findingOlder]
    <> (true, @duplicateNote Sample.runtime Sample.found Sample.findingOlder sOlder).
Proof.
  eexists. eexists.
  split; [ vm_compute; reflexivity | ].
  split; [ vm_compute; reflexivity | ].
  split; [ vm_compute; reflexivity | ].
  split; [ vm_compute; reflexivity | ].
  vm_compute. discriminate.
Qed.

(* ===================================================================== *)
(** * The tools return their failures (tools.ts) *)
(* ===================================================================== *)

Section ToolsReturn.
Context {host : Host}.

Lemma searchAttempt_timeout a apiKey loc maxAge options reply st :
  (60000 <= elapsed reply)%Z ->
  fst (searchAttempt (ArgsObject a) apiKey loc maxAge options reply st)
  = Throw AbortError.
Proof.
  intros Hslow. apply Z.leb_le in Hslow.
  unfold searchAttempt, fetch. cbn. unfold bind at 1. cbn.
  unfold bind at 1. rewrite Hslow. reflexivity.
Qed.

Lemma scrapeAttempt_timeout a apiKey maxAge options reply st :
  (60000 <= elapsed reply)%Z ->
  fst (scrapeAttempt (ArgsObject a) apiKey maxAge options reply st)
  = Throw AbortError.
Proof.
  intros Hslow. apply Z.leb_le in Hslow.
  unfold scrapeAttempt, fetch. cbn. unfold bind at 1. cbn.
  unfold bind at 1. rewrite Hslow. reflexivity.
Qed.

(** C10, as the code has it.  Called with an argument object, the two
    tools always return and never throw: what the [try] block returns is
    returned; whatever it throws is returned as an object with the error
    message and the query (with an empty list of results) or the url; a
    reply that takes 60 seconds or more is returned as the timed-out
    error. *)
Theorem C10_tools_return_failures (a : ToolArgs) (apiKey : string)
    (loc : option string) (maxAge : option Z) (options : option FirecrawlOptions)
    (reply : Reply json) (st : St) :
  (exists out,
      fst (executeSearchTool (ArgsObject a) apiKey loc maxAge options reply st) = Ok out
      /\ match fst (searchAttempt (ArgsObject a) apiKey loc maxAge options reply st) with
         | Ok result => out = result
         | Throw e =>
             out = SearchErr (if String.eqb (err_name e) "AbortError"
                              then "Search request timed out after 60 seconds"
                              else err_message e)
                             (query a) []
         end
      /\ ((60000 <= elapsed reply)%Z ->
          out = SearchErr "Search request timed out after 60 seconds" (query a) []))
  /\
  (exists out,
      fst (executeScrapeTool (ArgsObject a) apiKey maxAge options reply st) = Ok out
      /\ match fst (scrapeAttempt (ArgsObject a) apiKey maxAge options reply st) with
         | Ok result => out = result
         | Throw e =>
             out = ScrapeErr (if String.eqb (err_name e) "AbortError"
                              then "Scrape request timed out after 60 seconds"
                              else err_message e)
                             (url a)
         end
      /\ ((60000 <= elapsed reply)%Z ->
          out = ScrapeErr "Scrape request timed out after 60 seconds" (url a))).
Proof.
  split.
  - pose proof (searchAttempt_timeout a apiKey loc maxAge options reply st) as Hslow.
    unfold executeSearchTool, try_catch.
    destruct (searchAttempt (ArgsObject a) apiKey loc maxAge options reply st)
      as [[result | e] st'] eqn:Hattempt; cbn [fst] in *.
    + exists result. repeat split. intros H. specialize (Hslow H). discriminate.
    + eexists. split; [ reflexivity | ]. split; [ reflexivity | ].
      intros H. specialize (Hslow H). injection Hslow as ->. reflexivity.
  - pose proof (scrapeAttempt_timeout a apiKey maxAge options reply st) as Hslow.
    unfold executeScrapeTool, try_catch.
    destruct (scrapeAttempt (ArgsObject a) apiKey maxAge options reply st)
      as [[result | e] st'] eqn:Hattempt; cbn [fst] in *.
    + exists result. repeat split. intros H. specialize (Hslow H). discriminate.
    + eexists. split; [ reflexivity | ]. split; [ reflexivity | ].
      intros H. specialize (Hslow H). injection Hslow as ->. reflexivity.
Qed.

End ToolsReturn.

(** A search that the provider rejects with status 500 is returned as an
    error with the query and no results. *)
Example search_rejected_is_returned :
  fst (@executeSearchTool Sample.runtime
         (ArgsObject {| query := Some "AI news"; url := None; limit := None; tbs := None |})
         "fc-key" None None None Sample.serverError Sample.store0)
  = Ok (SearchErr "Firecrawl search failed: 500 Internal Server Error - upstream failure"
                  (Some "AI news") []).
Proof. reflexivity. Qed.

(** C10 as stated fails on [null] arguments: the [catch] block reads
    [args.query] (or [args.url]) again, and that throws. *)
Lemma C10_counterexample_null_arguments :
  fst (@executeSearchTool Sample.runtime ArgsNullish "fc-key" None None None
         Sample.noWebResults Sample.store0)
  = Throw (TypeError "Cannot read properties of null or undefined")
  /\
  fst (executeScrapeTool ArgsNullish "fc-key" None None
         Sample.noWebResults Sample.store0)
  = Throw (TypeError "Cannot read properties of null or undefined").
Proof. split; reflexivity. Qed.

(* ===================================================================== *)
(** * The entry point refuses a second run (index.ts) *)
(* ===================================================================== *)

Lemma insertDesc_In {A : Type} (key : A -> option Z) (x y : A) (sorted : list A) :
  In y (insertDesc key x sorted) <-> y = x \/ In y sorted.
Proof.
  induction sorted as [| z rest IH]; cbn.
  - intuition congruence.
  - destruct (comesFirst (key x) (key z)); cbn; rewrite ?IH; intuition congruence.
Qed.

Lemma orderDesc_In {A : Type} (key : A -> option Z) (y : A) (rows : list A) :
  In y (orderDesc key rows) <-> In y rows.
Proof.
  induction rows as [| x rest IH]; cbn; [ tauto | ].
  rewrite insertDesc_In, IH. intuition congruence.
Qed.

Lemma statusIs_eq (s : Status.t) (e : Execution.t) :
  statusIs s e = true <-> Execution.status e = s.
Proof.
  unfold statusIs. destruct s, (Execution.status e); split; congruence.
Qed.

Section EntryFacts.
Context {host : Host} {net : Oracle}.

(** The execution the handler reports is a stored execution of the scout
    with status [running]. *)
Lemma runningExecutionOf_sound scoutId rows e :
  runningExecutionOf scoutId rows = Some e ->
  In e rows /\ Execution.scout_id e = scoutId /\ Execution.status e = Status.running.
Proof.
  unfold runningExecutionOf. intros Hhd.
  assert (Hin : In e (orderDesc (fun e => Some (Execution.created_at e))
                        (filter (fun e => String.eqb (Execution.scout_id e) scoutId
                                          && statusIs Status.running e) rows))).
  { destruct (orderDesc _ _) as [| x l]; cbn in Hhd; [ discriminate | ].
    injection Hhd as ->. left. reflexivity. }
  apply orderDesc_In, filter_In in Hin. destruct Hin as [Hin Hp].
  apply andb_true_iff in Hp. destruct Hp as [Hid Hstatus].
  apply String.eqb_eq in Hid. apply statusIs_eq in Hstatus. auto.
Qed.

(** C2, as the code has it.  An invocation with a [scoutId] whose scout
    already has an execution in status [running] changes nothing in the
    store: no execution, no step, and the scout as it was.  When the
    request is not a preflight, the store credentials are configured and
    the scout is active and completely configured, the response is the
    409 with the id of the running execution (the most recently created
    one).  An inactive or incomplete scout is refused with a 500
    before the running execution is looked for. *)
Theorem C2_running_execution_refused (req : Request) (st : St)
    (scout : Scout.t) (runningExecution : Execution.t) :
  truthyStr (requestedScoutId req) = true ->
  fetchScout (showStr (requestedScoutId req)) (scouts st) = Some scout ->
  runningExecutionOf (showStr (requestedScoutId req)) (scout_executions st)
  = Some runningExecution ->
  snd (serve req st) = st
  /\ (String.eqb (method req) "OPTIONS" = false ->
      truthyStr (env "SUPABASE_URL") = true ->
      truthyStr (env "SUPABASE_SERVICE_ROLE_KEY") = true ->
      Scout.is_active scout = true ->
      isComplete scout = true ->
      fst (serve req st)
      = Ok {| http_status := 409;
              http_body := Conflict "Scout execution already in progress"
                                    (Scout.id scout)
                                    (Execution.id runningExecution) |}).
Proof.
  intros Hid Hscout Hrunning. unfold serve.
  destruct (String.eqb (method req) "OPTIONS"); [ split; [ reflexivity | discriminate ] | ].
  unfold try_catch. cbv zeta. fold (requestedScoutId req).
  destruct (truthyStr (env "SUPABASE_URL")), (truthyStr (env "SUPABASE_SERVICE_ROLE_KEY"));
    cbn [negb orb];
    try (split; [ reflexivity | discriminate ]).
  rewrite Hid. cbn [negb]. unfold bind, gets.
  rewrite Hscout.
  destruct (Scout.is_active scout); cbn [negb];
    [ | split; [ reflexivity | discriminate ] ].
  destruct (isComplete scout); cbn [negb];
    [ | split; [ reflexivity | discriminate ] ].
  rewrite Hrunning.
  split; [ reflexivity | intros; reflexivity ].
Qed.

End EntryFacts.

(** A paused scout with an execution under way keeps its store, and gets
    the 409 once it is active again. *)
Lemma C2_witness_conflict :
  (truthyStr (requestedScoutId Sample.postS1) = true
   /\ fetchScout (showStr (requestedScoutId Sample.postS1)) (scouts Sample.storeRunning)
      = Some Sample.scoutS1
   /\ runningExecutionOf (showStr (requestedScoutId Sample.postS1))
        (scout_executions Sample.storeRunning)
      = Some Sample.executionE0)
  /\ snd (@serve Sample.runtime Sample.creditsRunOut Sample.postS1 Sample.storeRunning)
     = Sample.storeRunning
  /\ fst (@serve Sample.runtime Sample.creditsRunOut Sample.postS1 Sample.storeRunning)
     = Ok {| http_status := 409;
             http_body := Conflict "Scout execution already in progress" "S1" "E0" |}.
Proof.
  split; [ repeat split | ].
  destruct (@C2_running_execution_refused Sample.runtime Sample.creditsRunOut
              Sample.postS1 Sample.storeRunning Sample.scoutS1 Sample.executionE0
              eq_refl eq_refl eq_refl) as [Hstore Hconflict].
  split; [ exact Hstore | ].
  exact (Hconflict eq_refl eq_refl eq_refl eq_refl eq_refl).
Defined.

(** C2 as stated fails for a scout that is not active: its execution is
    still running, and the answer is a 500. *)
Lemma C2_counterexample_paused_scout :
  runningExecutionOf "S1" (scout_executions Sample.storePaused) = Some Sample.executionE0
  /\ fst (@serve Sample.runtime Sample.creditsRunOut Sample.postS1 Sample.storePaused)
     = Ok {| http_status := 500; http_body := Failure "Scout S1 is not active" |}.
Proof. split; reflexivity. Qed.

(* ===================================================================== *)
(** * What a run keeps *)
(* ===================================================================== *)

Lemma In_updateWhere {A : Type} (p : A -> bool) (f : A -> A) (rows : list A) (y : A) :
  In y (updateWhere p f rows) <-> exists x, In x rows /\ y = if p x then f x else x.
Proof.
  unfold updateWhere. rewrite in_map_iff.
  split; intros [x [H1 H2]]; exists x; split; auto.
Qed.

Lemma hasScout_update scoutId p f st :
  (forall s, Scout.id (f s) = Scout.id s) ->
  hasScout scoutId st ->
  hasScout scoutId (set_scouts (updateWhere p f (scouts st)) st).
Proof.
  intros Hf [row [Hin Hid]]. unfold hasScout. cbn.
  exists (if p row then f row else row). split.
  - apply In_updateWhere. exists row. auto.
  - destruct (p row); [ rewrite Hf | ]; exact Hid.
Qed.

Lemma hasExecution_update executionId p f st :
  (forall e, Execution.id (f e) = Execution.id e) ->
  hasExecution executionId st ->
  hasExecution executionId (set_scout_executions (updateWhere p f (scout_executions st)) st).
Proof.
  intros Hf [e [Hin Hid]]. unfold hasExecution. cbn.
  exists (if p e then f e else e). split.
  - apply In_updateWhere. exists e. auto.
  - destruct (p e); [ rewrite Hf | ]; exact Hid.
Qed.

Lemma hasExecution_insert executionId e st :
  hasExecution executionId st ->
  hasExecution executionId (set_scout_executions (scout_executions st ++ [e])%list st).
Proof.
  intros [x [Hin Hid]]. exists x. cbn. split; [ apply in_or_app; auto | exact Hid ].
Qed.

(** State changes that leave the scouts' and the executions' ids alone. *)
Ltac ids_leaf :=
  cbn beta;
  first
    [ assumption
    | apply hasScout_update;
      [ intros ?; cbn;
        repeat (match goal with |- context [if ?b then _ else _] => destruct b end);
        reflexivity
      | assumption ]
    | apply hasExecution_update; [ intros ?; reflexivity | assumption ]
    | apply hasExecution_insert; assumption ].

Ltac nothing_known := fail.

(* ===================================================================== *)
(** * A failed run (agent.ts, the [catch] block) *)
(* ===================================================================== *)

Section FailedRun.
Context {host : Host} {net : Oracle}.

Lemma insertExecution_keeps_scout scoutId sid :
  preserves (hasScout scoutId) (insertExecution sid).
Proof. keep ids_leaf nothing_known. Qed.

Lemma freshLocals_keeps_scout scoutId : preserves (hasScout scoutId) freshLocals.
Proof. keep ids_leaf nothing_known. Qed.

Lemma runBody_keeps_scout scoutId scout executionId :
  preserves (hasScout scoutId) (runBody scout executionId).
Proof. keep ids_leaf nothing_known. Qed.

Lemma runBody_keeps_execution eid scout executionId :
  preserves (hasExecution eid) (runBody scout executionId).
Proof. keep ids_leaf nothing_known. Qed.

(** The run as a whole, once the execution is inserted. *)
Lemma executeScoutAgent_started scout st executionId st1 :
  insertExecution (Scout.id scout) (snd (freshLocals st)) = (Ok (Some executionId), st1) ->
  executeScoutAgent scout st
  = try_catch (runBody scout executionId) (runFailed scout executionId) st1.
Proof.
  intros Hinsert. unfold executeScoutAgent, bind at 1 2.
  destruct (freshLocals st) as [[[] | e] st0] eqn:Hfresh.
  - cbn [snd] in Hinsert. rewrite Hinsert. reflexivity.
  - discriminate Hfresh.
Qed.

Lemma insertExecution_inserted scoutId st executionId st1 :
  insertExecution scoutId st = (Ok (Some executionId), st1) ->
  hasExecution executionId st1.
Proof.
  unfold insertExecution. destruct insert_reply as [newId |]; [ | discriminate ].
  cbn. intros [= <- <-]. eexists. cbn. split; [ apply in_or_app; right; left | ]; reflexivity.
Qed.

(** What the [catch] block writes. *)
Lemma runFailed_writes scout executionId error st :
  let st' := snd (runFailed scout executionId error st) in
  let newFailureCount := Scout.consecutive_failures scout + 1 in
  fst (runFailed scout executionId error st) = Ok tt
  /\ clock st' = clock st
  /\ consecutiveErrors st' = consecutiveErrors st
  /\ scout_executions st'
     = updateWhere (fun e => String.eqb (Execution.id e) executionId)
                   (failedWith (clock st) (err_message error)) (scout_executions st)
  /\ scouts st'
     = updateWhere (fun s => String.eqb (Scout.id s) (Scout.id scout))
         (fun s =>
            let s := Scout.set_consecutive_failures newFailureCount
                       (Scout.set_last_run_at (Some (clock st)) s) in
            if (3 <=? newFailureCount)%nat then Scout.set_is_active false s else s)
         (scouts st).
Proof.
  unfold runFailed, bind, gets, now, when, updateStep, updateExecution, updateScouts,
    modify, ret.
  destruct (0 <? stepNumber st)%nat; cbn; repeat split; reflexivity.
Qed.

Lemma run_that_throws scout st executionId st1 error st2 :
  insertExecution (Scout.id scout) (snd (freshLocals st)) = (Ok (Some executionId), st1) ->
  runBody scout executionId st1 = (Throw error, st2) ->
  executeScoutAgent scout st = runFailed scout executionId error st2.
Proof.
  intros Hinsert Hbody. rewrite (executeScoutAgent_started _ _ _ _ Hinsert).
  unfold try_catch. rewrite Hbody. reflexivity.
Qed.

(** A run whose [try] block throws is recorded as failed, with the
    message of the error. *)
Lemma failed_run_recorded scout st executionId st1 error st2 :
  insertExecution (Scout.id scout) (snd (freshLocals st)) = (Ok (Some executionId), st1) ->
  runBody scout executionId st1 = (Throw error, st2) ->
  let st' := snd (executeScoutAgent scout st) in
  hasExecution executionId st'
  /\ forall e, In e (scout_executions st') -> Execution.id e = executionId ->
       Execution.status e = Status.failed
       /\ Execution.error_message e = Some (err_message error).
Proof.
  intros Hinsert Hbody st'. subst st'.
  rewrite (run_that_throws _ _ _ _ _ _ Hinsert Hbody).
  destruct (runFailed_writes scout executionId error st2) as (_ & _ & _ & Hexecs & _).
  assert (Hhas : hasExecution executionId st2).
  { pose proof (preserves_result _ _ st1 (runBody_keeps_execution executionId scout executionId)
                  (insertExecution_inserted _ _ _ _ Hinsert)) as H.
    rewrite Hbody in H. exact H. }
  split.
  - destruct Hhas as [e0 [Hin0 Hid0]].
    exists (failedWith (clock st2) (err_message error) e0). rewrite Hexecs. split.
    + apply In_updateWhere. exists e0. split; [ exact Hin0 | ].
      rewrite Hid0, String.eqb_refl. reflexivity.
    + exact Hid0.
  - intros e Hin Hid. rewrite Hexecs in Hin.
    apply In_updateWhere in Hin. destruct Hin as [x [Hx ->]].
    destruct (String.eqb (Execution.id x) executionId) eqn:Hmatch.
    + split; reflexivity.
    + apply String.eqb_neq in Hmatch. contradiction.
Qed.

(** C7.  After a failed run the scout's [last_run_at] is the current
    time and its [consecutive_failures] is one more than it was; when that
    count is 3 or more, the scout is no longer active. *)
Theorem C7_failed_run_bookkeeping (scout : Scout.t) (st : St)
    (executionId : string) (st1 : St) (error : JsError) (st2 : St) :
  In scout (scouts st) ->
  insertExecution (Scout.id scout) (snd (freshLocals st)) = (Ok (Some executionId), st1) ->
  runBody scout executionId st1 = (Throw error, st2) ->
  let st' := snd (executeScoutAgent scout st) in
  hasScout (Scout.id scout) st'
  /\ forall row, In row (scouts st') -> Scout.id row = Scout.id scout ->
       Scout.last_run_at row = Some (clock st')
       /\ Scout.consecutive_failures row = Scout.consecutive_failures scout + 1
       /\ (3 <= Scout.consecutive_failures row -> Scout.is_active row = false).
Proof.
  intros Hstored Hinsert Hbody st'. subst st'.
  rewrite (run_that_throws _ _ _ _ _ _ Hinsert Hbody).
  destruct (runFailed_writes scout executionId error st2) as (_ & Hclock & _ & _ & Hscouts).
  assert (Hhas : hasScout (Scout.id scout) st2).
  { assert (H0 : hasScout (Scout.id scout) st) by (exists scout; auto).
    pose proof (preserves_result _ _ st (freshLocals_keeps_scout (Scout.id scout)) H0) as H1.
    pose proof (preserves_result _ _ _
                  (insertExecution_keeps_scout (Scout.id scout) (Scout.id scout)) H1) as H2.
    rewrite Hinsert in H2. cbn [snd] in H2.
    pose proof (preserves_result _ _ st1
                  (runBody_keeps_scout (Scout.id scout) scout executionId) H2) as H3.
    rewrite Hbody in H3. exact H3. }
  split.
  - unfold hasScout. rewrite Hscouts.
    destruct Hhas as [row [Hin Hid]].
    eexists. split.
    + apply In_updateWhere. exists row. split; [ exact Hin | reflexivity ].
    + rewrite Hid, String.eqb_refl. cbv zeta.
      destruct (3 <=? Scout.consecutive_failures scout + 1)%nat; exact Hid.
  - intros row Hin Hid. rewrite Hscouts in Hin. rewrite Hclock.
    apply In_updateWhere in Hin. destruct Hin as [x [Hx ->]].
    destruct (String.eqb (Scout.id x) (Scout.id scout)) eqn:Hmatch.
    + cbv zeta.
      destruct (3 <=? Scout.consecutive_failures scout + 1)%nat eqn:Hthree; cbn.
      * repeat split.
      * apply Nat.leb_gt in Hthree. repeat split. lia.
    + apply String.eqb_neq in Hmatch. contradiction.
Qed.

End FailedRun.


(** The third failure in a row pauses scout S2. *)
Lemma C7_witness_third_failure :
  let run := @executeScoutAgent Sample.runtime Sample.modelDown Sample.scoutS2 Sample.store0 in
  In Sample.scoutS2 (scouts Sample.store0)
  /\ hasScout "S2" (snd run)
  /\ forall row, In row (scouts (snd run)) -> Scout.id row = "S2" ->
       Scout.last_run_at row = Some (clock (snd run))
       /\ Scout.consecutive_failures row = 3
       /\ (3 <= Scout.consecutive_failures row -> Scout.is_active row = false).
Proof.
  split; [ right; left; reflexivity | ].
  refine (@C7_failed_run_bookkeeping Sample.runtime Sample.modelDown Sample.scoutS2
            Sample.store0 "E1"
            (snd (@insertExecution Sample.modelDown "S2" (snd (freshLocals Sample.store0))))
            (Error "OpenAI API error: overloaded")
            (snd (@runBody Sample.runtime Sample.modelDown Sample.scoutS2 "E1"
                    (snd (@insertExecution Sample.modelDown "S2"
                            (snd (freshLocals Sample.store0))))))
            _ _ _).
  - right; left; reflexivity.
  - reflexivity.
  - vm_compute. reflexivity.
Defined.
(* ===================================================================== *)
(** * The loop ends by its own condition *)
(* ===================================================================== *)

Ltac fuel_leaf := unfold enoughFuel in *; cbn; lia.

Section LoopExits.
Context {host : Host} {net : Oracle}.

Lemma getOpenAIConfig_missing st :
  providerConfigured = false ->
  getOpenAIConfig st = (Throw (Error providerMessage), st).
Proof.
  unfold providerConfigured, getOpenAIConfig. intros Hmissing.
  apply orb_false_iff in Hmissing. destruct Hmissing as [-> ->]. reflexivity.
Qed.

Lemma getOpenAIConfig_configured st :
  providerConfigured = true ->
  exists openaiConfig, getOpenAIConfig st = (Ok openaiConfig, st).
Proof.
  unfold providerConfigured, getOpenAIConfig. intros Hconfigured.
  destruct (truthyStr (env "AZURE_OPENAI_API_KEY") && truthyStr (env "AZURE_OPENAI_ENDPOINT"));
    [ eexists; reflexivity | ].
  cbn [orb] in Hconfigured. rewrite Hconfigured. eexists. reflexivity.
Qed.

Lemma insertExecution_some scoutId executionId st :
  insert_reply = Some executionId ->
  insertExecution scoutId st
  = (Ok (Some executionId),
     set_scout_executions
       (scout_executions st ++
          [Execution.mk executionId scoutId Status.running (clock st)
                        None None None None None])%list st).
Proof. unfold insertExecution. intros ->. reflexivity. Qed.


Lemma agentIteration_counts fuel scout executionId key maxAgeMs similar :
  triple (enoughFuel (S fuel))
         (agentIteration scout executionId key maxAgeMs similar)
         (fun _ => enoughFuel fuel) (fun _ _ => True).
Proof.
  unfold agentIteration.
  apply triple_bind with (R := fun _ => enoughFuel fuel).
  { apply triple_modify. intros st H. fuel_leaf. }
  intros _. as_keeps. keep fuel_leaf nothing_known.
Qed.

(** The recursion of [agentLoop] does not cut the [while] loop short: when
    [agentLoop maxLoops] returns, the condition of the loop is false. *)
Lemma agentLoop_exits fuel scout executionId key maxAgeMs similar :
  triple (enoughFuel fuel)
         (agentLoop fuel scout executionId key maxAgeMs similar)
         (fun _ st => continueLoop st && (loopCount st <? maxLoops)%nat = false)
         (fun _ _ => True).
Proof.
  induction fuel as [| fuel IH]; cbn [agentLoop].
  - apply triple_ret. intros st H. unfold enoughFuel in H.
    assert (Hdone : (loopCount st <? maxLoops)%nat = false) by (apply Nat.ltb_ge; lia).
    rewrite Hdone. apply andb_false_r.
  - intros st H. unfold bind at 1 2, gets.
    destruct (continueLoop st && (loopCount st <? maxLoops)%nat) eqn:Hcondition.
    + exact (triple_bind _ _ _ _ _ _
               (agentIteration_counts fuel scout executionId key maxAgeMs similar)
               (fun _ => IH) st H).
    + exact Hcondition.
Qed.

End LoopExits.
(* ===================================================================== *)
(** * Consecutive tool errors (agent.ts, "Track consecutive errors") *)
(* ===================================================================== *)


Section ErrorAccounting.
Context {host : Host} {net : Oracle}.



Lemma insertExecution_locals scoutId st executionId st1 :
  insertExecution scoutId (snd (freshLocals st)) = (Ok (Some executionId), st1) ->
  consecutiveErrors st1 = 0 /\ continueLoop st1 = true /\ loopCount st1 = 0
  /\ scoutResponse st1 = None /\ isDuplicate st1 = false
  /\ outbox st1 = outbox st /\ scouts st1 = scouts st.
Proof.
  unfold insertExecution. destruct insert_reply as [newId |]; [ | discriminate ].
  cbn. intros [= <- <-]. cbn. repeat split.
Qed.



End ErrorAccounting.

(* ===================================================================== *)
(** * The iteration limit (agent.ts, "Check if we hit max loops without
      finishing") *)
(* ===================================================================== *)

Ltac looping_leaf :=
  match goal with
  | H : looping _ _ _ |- _ => destruct H as (? & ? & ?)
  end;
  unfold looping, hasExecution in *; cbn;
  repeat split; first [ assumption | reflexivity ].

Section IterationLimit.
Context {host : Host} {net : Oracle}.

Lemma processToolCalls_looping eid n scout executionId key maxAgeMs calls :
  keeps (looping eid n) alwaysTrue
        (processToolCalls scout executionId key maxAgeMs calls).
Proof. unfold alwaysTrue. keep looping_leaf nothing_known. Qed.

Lemma agentIteration_looping eid n scout executionId key maxAgeMs similar :
  neverFinal ->
  n < maxLoops ->
  triple (looping eid n)
         (agentIteration scout executionId key maxAgeMs similar)
         (fun _ => looping eid (n + 1)) alwaysTrue.
Proof.
  intros Hnever Hn. unfold agentIteration.
  apply triple_bind with (R := fun _ => looping eid (n + 1)).
  { apply triple_modify. intros st (Hhas & Hcontinue & Hcount).
    unfold looping, hasExecution in *. cbn. rewrite Hcount. auto. }
  intros _.
  apply triple_bind with (R := fun count st => looping eid (n + 1) st /\ count = n + 1).
  { apply triple_gets. intros st HJ. split; [ exact HJ | apply HJ ]. }
  intros count. apply triple_pure. intros ->.
  eapply triple_bind.
  { apply triple_fetch.
    - intros c st HJ. looping_leaf.
    - intros; exact I. }
  intros response. apply triple_pure. intros [Hreply _].
  destruct (negb (ok response)).
  { unfold alwaysTrue. as_keeps. keep looping_leaf nothing_known. }
  eapply triple_bind.
  { apply triple_readJson.
    - intros c st HJ. looping_leaf.
    - intros; exact I. }
  intros message. apply triple_pure. intros Hbody.
  destruct (tool_calls message) as [| toolCall rest] eqn:Hcalls.
  - exfalso. apply (Hnever (n + 1) response message); auto. lia.
  - apply processToolCalls_looping.
Qed.

Lemma agentLoop_uses_up eid fuel n scout executionId key maxAgeMs similar :
  neverFinal ->
  n + fuel = maxLoops ->
  triple (looping eid n)
         (agentLoop fuel scout executionId key maxAgeMs similar)
         (fun _ => loopsUsedUp eid) alwaysTrue.
Proof.
  intros Hnever. revert n. induction fuel as [| fuel IH]; intros n Hsum; cbn [agentLoop].
  - apply triple_ret. intros st (Hhas & _ & Hcount). split; [ exact Hhas | lia ].
  - intros st HJ. pose proof HJ as (Hhas & Hcontinue & Hcount).
    unfold bind at 1 2, gets. rewrite Hcontinue, Hcount.
    assert (Hless : (n <? maxLoops)%nat = true) by (apply Nat.ltb_lt; lia).
    rewrite Hless. cbn [andb].
    refine (triple_bind _ _ _ _ _ _
              (agentIteration_looping eid n scout executionId key maxAgeMs similar
                 Hnever _)
              (fun _ => IH (n + 1) _) st HJ); lia.
Qed.

Lemma runBody_limit scout executionId :
  neverFinal ->
  triple (looping executionId 0) (runBody scout executionId)
         (fun _ => limitRecorded scout executionId) alwaysTrue.
Proof.
  intros Hnever. unfold runBody, alwaysTrue.
  walk looping_leaf nothing_known stop_at_loop.
  apply triple_bind with (R := fun _ => loopsUsedUp executionId).
  { apply agentLoop_uses_up; [ exact Hnever | reflexivity ]. }
  intros _ st [Hhas Hcount].
  unfold bind, now, gets, when, updateExecution, updateScouts, logFirecrawlUsage,
    modify, ret.
  rewrite Hcount. cbn [Nat.leb maxLoops].
  assert (Hgoal : forall st',
             loopCount st' = maxLoops ->
             scout_executions st'
             = updateWhere (fun e => String.eqb (Execution.id e) executionId)
                 (completedWith (clock st) incompleteSummary) (scout_executions st) ->
             scouts st'
             = updateWhere (fun s => String.eqb (Scout.id s) (Scout.id scout))
                 (fun s => Scout.set_consecutive_failures 0
                             (Scout.set_last_run_at (Some (clock st)) s))
                 (scouts st) ->
             limitRecorded scout executionId st').
  { intros st' Hc Hexecs Hscouts. split; [ exact Hc | ]. split; [ | split ].
    - destruct Hhas as [e0 [Hin0 Hid0]].
      exists (completedWith (clock st) incompleteSummary e0). rewrite Hexecs. split.
      + apply In_updateWhere. exists e0. split; [ exact Hin0 | ].
        rewrite Hid0, String.eqb_refl. reflexivity.
      + exact Hid0.
    - intros e Hin Hid. rewrite Hexecs in Hin.
      apply In_updateWhere in Hin. destruct Hin as [x [Hx ->]].
      destruct (String.eqb (Execution.id x) executionId) eqn:Hmatch.
      + split; reflexivity.
      + apply String.eqb_neq in Hmatch. contradiction.
    - intros row Hin Hid. rewrite Hscouts in Hin.
      apply In_updateWhere in Hin. destruct Hin as [x [Hx ->]].
      destruct (String.eqb (Scout.id x) (Scout.id scout)) eqn:Hmatch.
      + reflexivity.
      + apply String.eqb_neq in Hmatch. contradiction. }
  cbn.
  destruct (firecrawlApiCallsCount st); cbn; apply Hgoal; cbn;
    first [ exact Hcount | reflexivity ].
Qed.

(** C6.  When the loop completes its 7 iterations and the assistant has
    given no message free of tool calls, the execution is written with
    status [completed] and the synthetic result ([taskCompleted = false],
    [taskStatus = "partial"], the text about the iteration limit), and the
    scout's [consecutive_failures] is 0 afterwards. *)
Theorem C6_iteration_limit (scout : Scout.t) (st : St)
    (executionId : string) (st1 st2 : St) :
  insertExecution (Scout.id scout) (snd (freshLocals st)) = (Ok (Some executionId), st1) ->
  runBody scout executionId st1 = (Ok tt, st2) ->
  neverFinal ->
  let st' := snd (executeScoutAgent scout st) in
  loopCount st' = maxLoops
  /\ hasExecution executionId st'
  /\ (forall e, In e (scout_executions st') -> Execution.id e = executionId ->
        Execution.status e = Status.completed
        /\ Execution.results_summary e
           = Some (JObj [("taskCompleted", JBool false); ("taskStatus", JStr "partial");
                         ("response", JStr maxLoopsMessage)]))
  /\ (forall row, In row (scouts st') -> Scout.id row = Scout.id scout ->
        Scout.consecutive_failures row = 0).
Proof.
  intros Hinsert Hbody Hnever st'. subst st'.
  rewrite (executeScoutAgent_started _ _ _ _ Hinsert).
  unfold try_catch. rewrite Hbody. cbn [snd].
  destruct (insertExecution_locals _ _ _ _ Hinsert) as (_ & Hcontinue & Hcount & _).
  assert (Hstart : looping executionId 0 st1).
  { split; [ exact (insertExecution_inserted _ _ _ _ Hinsert) | auto ]. }
  pose proof (runBody_limit scout executionId Hnever st1 Hstart) as Hlimit.
  rewrite Hbody in Hlimit. exact Hlimit.
Qed.

End IterationLimit.

(** The assistant asks for a search in each of the 7 iterations: the run is
    completed as partial and counts as no failure. *)
Lemma C6_witness_keeps_searching :
  let run := @executeScoutAgent Sample.runtime Sample.keepsSearching
               Sample.scoutS1 Sample.store0 in
  @neverFinal Sample.keepsSearching
  /\ loopCount (snd run) = 7
  /\ hasExecution "E1" (snd run)
  /\ (forall e, In e (scout_executions (snd run)) -> Execution.id e = "E1" ->
        Execution.status e = Status.completed
        /\ Execution.results_summary e
           = Some (JObj [("taskCompleted", JBool false); ("taskStatus", JStr "partial");
                         ("response", JStr maxLoopsMessage)]))
  /\ (forall row, In row (scouts (snd run)) -> Scout.id row = "S1" ->
        Scout.consecutive_failures row = 0).
Proof.
  assert (Hnever : @neverFinal Sample.keepsSearching).
  { intros count response message _ Hreply Hbody.
    cbn in Hreply. injection Hreply as <-. cbn in Hbody. injection Hbody as <-.
    discriminate. }
  split; [ exact Hnever | ].
  refine (@C6_iteration_limit Sample.runtime Sample.keepsSearching Sample.scoutS1
            Sample.store0 "E1"
            (snd (@insertExecution Sample.keepsSearching "S1" (snd (freshLocals Sample.store0))))
            (snd (@runBody Sample.runtime Sample.keepsSearching Sample.scoutS1 "E1"
                    (snd (@insertExecution Sample.keepsSearching "S1"
                            (snd (freshLocals Sample.store0))))))
            _ _ Hnever).
  - reflexivity.
  - vm_compute. reflexivity.
Defined.
(* ===================================================================== *)
(** * The success e-mail (agent.ts, "Send email notification if scout was
      successful AND not a duplicate") *)
(* ===================================================================== *)

Lemma lookup_setProperty_other (k k' : string) (v : json) (fields : list (string * json)) :
  String.eqb k k' = false ->
  Js.lookup k (Js.setProperty k' v fields) = Js.lookup k fields.
Proof.
  intros Hother. induction fields as [| [k0 v0] rest IH]; cbn.
  - rewrite Hother. reflexivity.
  - destruct (String.eqb k' k0) eqn:Hhere; cbn.
    + apply String.eqb_eq in Hhere. subst k0. rewrite Hother. reflexivity.
    + rewrite IH. reflexivity.
Qed.

Ltac mail_leaf :=
  unfold quiet, quietLoop, mailedAnswer, mailedAnswerLoop, mailed, answered, mailOf in *;
  cbn; tauto.

Ltac stop_at_generate m :=
  lazymatch m with
  | generateSummary _ => fail
  | _ => idtac
  end.

Ltac stop_at_start m :=
  lazymatch m with
  | modify (set_firecrawlApiCallsCount 0) => idtac
  | modify (set_continueLoop true) => fail
  | modify (set_consecutiveErrors 0) => fail
  | modify (set_loopCount 0) => fail
  | _ => idtac
  end.

Section SuccessEmail.
Context {host : Host} {net : Oracle}.

(** The note of the duplicate check changes the [response] only. *)
Lemma taskCompleted_duplicateNote r prev similarity :
  taskCompleted (duplicateNote r prev similarity) = taskCompleted r.
Proof.
  destruct r; try reflexivity.
  unfold duplicateNote, taskCompleted. cbn [Js.getOpt].
  rewrite lookup_setProperty_other; reflexivity.
Qed.

Lemma findDuplicate_keeps cur r similar :
  taskCompleted (snd (findDuplicate cur r similar)) = taskCompleted r
  /\ (fst (findDuplicate cur r similar) = false -> snd (findDuplicate cur r similar) = r).
Proof.
  induction similar as [| prev rest IH]; cbn [findDuplicate]; [ split; reflexivity | ].
  destruct (Execution.summary_embedding prev) as [prevEmbedding |]; [ | exact IH ].
  destruct (negb (List.length prevEmbedding =? 1536)%nat); [ exact IH | ].
  destruct (negb (List.length prevEmbedding =? List.length cur)%nat); [ exact IH | ].
  destruct (cosineSimilarity cur prevEmbedding) as [similarity | e]; [ | exact IH ].
  destruct (PrimFloat.leb similarityThreshold similarity); [ | exact IH ].
  cbn [fst snd]. split; [ apply taskCompleted_duplicateNote | discriminate ].
Qed.

Lemma checkDuplicates_keeps r embedding similar :
  taskCompleted (snd (checkDuplicates r embedding similar)) = taskCompleted r
  /\ (fst (checkDuplicates r embedding similar) = false ->
      snd (checkDuplicates r embedding similar) = r).
Proof.
  unfold checkDuplicates.
  destruct embedding as [cur |]; [ | split; reflexivity ].
  destruct similar as [| prev rest]; [ split; reflexivity | ].
  destruct (taskCompleted r) eqn:Hdone.
  - rewrite <- Hdone. apply findDuplicate_keeps.
  - cbn [fst snd]. split; [ exact Hdone | reflexivity ].
Qed.

(** The e-mail of a response that went through the duplicate check is
    the e-mail of the value that was parsed. *)
Lemma mailFor_checked scout parsed embedding similar :
  mailFor scout emailGoesOut
    (Some (snd (checkDuplicates parsed embedding similar)))
    (fst (checkDuplicates parsed embedding similar))
  = if taskCompleted parsed && negb (fst (checkDuplicates parsed embedding similar))
    then [{| email_scout := scout; email_response := parsed; delivered := emailGoesOut |}]
    else [].
Proof.
  destruct (checkDuplicates_keeps parsed embedding similar) as [Hcompleted Hsame].
  unfold mailFor. rewrite Hcompleted.
  destruct (fst (checkDuplicates parsed embedding similar)).
  - rewrite !andb_false_r. reflexivity.
  - rewrite (Hsame eq_refl). reflexivity.
Qed.

(** The summary is generated for a value that is not [null]; reading
    [taskCompleted] of [null] throws.  Either way only the clock and
    the summary change. *)
Lemma generateSummary_reads (J : St -> Prop) r :
  (forall c st, J st -> J (set_clock c st)) ->
  (forall v st, J st -> J (set_summaryText v st)) ->
  (forall v st, J st -> J (set_summaryEmbedding v st)) ->
  triple J (generateSummary r)
         (fun _ st => J st /\ r <> JNull)
         (fun _ st => J st /\ r = JNull).
Proof.
  intros Hclock Htext Hembedding. unfold generateSummary.
  assert (Hrest : forall completed,
             r <> JNull ->
             triple J
               (when (Js.truthy completed)
                  (try_catch
                     (summaryResponse <- fetch summary_reply ;;
                      if ok summaryResponse
                      then
                        summary <- readJson summaryResponse ;;
                        modify (set_summaryText (Some (JsString.trim summary))) ;;
                        embeddingResponse <- fetch embedding_reply ;;
                        if ok embeddingResponse
                        then
                          embedding <- readJson embeddingResponse ;;
                          modify (set_summaryEmbedding embedding)
                        else
                          readText embeddingResponse ;;
                          ret tt
                      else
                        readText summaryResponse ;;
                        ret tt)
                     (fun _ => ret tt)))
               (fun _ st => J st /\ r <> JNull)
               (fun _ st => J st /\ r = JNull)).
  { intros completed Hvalue.
    apply triple_weaken with (P := J) (Q := fun _ => J) (E := fun _ _ => False);
      [ | auto | auto | intros ? ? [] ].
    apply triple_when; [ intros _ | auto ].
    apply triple_try_catch with (R := fun _ => J); [ | intros e; apply triple_ret; auto ].
    as_keeps.
    keep ltac:(first [ apply Hclock | apply Htext | apply Hembedding ]; assumption)
         nothing_known. }
  destruct r; cbn [Js.get];
    try (apply triple_bind_lift_ok; apply Hrest; discriminate).
  apply triple_bind_lift_throw. auto.
Qed.

(** The branch of the final message, from a state in which [sent] are
    the e-mails handed over so far. *)
Lemma finalizeRun_mails scout executionId similar assistantMessage sent :
  triple (fun st => outbox st = sent)
         (finalizeRun scout executionId similar assistantMessage)
         (fun _ st =>
            continueLoop st = false
            /\ parseScoutResponse (content assistantMessage) <> JNull
            /\ isDuplicate st
               = fst (checkDuplicates (parseScoutResponse (content assistantMessage))
                                      (summaryEmbedding st) similar)
            /\ scoutResponse st
               = Some (snd (checkDuplicates (parseScoutResponse (content assistantMessage))
                                            (summaryEmbedding st) similar))
            /\ outbox st
               = (sent ++ mailOf scout (parseScoutResponse (content assistantMessage)) st)%list)
         (fun _ st =>
            continueLoop st = false
            /\ parseScoutResponse (content assistantMessage) = JNull
            /\ scoutResponse st = Some JNull
            /\ outbox st = sent).
Proof.
  unfold finalizeRun. cbv zeta.
  generalize (parseScoutResponse (content assistantMessage)). intros parsed.
  apply triple_bind with (R := fun _ st => outbox st = sent /\ continueLoop st = false).
  { apply triple_modify. intros st H. cbn. auto. }
  intros _.
  apply triple_bind
    with (R := fun _ st => (outbox st = sent /\ continueLoop st = false)
                           /\ scoutResponse st = Some parsed).
  { apply triple_modify. intros st H. cbn. auto. }
  intros _.
  walk ltac:(cbn; assumption) nothing_known stop_at_generate.
  apply triple_bind
    with (R := fun _ st => ((outbox st = sent /\ continueLoop st = false)
                            /\ scoutResponse st = Some parsed)
                           /\ parsed <> JNull).
  { eapply triple_weaken.
    - apply (generateSummary_reads
               (fun st => (outbox st = sent /\ continueLoop st = false)
                          /\ scoutResponse st = Some parsed)); intros; cbn; assumption.
    - auto.
    - auto.
    - intros e st [[[Hout Hcontinue] Hresponse] ->]. auto. }
  intros _ st [[[Hout Hcontinue] Hresponse] Hvalue].
  unfold bind, modify, gets, now, completeExecution, updateExecution, notify, try_catch,
    sendScoutSuccessEmail, ret, mailOf.
  cbn [summaryEmbedding set_isDuplicate].
  pose proof (mailFor_checked scout parsed (summaryEmbedding st) similar) as Hmail.
  destruct (checkDuplicates_keeps parsed (summaryEmbedding st) similar)
    as [Hcompleted Hsame].
  destruct (checkDuplicates parsed (summaryEmbedding st) similar) as [duplicate final]
    eqn:Hcheck.
  cbn [fst snd] in *. unfold mailFor in Hmail.
  destruct (fitsVector (summaryEmbedding st));
    destruct (taskCompleted final && negb duplicate) eqn:Hsend;
    rewrite Hcompleted in Hsend;
    destruct email_reply eqn:Hreply; unfold emailGoesOut in *; rewrite ?Hreply in *;
    cbn; rewrite ?Hcheck; cbn [fst snd]; rewrite ?Hsend in *; cbn in Hmail |- *;
    rewrite ?Hout, ?Hmail, ?app_nil_r; auto.
Qed.

(** What follows from it for the run: the final response is the one of
    the message, and the e-mail is the one of that response. *)
Lemma finalizeRun_answers scout executionId similar assistantMessage sent :
  finalMessage assistantMessage ->
  triple (fun st => outbox st = sent)
         (finalizeRun scout executionId similar assistantMessage)
         (fun _ st => mailedAnswer scout sent st /\ continueLoop st = false)
         (fun _ st => mailedAnswer scout sent st).
Proof.
  intros Hfinal st0 Hout0.
  pose proof (finalizeRun_mails scout executionId similar assistantMessage sent st0 Hout0)
    as Hrun.
  destruct (finalizeRun scout executionId similar assistantMessage st0) as [[[] | e] st].
  - destruct Hrun as (Hcontinue & _ & Hduplicate & Hresponse & Hout).
    split; [ | exact Hcontinue ].
    unfold mailedAnswer, mailed, answered, mailOf in *.
    rewrite Hresponse, Hout.
    pose proof (mailFor_checked scout (parseScoutResponse (content assistantMessage))
                  (summaryEmbedding st) similar) as Hmail.
    destruct (checkDuplicates_keeps (parseScoutResponse (content assistantMessage))
                (summaryEmbedding st) similar) as [Hcompleted Hsame].
    rewrite <- Hduplicate in Hmail, Hsame. split.
    + rewrite Hmail. reflexivity.
    + intros final [= <-]. exists assistantMessage. auto.
  - destruct Hrun as (_ & Hnull & Hresponse & Hout).
    unfold mailedAnswer, mailed, answered.
    rewrite Hresponse, Hout. split.
    + cbn. rewrite app_nil_r. reflexivity.
    + intros final [= <-]. exists assistantMessage. rewrite Hnull. auto.
Qed.

Lemma quiet_mailed scout sent st : quiet sent st -> mailedAnswer scout sent st.
Proof.
  unfold quiet, mailedAnswer, mailed, answered. intros [-> ->]. cbn.
  rewrite app_nil_r. split; [ reflexivity | discriminate ].
Qed.

Lemma processToolCalls_quiet scout executionId key maxAgeMs calls sent :
  keeps (quietLoop sent) (fun _ => mailedAnswer scout sent)
        (processToolCalls scout executionId key maxAgeMs calls).
Proof.
  assert (Hthrow : forall st, quietLoop sent st -> mailedAnswer scout sent st)
    by (intros st [H _]; apply quiet_mailed, H).
  keep mail_leaf nothing_known.
Qed.

Lemma agentIteration_mails scout executionId key maxAgeMs similar sent :
  triple (fun st => mailedAnswerLoop scout sent st /\ continueLoop st = true)
         (agentIteration scout executionId key maxAgeMs similar)
         (fun _ => mailedAnswerLoop scout sent)
         (fun _ => mailedAnswer scout sent).
Proof.
  assert (Hthrow : forall st, quietLoop sent st -> mailedAnswer scout sent st)
    by (intros st [H _]; apply quiet_mailed, H).
  apply triple_weaken
    with (P := quietLoop sent)
         (Q := fun _ => mailedAnswerLoop scout sent)
         (E := fun _ => mailedAnswer scout sent); [ | | auto | auto ].
  2:{ intros st [[[Hmailed _] Hnone] Hcontinue]. specialize (Hnone Hcontinue).
      unfold quietLoop, quiet, mailed in *. rewrite Hnone in Hmailed. cbn in Hmailed.
      rewrite app_nil_r in Hmailed. auto. }
  unfold agentIteration.
  apply triple_bind_keeps; [ keep mail_leaf nothing_known | intros _ ].
  apply triple_bind_keeps; [ keep mail_leaf nothing_known | intros count ].
  eapply triple_bind.
  { apply triple_fetch; [ intros; mail_leaf | intros; auto ]. }
  intros response. apply triple_pure. intros [Hreply Hintime].
  destruct (ok response) eqn:Hok; cbn [negb].
  2:{ apply triple_weaken
        with (P := quietLoop sent) (Q := fun _ => quietLoop sent)
             (E := fun _ => mailedAnswer scout sent);
        [ | auto | intros _ st [H _]; split; [ apply quiet_mailed, H | intros _; apply H ]
          | auto ].
      as_keeps. keep mail_leaf nothing_known. }
  eapply triple_bind.
  { apply triple_readJson; [ intros; mail_leaf | intros; auto ]. }
  intros assistantMessage. apply triple_pure. intros Hbody.
  destruct (tool_calls assistantMessage) as [| toolCall rest] eqn:Hcalls.
  - (* the final message *)
    eapply triple_weaken;
      [ apply (finalizeRun_answers scout executionId similar assistantMessage sent)
      | | | auto ].
    + exists count, response. auto.
    + intros st [[Hout _] _]. exact Hout.
    + intros _ st [Hmailed Hcontinue]. split; [ exact Hmailed | ].
      rewrite Hcontinue. discriminate.
  - (* tool calls *)
    eapply triple_weaken;
      [ apply (processToolCalls_quiet _ _ _ _ _ sent)
      | auto | | auto ].
    intros _ st [Hquiet Hcontinue]. split; [ apply quiet_mailed, Hquiet | ].
    intros _. apply Hquiet.
Qed.

Lemma runBody_mails scout executionId sent :
  triple (quiet sent) (runBody scout executionId)
         (fun _ => mailedAnswer scout sent)
         (fun _ => mailedAnswer scout sent).
Proof.
  assert (Hthrow : forall st, quiet sent st -> mailedAnswer scout sent st)
    by (intros st H; apply quiet_mailed, H).
  unfold runBody.
  walk mail_leaf nothing_known stop_at_loop.
  apply triple_bind with (R := fun _ => mailedAnswerLoop scout sent).
  - eapply triple_weaken;
      [ apply (keeps_agentLoop_while (mailedAnswerLoop scout sent)
                 (fun _ => mailedAnswer scout sent)), agentIteration_mails
      | | auto | auto ].
    intros st Hquiet. split; [ apply quiet_mailed, Hquiet | intros _; apply Hquiet ].
  - intros _.
    apply triple_weaken
      with (P := mailedAnswer scout sent)
           (Q := fun _ => mailedAnswer scout sent)
           (E := fun _ => mailedAnswer scout sent); [ | | auto | auto ].
    2:{ intros st [H _]. exact H. }
    as_keeps. keep mail_leaf nothing_known.
Qed.

Lemma runFailed_mails scout executionId error sent :
  preserves (mailedAnswer scout sent) (runFailed scout executionId error).
Proof. keep mail_leaf nothing_known. Qed.

Lemma executeScoutAgent_mails scout sent :
  triple (fun st => outbox st = sent) (executeScoutAgent scout)
         (fun _ => mailedAnswer scout sent)
         (fun _ => mailedAnswer scout sent).
Proof.
  unfold executeScoutAgent.
  apply triple_bind with (R := fun _ => quiet sent).
  { apply triple_modify. intros st Hout. split; [ exact Hout | reflexivity ]. }
  intros _.
  assert (Hthrow : forall st, quiet sent st -> mailedAnswer scout sent st)
    by (intros st H; apply quiet_mailed, H).
  apply triple_bind_keeps; [ keep mail_leaf nothing_known | intros inserted ].
  destruct inserted as [executionId |].
  - exact (triple_try_catch _ _ _ _ _ _
             (runBody_mails scout executionId sent)
             (fun error => runFailed_mails scout executionId error sent)).
  - apply triple_ret. exact Hthrow.
Qed.

(** ** A run whose first chat completion is a final message *)

Lemma agentIteration_answers_at_once scout executionId key maxAgeMs similar sent
    response assistantMessage :
  outcome (chat_reply 1) = Responded response ->
  (elapsed (chat_reply 1) < 60000)%Z ->
  ok response = true ->
  body response = Ok assistantMessage ->
  tool_calls assistantMessage = [] ->
  triple (fun st => outbox st = sent /\ loopCount st = 0)
         (agentIteration scout executionId key maxAgeMs similar)
         (fun _ st =>
            outbox st
            = (sent ++ mailOf scout (parseScoutResponse (content assistantMessage)) st)%list
            /\ continueLoop st = false)
         (fun _ st =>
            outbox st
            = (sent ++ mailOf scout (parseScoutResponse (content assistantMessage)) st)%list).
Proof.
  intros Hreply Hintime Hok Hbody Hcalls. unfold agentIteration.
  apply triple_bind with (R := fun _ st => outbox st = sent /\ loopCount st = 1).
  { apply triple_modify. intros st [Hout Hcount]. cbn. rewrite Hcount. auto. }
  intros _.
  apply triple_bind with (R := fun count st => outbox st = sent /\ count = 1).
  { apply triple_gets. intros st [Hout Hcount]. auto. }
  intros count. apply triple_pure. intros ->.
  eapply triple_bind.
  { apply (triple_fetch_responded (fun st => outbox st = sent) _ _ _ Hreply Hintime).
    intros c st H. exact H. }
  intros got. apply triple_pure. intros ->. rewrite Hok. cbn [negb].
  eapply triple_bind.
  { apply (triple_readJson_value (fun st => outbox st = sent) _ _ _ Hbody).
    intros c st H. exact H. }
  intros message. apply triple_pure. intros ->. rewrite Hcalls.
  intros st Hout.
  pose proof (finalizeRun_mails scout executionId similar assistantMessage sent st Hout)
    as Hrun.
  destruct (finalizeRun scout executionId similar assistantMessage st) as [[[] | e] st'].
  - destruct Hrun as (Hcontinue & _ & _ & _ & Hmail). auto.
  - destruct Hrun as (_ & Hnull & _ & Hmail). rewrite Hnull, Hmail.
    unfold mailOf. cbn. rewrite app_nil_r. reflexivity.
Qed.

Lemma runBody_answers_at_once scout executionId sent st0 response assistantMessage :
  providerConfigured = true ->
  hasKey (Scout.user_id scout) st0 = true ->
  outcome (chat_reply 1) = Responded response ->
  (elapsed (chat_reply 1) < 60000)%Z ->
  ok response = true ->
  body response = Ok assistantMessage ->
  tool_calls assistantMessage = [] ->
  triple (fun st => outbox st = sent /\ user_preferences st = user_preferences st0)
         (runBody scout executionId)
         (fun _ st =>
            outbox st
            = (sent ++ mailOf scout (parseScoutResponse (content assistantMessage)) st)%list)
         (fun _ st =>
            outbox st
            = (sent ++ mailOf scout (parseScoutResponse (content assistantMessage)) st)%list).
Proof.
  intros Hprovider Hkey Hreply Hintime Hok Hbody Hcalls. unfold runBody.
  apply triple_bind
    with (R := fun _ st => outbox st = sent /\ user_preferences st = user_preferences st0).
  { intros st HP. destruct (getOpenAIConfig_configured st Hprovider) as [config ->].
    exact HP. }
  intros openaiConfig.
  apply triple_bind
    with (R := fun keyResult st => outbox st = sent /\ truthyStr (apiKey keyResult) = true).
  { intros st [Hout Hprefs].
    unfold hasKey, getFirecrawlKeyForUser, bind, gets, ret in *. cbn in *.
    rewrite Hprefs. auto. }
  intros keyResult. apply triple_pure. intros Husable. rewrite Husable. cbn [negb].
  walk ltac:(cbn; assumption) nothing_known stop_at_start.
  apply triple_bind with (R := fun _ st => outbox st = sent /\ continueLoop st = true).
  { apply triple_modify. intros st H. cbn. auto. }
  intros _.
  apply triple_bind
    with (R := fun _ st => (outbox st = sent /\ continueLoop st = true)
                           /\ loopCount st = 0).
  { apply triple_modify. intros st H. cbn. auto. }
  intros _.
  apply triple_bind
    with (R := fun _ st => (outbox st = sent /\ continueLoop st = true)
                           /\ loopCount st = 0).
  { apply triple_modify. intros st H. cbn. auto. }
  intros _.
  apply triple_bind
    with (R := fun _ st =>
            outbox st
            = (sent ++ mailOf scout (parseScoutResponse (content assistantMessage)) st)%list).
  { intros st [[Hout Hcontinue] Hcount].
    change maxLoops with 7. cbn [agentLoop]. unfold bind at 1 2, gets.
    rewrite Hcontinue, Hcount. change (true && (0 <? maxLoops)%nat) with true. cbv iota.
    refine (triple_bind _ _ _ _ _ _
              (agentIteration_answers_at_once scout executionId _ _ _ sent
                 response assistantMessage Hreply Hintime Hok Hbody Hcalls)
              _ st (conj Hout Hcount)).
    intros _ st' [Hmail Hdone]. unfold bind at 1 2, gets. rewrite Hdone. exact Hmail. }
  intros _. as_keeps. keep ltac:(unfold mailOf in *; cbn; assumption) nothing_known.
Qed.

Lemma executeScoutAgent_answers_at_once scout st executionId response assistantMessage :
  insert_reply = Some executionId ->
  providerConfigured = true ->
  hasKey (Scout.user_id scout) st = true ->
  outcome (chat_reply 1) = Responded response ->
  (elapsed (chat_reply 1) < 60000)%Z ->
  ok response = true ->
  body response = Ok assistantMessage ->
  tool_calls assistantMessage = [] ->
  outbox (snd (executeScoutAgent scout st))
  = (outbox st ++ mailOf scout (parseScoutResponse (content assistantMessage))
                        (snd (executeScoutAgent scout st)))%list.
Proof.
  intros Hinserted Hprovider Hkey Hreply Hintime Hok Hbody Hcalls.
  pose proof (insertExecution_some (Scout.id scout) executionId
                (snd (freshLocals st)) Hinserted) as Hinsert.
  rewrite (executeScoutAgent_started _ _ _ _ Hinsert).
  assert (Hrun : triple (fun s => outbox s = outbox st
                                  /\ user_preferences s = user_preferences st)
                   (try_catch (runBody scout executionId) (runFailed scout executionId))
                   (fun _ s =>
                      outbox s
                      = (outbox st
                         ++ mailOf scout (parseScoutResponse (content assistantMessage)) s)%list)
                   (fun _ s =>
                      outbox s
                      = (outbox st
                         ++ mailOf scout (parseScoutResponse (content assistantMessage)) s)%list)).
  { eapply triple_try_catch.
    - exact (runBody_answers_at_once scout executionId (outbox st) st response
               assistantMessage Hprovider Hkey Hreply Hintime Hok Hbody Hcalls).
    - intros error. as_keeps.
      keep ltac:(unfold mailOf in *; cbn; assumption) nothing_known. }
  match goal with
  | |- context [try_catch _ _ ?s1] =>
      specialize (Hrun s1 (conj eq_refl eq_refl));
      destruct (try_catch (runBody scout executionId) (runFailed scout executionId) s1)
        as [[[] | e] st']; exact Hrun
  end.
Qed.

(** C3.  The run hands a success e-mail to the sender exactly when it has
    a final structured response with [taskCompleted = true] and was not
    marked duplicate: the e-mails after the run are those before it,
    followed by that one e-mail in this case and by nothing in every
    other.  The final response is the value parsed from a message of the
    provider that calls no tool (with the note added when the run is
    marked duplicate).  The branch that handles such a message sends the
    e-mail of the parsed value exactly when its [taskCompleted] is
    truthy and the duplicate check, whose result is the mark, finds no
    duplicate.  And a run whose first chat completion is such a message
    does send that e-mail under that condition. *)
Theorem C3_success_email (scout : Scout.t) (st : St) :
  let st' := snd (executeScoutAgent scout st) in
  outbox st'
  = (outbox st ++
     match scoutResponse st' with
     | Some final =>
         if taskCompleted final && negb (isDuplicate st')
         then [{| email_scout := scout; email_response := final;
                  delivered := emailGoesOut |}]
         else []
     | None => []
     end)%list
  /\ (forall final,
        scoutResponse st' = Some final ->
        exists assistantMessage count response,
          outcome (chat_reply count) = Responded response
          /\ (elapsed (chat_reply count) < 60000)%Z
          /\ ok response = true
          /\ body response = Ok assistantMessage
          /\ tool_calls assistantMessage = []
          /\ taskCompleted final
             = taskCompleted (parseScoutResponse (content assistantMessage))
          /\ (isDuplicate st' = false ->
              final = parseScoutResponse (content assistantMessage)))
  /\ (forall executionId similar assistantMessage st0,
        let parsed := parseScoutResponse (content assistantMessage) in
        let after := snd (finalizeRun scout executionId similar assistantMessage st0) in
        outbox after
        = (outbox st0 ++
           if taskCompleted parsed && negb (isDuplicate after)
           then [{| email_scout := scout; email_response := parsed;
                    delivered := emailGoesOut |}]
           else [])%list
        /\ (parsed <> JNull ->
            isDuplicate after
            = fst (checkDuplicates parsed (summaryEmbedding after) similar)))
  /\ (forall executionId response assistantMessage,
        insert_reply = Some executionId ->
        providerConfigured = true ->
        hasKey (Scout.user_id scout) st = true ->
        outcome (chat_reply 1) = Responded response ->
        (elapsed (chat_reply 1) < 60000)%Z ->
        ok response = true ->
        body response = Ok assistantMessage ->
        tool_calls assistantMessage = [] ->
        let parsed := parseScoutResponse (content assistantMessage) in
        outbox st'
        = (outbox st ++
           if taskCompleted parsed && negb (isDuplicate st')
           then [{| email_scout := scout; email_response := parsed;
                    delivered := emailGoesOut |}]
           else [])%list).
Proof.
  cbv zeta.
  pose proof (triple_result _ _ _ _ st (executeScoutAgent_mails scout (outbox st)) eq_refl)
    as Hrun.
  assert (Hmailed : mailedAnswer scout (outbox st) (snd (executeScoutAgent scout st)))
    by (destruct (fst (executeScoutAgent scout st)); exact Hrun).
  destruct Hmailed as [Hmail Hanswered].
  split; [ exact Hmail | ].
  split.
  { intros final Hfinal.
    destruct (Hanswered final Hfinal)
      as (assistantMessage & (count & response & Hfacts) & Hcompleted & Hsame).
    exists assistantMessage, count, response. intuition. }
  split.
  { intros executionId similar assistantMessage st0.
    pose proof (finalizeRun_mails scout executionId similar assistantMessage (outbox st0)
                  st0 eq_refl) as Hbranch.
    destruct (finalizeRun scout executionId similar assistantMessage st0)
      as [[[] | e] after]; cbn [snd].
    - destruct Hbranch as (_ & _ & Hduplicate & _ & Hout). split; [ exact Hout | auto ].
    - destruct Hbranch as (_ & Hnull & _ & Hout). rewrite Hnull, Hout. cbn.
      rewrite app_nil_r. split; [ reflexivity | intros H; contradiction H; reflexivity ]. }
  intros executionId response assistantMessage.
  apply executeScoutAgent_answers_at_once.
Qed.

End SuccessEmail.

(** A run that finds something new at once sends one e-mail. *)
Lemma C3_witness_new_finding :
  let run := @executeScoutAgent Sample.runtime (Sample.findsAtOnce "Model Alpha released.")
               Sample.scoutS1 Sample.store0 in
  (@providerConfigured (Sample.findsAtOnce "Model Alpha released.") = true
   /\ hasKey "U1" Sample.store0 = true
   /\ @chat_reply (Sample.findsAtOnce "Model Alpha released.") 1
      = Sample.answers Sample.foundJson)
  /\ outbox (snd run)
     = [{| email_scout := Sample.scoutS1; email_response := Sample.found; delivered := true |}].
Proof.
  split; [ repeat split | ].
  pose proof (proj2 (proj2 (proj2
                (@C3_success_email Sample.runtime (Sample.findsAtOnce "Model Alpha released.")
                   Sample.scoutS1 Sample.store0)))
                "E1"
                {| status := 200; statusText := "OK"; reading := 20%Z;
                   text := Ok EmptyString;
                   body := Ok {| content := Some Sample.foundJson; tool_calls := [] |} |}
                {| content := Some Sample.foundJson; tool_calls := [] |}
                eq_refl eq_refl eq_refl eq_refl eq_refl eq_refl eq_refl eq_refl) as Hsent.
  cbv zeta in Hsent. cbv zeta. rewrite Hsent. vm_compute. reflexivity.
Defined.

(** A run that finds something new sends one e-mail. *)
Example new_finding_is_mailed :
  let run := @executeScoutAgent Sample.runtime (Sample.findsAtOnce "Model Alpha released.")
               Sample.scoutS1 Sample.store0 in
  scoutResponse (snd run) = Some Sample.found
  /\ isDuplicate (snd run) = false
  /\ outbox (snd run)
     = [{| email_scout := Sample.scoutS1; email_response := Sample.found; delivered := true |}].
Proof. vm_compute. repeat split. Qed.

(** A run whose summary is as that of an earlier finding is completed, marked
    duplicate and annotated, and sends no e-mail. *)
Example duplicate_is_not_mailed :
  let run := @executeScoutAgent Sample.runtime (Sample.findsAtOnce "Model Alpha released.")
               Sample.scoutS1 Sample.storeWithFinding in
  isDuplicate (snd run) = true
  /\ map Execution.status (scout_executions (snd run)) = [Status.completed; Status.completed]
  /\ option_map response (scoutResponse (snd run))
     = Some (Some (JStr
          ("## New AI model released" ++ JsString.newline ++ JsString.newline ++ "---"
             ++ JsString.newline
             ++ "**Note**: This finding appears very similar to a previous result from 1/1/2026: "
             ++ JsString.dquote ++ "Model Alpha released" ++ JsString.dquote
             ++ " (similarity: 100.0%)")))
  /\ outbox (snd run) = [].
Proof. vm_compute. repeat split. Qed.

(** The assistant answers with the text null: it parses, to [null], the
    step of the answer is written, and the run fails on the first read of
    a property. *)
Example null_answer_fails_the_run :
  let run := @executeScoutAgent Sample.runtime
               {| env := Sample.environment; insert_reply := Some "E1";
                  chat_reply := fun _ => Sample.answers "null";
                  tool_reply := fun _ => Sample.noWebResults;
                  summary_reply := Sample.replied 200 "OK" EmptyString (Ok "A summary.");
                  embedding_reply :=
                    Sample.replied 200 "OK" EmptyString (Ok (Some Sample.axis));
                  email_reply := None |}
               Sample.scoutS1 Sample.store0 in
  map Execution.status (scout_executions (snd run)) = [Status.failed]
  /\ map Step.output_data (scout_execution_steps (snd run))
     = [None; Some (OutResponse JNull)]
  /\ map Scout.consecutive_failures (scouts (snd run)) = [1; 2]
  /\ outbox (snd run) = [].
Proof. vm_compute. repeat split. Qed.
(* ===================================================================== *)
(** * Summary and embedding of a completed execution (agent.ts, "Generate
      one-sentence summary and embedding") *)
(* ===================================================================== *)

Lemma rows_update (R : Execution.t -> Prop) p f (rows : list Execution.t) :
  (forall e, R e -> R (f e)) ->
  (forall e, In e rows -> R e) ->
  forall e, In e (updateWhere p f rows) -> R e.
Proof.
  intros Hf Hrows e Hin. apply In_updateWhere in Hin.
  destruct Hin as [x [Hx ->]]. destruct (p x); auto.
Qed.

Lemma rows_insert (R : Execution.t -> Prop) e (rows : list Execution.t) :
  R e ->
  (forall x, In x rows -> R x) ->
  forall x, In x (rows ++ [e])%list -> R x.
Proof.
  intros He Hrows x Hin. apply in_app_or in Hin.
  destruct Hin as [Hin | [<- | []]]; auto.
Qed.

Ltac text_leaf :=
  cbn beta;
  match goal with
  | H : textsWithinLimit _ |- _ => destruct H as [? ?]
  end;
  split;
  [ cbn;
    first
      [ assumption
      | apply (rows_update (fun e => textWithinLimit (Execution.summary_text e)));
        [ intros ? ?; assumption | assumption ]
      | apply (rows_insert (fun e => textWithinLimit (Execution.summary_text e)));
        [ exact I | assumption ] ]
  | cbn; first [ assumption | exact I ] ].

Ltac fit_leaf :=
  unfold embeddingsFit in *; cbn;
  first
    [ assumption
    | apply (rows_update (fun e => embeddingWithinLimit (Execution.summary_embedding e)));
      [ intros ? ?; assumption | assumption ]
    | apply (rows_insert (fun e => embeddingWithinLimit (Execution.summary_embedding e)));
      [ exact I | assumption ] ].

Ltac stop_at_summary m :=
  lazymatch m with
  | gets summaryText => fail
  | _ => idtac
  end.

Section SummaryLimits.
Context {host : Host} {net : Oracle}.

(** The store takes the update that completes the execution only with
    an embedding that fits. *)
Lemma completeExecution_fits executionId t r txt embedding E :
  keeps embeddingsFit E (completeExecution executionId t r txt embedding).
Proof.
  unfold completeExecution.
  destruct (fitsVector embedding) eqn:Hfits; [ | apply keeps_ret ].
  unfold updateExecution. apply keeps_modify. intros st Hrows.
  unfold embeddingsFit in *. cbn.
  apply (rows_update (fun e => embeddingWithinLimit (Execution.summary_embedding e)));
    [ | exact Hrows ].
  intros e _. cbn. destruct embedding as [v |]; [ | exact I ].
  apply Nat.eqb_eq, Hfits.
Qed.

Lemma completeExecution_text executionId t r txt embedding E :
  textWithinLimit txt ->
  keeps textsWithinLimit E (completeExecution executionId t r txt embedding).
Proof.
  intros Htxt. unfold completeExecution.
  destruct (fitsVector embedding); [ | apply keeps_ret ].
  unfold updateExecution. apply keeps_modify. intros st [Hrows Hlocal].
  split; [ | exact Hlocal ]. cbn.
  apply (rows_update (fun e => textWithinLimit (Execution.summary_text e)));
    [ | exact Hrows ].
  intros e _. exact Htxt.
Qed.

(** Whatever the services answer, no execution is stored with an
    embedding that does not fit. *)
Lemma executeScoutAgent_fits scout :
  preserves embeddingsFit (executeScoutAgent scout).
Proof. keep fit_leaf ltac:(apply completeExecution_fits). Qed.

Lemma textsWithinLimit_clock c st : textsWithinLimit st -> textsWithinLimit (set_clock c st).
Proof. intros H. text_leaf. Qed.

Lemma generateSummary_limits r :
  summaryKeepsLimit ->
  preserves textsWithinLimit (generateSummary r).
Proof.
  intros Htext. unfold generateSummary, preserves.
  apply keeps_bind; [ apply keeps_lift; auto | intros completed ].
  apply keeps_when. apply keeps_try_catch; [ | intros _; apply keeps_ret ].
  unfold preserves, keeps.
  eapply triple_bind.
  { apply triple_fetch; [ intros; apply textsWithinLimit_clock; assumption | auto ]. }
  intros summaryResponse. apply triple_pure. intros [Hreply _].
  destruct (ok summaryResponse).
  2:{ as_keeps. keep text_leaf nothing_known. }
  eapply triple_bind.
  { apply triple_readJson; [ intros; apply textsWithinLimit_clock; assumption | auto ]. }
  intros summary. apply triple_pure. intros Hbody.
  specialize (Htext summaryResponse summary Hreply Hbody).
  apply triple_bind with (R := fun _ => textsWithinLimit).
  { apply triple_modify. intros st [Hrows _]. split; [ exact Hrows | exact Htext ]. }
  intros _. as_keeps. keep text_leaf nothing_known.
Qed.

Lemma finalizeRun_limits scout executionId similar assistantMessage :
  summaryKeepsLimit ->
  preserves textsWithinLimit (finalizeRun scout executionId similar assistantMessage).
Proof.
  intros Hprovider. unfold preserves, keeps, finalizeRun. cbv zeta.
  walk text_leaf ltac:(apply generateSummary_limits; exact Hprovider) stop_at_summary.
  apply triple_bind
    with (R := fun txt st => textsWithinLimit st /\ textWithinLimit txt).
  { apply triple_gets. intros st HJ. split; [ exact HJ | apply HJ ]. }
  intros txt. apply triple_pure. intros Htxt.
  as_keeps. keep text_leaf ltac:(apply completeExecution_text; exact Htxt).
Qed.

Lemma executeScoutAgent_limits scout :
  summaryKeepsLimit ->
  preserves textsWithinLimit
    (inserted <- insertExecution (Scout.id scout) ;;
     match inserted with
     | Some executionId =>
         try_catch (runBody scout executionId) (runFailed scout executionId)
     | None => ret tt
     end).
Proof.
  intros Hprovider.
  keep text_leaf ltac:(apply finalizeRun_limits; exact Hprovider).
Qed.

(** C5, as the code has it.  The store takes as [summary_embedding] only
    [null] or a vector of 1536 dimensions: when that holds of the
    executions stored before a run, it holds of every execution after
    it, whatever the services answer.  The [summary_text] is the trimmed
    text of the summary completion, stored as it is, and its length is
    checked nowhere: the limit of 150 characters holds of what a run
    stores as far as the provider respects it.  When it does, and every
    execution stored before has a [summary_text] that is [null] or of at
    most 150 characters, so has every execution after the run. *)
Theorem C5_summary_within_limits (scout : Scout.t) (st : St) :
  (forall e, In e (scout_executions st) ->
     match Execution.summary_embedding e with
     | Some v => List.length v = 1536
     | None => True
     end) ->
  let st' := snd (executeScoutAgent scout st) in
  (forall e, In e (scout_executions st') ->
     match Execution.summary_embedding e with
     | Some v => List.length v = 1536
     | None => True
     end)
  /\ (summaryKeepsLimit ->
      (forall e, In e (scout_executions st) ->
         match Execution.summary_text e with
         | Some s => String.length s <= 150
         | None => True
         end) ->
      forall e, In e (scout_executions st') ->
        match Execution.summary_text e with
        | Some s => String.length s <= 150
        | None => True
        end).
Proof.
  intros Hfit. cbv zeta. split.
  - exact (preserves_result _ _ st (executeScoutAgent_fits scout) Hfit).
  - intros Hprovider Hrows.
    unfold executeScoutAgent, bind at 1, freshLocals, modify.
    assert (Hfresh : textsWithinLimit
              (set_stepNumber 0 (set_firecrawlApiCallsCount 0 (set_loopCount 0
                (set_continueLoop true (set_consecutiveErrors 0 (set_scoutResponse None
                  (set_summaryText None (set_summaryEmbedding None
                    (set_isDuplicate false st))))))))))
      by (split; [ exact Hrows | exact I ]).
    revert Hfresh.
    generalize (set_stepNumber 0 (set_firecrawlApiCallsCount 0 (set_loopCount 0
                (set_continueLoop true (set_consecutiveErrors 0 (set_scoutResponse None
                  (set_summaryText None (set_summaryEmbedding None
                    (set_isDuplicate false st))))))))).
    intros st1 Hfresh.
    exact (proj1 (preserves_result _ _ st1 (executeScoutAgent_limits scout Hprovider)
                    Hfresh)).
Qed.

End SummaryLimits.

(** A provider that keeps the limit: the summary of the run is stored
    within it, with an embedding of 1536 dimensions. *)
Lemma C5_witness_short_summary :
  let run := @executeScoutAgent Sample.runtime (Sample.findsAtOnce "Model Alpha released.")
               Sample.scoutS1 Sample.storeWithFinding in
  @summaryKeepsLimit (Sample.findsAtOnce "Model Alpha released.")
  /\ map Execution.summary_text (scout_executions (snd run))
     = [Some "Model Alpha released"; Some "Model Alpha released."]
  /\ (forall e, In e (scout_executions (snd run)) ->
        match Execution.summary_embedding e with
        | Some v => List.length v = 1536
        | None => True
        end)
  /\ (forall e, In e (scout_executions (snd run)) ->
        match Execution.summary_text e with
        | Some s => String.length s <= 150
        | None => True
        end).
Proof.
  assert (Hprovider : @summaryKeepsLimit (Sample.findsAtOnce "Model Alpha released.")).
  { intros response summary Hreply Hbody.
    cbn in Hreply. injection Hreply as <-. cbn in Hbody. injection Hbody as <-.
    apply Nat.leb_le. reflexivity. }
  assert (Hfit : forall e, In e (scout_executions Sample.storeWithFinding) ->
                   match Execution.summary_embedding e with
                   | Some v => List.length v = 1536
                   | None => True
                   end).
  { intros e [<- | []]. reflexivity. }
  assert (Hrows : forall e, In e (scout_executions Sample.storeWithFinding) ->
                    match Execution.summary_text e with
                    | Some s => String.length s <= 150
                    | None => True
                    end).
  { intros e [<- | []]. apply Nat.leb_le. reflexivity. }
  pose proof (@C5_summary_within_limits Sample.runtime
                (Sample.findsAtOnce "Model Alpha released.")
                Sample.scoutS1 Sample.storeWithFinding Hfit) as [Hembeddings Htexts].
  split; [ exact Hprovider | ].
  split; [ vm_compute; reflexivity | ].
  split; [ exact Hembeddings | exact (Htexts Hprovider Hrows) ].
Defined.

(** C5 as stated fails: the summary completion comes back with 156
    characters and is stored as it is with the completed execution. *)
Lemma C5_counterexample_long_summary :
  let run := @executeScoutAgent Sample.runtime (Sample.findsAtOnce Sample.longSummary)
               Sample.scoutS1 Sample.store0 in
  let stored := nth 0 (scout_executions (snd run)) Sample.executionE0 in
  In stored (scout_executions (snd run))
  /\ Execution.status stored = Status.completed
  /\ Execution.summary_text stored = Some Sample.longSummary
  /\ String.length Sample.longSummary = 156
  /\ ~ (match Execution.summary_text stored with
        | Some s => String.length s <= 150
        | None => True
        end).
Proof.
  cbv zeta.
  split; [ vm_compute; left; reflexivity | ].
  split; [ vm_compute; reflexivity | ].
  split; [ vm_compute; reflexivity | ].
  split; [ vm_compute; reflexivity | ].
  assert (Hstored :
            Execution.summary_text
              (nth 0 (scout_executions
                        (snd (@executeScoutAgent Sample.runtime
                                (Sample.findsAtOnce Sample.longSummary)
                                Sample.scoutS1 Sample.store0)))
                   Sample.executionE0)
            = Some Sample.longSummary) by (vm_compute; reflexivity).
  rewrite Hstored. intros Hshort. apply Nat.leb_le in Hshort. discriminate Hshort.
Qed.

(** An embedding of three numbers does not fit the column: the store
    refuses the update that completes the execution, which stays as it was
    inserted, while the e-mail goes out and the scout counts a success. *)
Example short_embedding_is_refused :
  let run := @executeScoutAgent Sample.runtime
               {| env := Sample.environment; insert_reply := Some "E1";
                  chat_reply := fun _ => Sample.answers Sample.foundJson;
                  tool_reply := fun _ => Sample.noWebResults;
                  summary_reply := Sample.replied 200 "OK" EmptyString (Ok "A summary.");
                  embedding_reply :=
                    Sample.replied 200 "OK" EmptyString
                      (Ok (Some [1%float; 0%float; 0%float]));
                  email_reply := None |}
               Sample.scoutS1 Sample.store0 in
  map Execution.status (scout_executions (snd run)) = [Status.running]
  /\ map Execution.summary_embedding (scout_executions (snd run)) = [None]
  /\ List.length (outbox (snd run)) = 1
  /\ map Scout.consecutive_failures (scouts (snd run)) = [0; 2].
Proof. vm_compute. repeat split. Qed.
(* ===================================================================== *)
(** * A 402 from Firecrawl (agent.ts, "Check for 402 Payment Required
      errors") *)
(* ===================================================================== *)

Section PaymentRequired.
Context {host : Host} {net : Oracle}.

(** The [try] around the execution of a tool catches everything thrown in
    it, the error of the 402 branch included: the execution of a tool
    never throws. *)
Lemma executeTool_returns scout key maxAgeMs toolName toolArgs st :
  exists result, fst (executeTool scout key maxAgeMs toolName toolArgs st) = Ok result.
Proof.
  unfold executeTool, try_catch.
  match goal with
  | |- context [let (r, st') := ?body st in _] => destruct (body st) as [[result | e] st1]
  end.
  - exists result. reflexivity.
  - eexists. reflexivity.
Qed.

End PaymentRequired.

(** C1 on the code: a run whose first search meets a 402.  The key is
    marked invalid and both scouts of the user are paused; but the error
    thrown for the 402 is caught by the [catch] around the tool and becomes
    the result of the tool call, the loop goes on to a second iteration,
    and the run ends as [completed] with no error message and with
    [consecutive_failures] of the scout at 0. *)
Theorem C1_payment_required_run_goes_on :
  let run := @executeScoutAgent Sample.runtime Sample.creditsRunOut
               Sample.scoutS1 Sample.store0 in
  map Preferences.firecrawl_key_status (user_preferences (snd run)) = [key_invalid]
  /\ map Scout.is_active (scouts (snd run)) = [false; false]
  /\ map Step.error_message (scout_execution_steps (snd run))
     = [None; Some creditsExhaustedMessage; None]
  /\ loopCount (snd run) = 2
  /\ map Execution.status (scout_executions (snd run)) = [Status.completed]
  /\ map Execution.error_message (scout_executions (snd run)) = [None]
  /\ map Scout.consecutive_failures (scouts (snd run)) = [0; 2].
Proof. vm_compute. repeat split. Qed.

(* ===================================================================== *)
(** * The entry point as a whole (index.ts, [serve]) *)
(* ===================================================================== *)

Lemma fetchScout_single scoutId rows scout :
  @fetchScout scoutId rows = Some scout ->
  filter (fun s => String.eqb (Scout.id s) scoutId) rows = [scout]
  /\ In scout rows /\ Scout.id scout = scoutId.
Proof.
  unfold fetchScout. intros Hfetch.
  destruct (filter _ rows) as [| x [| y l]] eqn:Hfilter; try discriminate.
  injection Hfetch as ->. split; [ reflexivity | ].
  assert (Hin : In scout (filter (fun s => String.eqb (Scout.id s) scoutId) rows))
    by (rewrite Hfilter; left; reflexivity).
  apply filter_In in Hin. destruct Hin as [Hin Hid].
  apply String.eqb_eq in Hid. auto.
Qed.

Lemma truthyStr_shown (o : option string) :
  truthyStr o = true -> o = Some (showStr o).
Proof. destruct o; [ reflexivity | discriminate ]. Qed.

Section EntryPoint.
Context {host : Host} {net : Oracle}.

(** [executeScoutAgent] catches what its [try] block throws, and its
    [catch] block throws nothing: the promise it returns is never
    rejected. *)
Lemma executeScoutAgent_returns scout st :
  fst (executeScoutAgent scout st) = Ok tt.
Proof.
  unfold executeScoutAgent, insertExecution.
  destruct insert_reply as [newId |].
  - unfold bind, freshLocals, now, gets, modify, ret, try_catch. cbn [fst snd].
    match goal with
    | |- context [runBody scout newId ?s] =>
        destruct (runBody scout newId s) as [[[] | error] st2]
    end.
    + reflexivity.
    + apply runFailed_writes.
  - reflexivity.
Qed.

Ltac serve_answers :=
  do 2 eexists; (split; [ reflexivity | cbn; auto ]).

Lemma serve_cases (req : Request) (st : St) :
  exists response st',
    serve req st = (Ok response, st')
    /\ match http_body response with
       | Success _ _ => http_status response = 200
       | PreflightOk => http_status response = 200 /\ st' = st
       | Conflict _ _ _ => http_status response = 409 /\ st' = st
       | Failure _ => http_status response = 500 /\ st' = st
       end.
Proof.
  unfold serve.
  destruct (String.eqb (method req) "OPTIONS"); [ serve_answers | ].
  unfold try_catch, bind, gets, throw, ret. cbv zeta. fold (requestedScoutId req).
  destruct (negb (truthyStr (env "SUPABASE_URL"))
            || negb (truthyStr (env "SUPABASE_SERVICE_ROLE_KEY")));
    [ serve_answers | ].
  destruct (negb (truthyStr (requestedScoutId req))); [ serve_answers | ].
  destruct (fetchScout _ (scouts st)) as [scout |]; [ | serve_answers ].
  destruct (negb (Scout.is_active scout)); [ serve_answers | ].
  destruct (negb (isComplete scout)); [ serve_answers | ].
  destruct (runningExecutionOf _ (scout_executions st)); [ serve_answers | ].
  pose proof (executeScoutAgent_returns scout st) as Hrun.
  destruct (executeScoutAgent scout st) as [[[] | e] st']; cbn [fst] in Hrun;
    [ | discriminate ].
  serve_answers.
Qed.

Lemma serve_success (req : Request) (st st' : St)
    (response : HttpResponse) (scoutId title : string) :
  serve req st = (Ok response, st') ->
  http_body response = Success scoutId title ->
  exists scout,
    requestedScoutId req = Some scoutId
    /\ filter (fun s => String.eqb (Scout.id s) scoutId) (scouts st) = [scout]
    /\ Scout.title scout = title
    /\ Scout.is_active scout = true
    /\ isComplete scout = true
    /\ runningExecutionOf scoutId (scout_executions st) = None
    /\ truthyStr (env "SUPABASE_URL") = true
    /\ truthyStr (env "SUPABASE_SERVICE_ROLE_KEY") = true
    /\ st' = snd (executeScoutAgent scout st).
Proof.
  unfold serve.
  destruct (String.eqb (method req) "OPTIONS");
    [ cbn; intros [= <- <-]; discriminate | ].
  unfold try_catch, bind, gets, throw, ret. cbv zeta. fold (requestedScoutId req).
  destruct (truthyStr (env "SUPABASE_URL"));
    [ | cbn; intros [= <- <-]; discriminate ].
  destruct (truthyStr (env "SUPABASE_SERVICE_ROLE_KEY"));
    [ | cbn; intros [= <- <-]; discriminate ].
  cbn [negb orb].
  destruct (truthyStr (requestedScoutId req)) eqn:Hid;
    [ | cbn; intros [= <- <-]; discriminate ].
  cbn [negb].
  destruct (fetchScout _ (scouts st)) as [scout |] eqn:Hfetch;
    [ | cbn; intros [= <- <-]; discriminate ].
  destruct (Scout.is_active scout) eqn:Hactive;
    [ | cbn; intros [= <- <-]; discriminate ].
  destruct (isComplete scout) eqn:Hcomplete;
    [ | cbn; intros [= <- <-]; discriminate ].
  cbn [negb].
  destruct (runningExecutionOf _ (scout_executions st)) eqn:Hrunning;
    [ cbn; intros [= <- <-]; discriminate | ].
  pose proof (executeScoutAgent_returns scout st) as Hrun.
  destruct (executeScoutAgent scout st) as [[[] | e] st1] eqn:Hagent;
    cbn [fst] in Hrun; [ | discriminate ].
  intros [= <- <-]. cbn [http_body]. intros [= <- <-].
  apply fetchScout_single in Hfetch. destruct Hfetch as (Hsingle & _ & Hsame).
  exists scout. rewrite <- Hsame in Hsingle, Hrunning.
  repeat split; auto.
  - rewrite Hsame. apply truthyStr_shown, Hid.
  - rewrite Hagent. reflexivity.
Qed.

(** X1.  The handler always answers.  Apart from the answer 200 with
    [success: true], which is given after the agent has run, every answer
    (the preflight "ok", the 409 and every 500) leaves the store as it
    was; and the status goes with the body: 409 for the conflict, 500 for
    an error. *)
Theorem serve_refusals_change_nothing (req : Request) (st : St) :
  exists response,
    fst (serve req st) = Ok response
    /\ match http_body response with
       | Success _ _ => http_status response = 200
       | PreflightOk => http_status response = 200 /\ snd (serve req st) = st
       | Conflict _ _ _ => http_status response = 409 /\ snd (serve req st) = st
       | Failure _ => http_status response = 500 /\ snd (serve req st) = st
       end.
Proof.
  destruct (serve_cases req st) as (response & st' & -> & Hcase).
  exists response. split; [ reflexivity | exact Hcase ].
Qed.

(** X2.  The agent is run only for a scout that is eligible: the answer
    is 200 with [success: true] only if the store credentials are
    configured, exactly one scout has the requested id, that scout is
    active and completely configured, and it has no execution in status
    [running]; the store is then the one the agent leaves. *)
Theorem serve_runs_eligible_scouts_only (req : Request) (st : St)
    (response : HttpResponse) (scoutId title : string) :
  fst (serve req st) = Ok response ->
  http_body response = Success scoutId title ->
  exists scout,
    requestedScoutId req = Some scoutId
    /\ filter (fun s => String.eqb (Scout.id s) scoutId) (scouts st) = [scout]
    /\ Scout.title scout = title
    /\ Scout.is_active scout = true
    /\ isComplete scout = true
    /\ runningExecutionOf scoutId (scout_executions st) = None
    /\ truthyStr (env "SUPABASE_URL") = true
    /\ truthyStr (env "SUPABASE_SERVICE_ROLE_KEY") = true
    /\ snd (serve req st) = snd (executeScoutAgent scout st).
Proof.
  intros Hanswer Hbody.
  destruct (serve req st) as [r st'] eqn:Hserve. cbn [fst snd] in *. subst r.
  exact (serve_success req st st' response scoutId title Hserve Hbody).
Qed.

(** X3.  Where the scout id comes from.  The body of the request is read
    only by a POST whose query string gives no [scoutId]: with a
    [scoutId] in the query, or with another method, the answer and the
    store do not depend on the body.  And a body that cannot be parsed
    counts as a body without [scoutId]. *)
Theorem serve_scoutId_source (req : Request) (other : Res (option string))
    (e : JsError) (st : St) :
  let withBody b :=
    {| method := method req; query_scoutId := query_scoutId req; body_scoutId := b |} in
  (truthyStr (query_scoutId req) = true \/ String.eqb (method req) "POST" = false ->
   serve (withBody other) st = serve req st)
  /\ serve (withBody (Throw e)) st = serve (withBody (Ok None)) st.
Proof.
  cbv zeta. split.
  - intros Hsource. unfold serve. cbn [method query_scoutId body_scoutId].
    destruct (String.eqb (method req) "OPTIONS"); [ reflexivity | ].
    assert (Hskip : negb (truthyStr (query_scoutId req)) && String.eqb (method req) "POST"
                    = false).
    { destruct Hsource as [-> | ->]; [ reflexivity | apply andb_false_r ]. }
    rewrite Hskip. reflexivity.
  - unfold serve. cbn [method query_scoutId body_scoutId].
    destruct (String.eqb (method req) "OPTIONS"); [ reflexivity | ].
    destruct (truthyStr (query_scoutId req)) eqn:Hquery; cbn [negb andb];
      [ reflexivity | ].
    destruct (String.eqb (method req) "POST"); [ | reflexivity ].
    rewrite Hquery. cbn [negb truthyStr]. reflexivity.
Qed.

End EntryPoint.

(** A POST for scout S1, which is active, complete and not running. *)
Lemma serve_runs_witness :
  let run := @serve Sample.runtime (Sample.findsAtOnce "A new AI model was released.")
               Sample.postS1 Sample.store0 in
  exists scout,
    requestedScoutId Sample.postS1 = Some "S1"
    /\ filter (fun s => String.eqb (Scout.id s) "S1") (scouts Sample.store0) = [scout]
    /\ Scout.title scout = "AI News"
    /\ Scout.is_active scout = true
    /\ isComplete scout = true
    /\ runningExecutionOf "S1" (scout_executions Sample.store0) = None
    /\ truthyStr (Sample.environment "SUPABASE_URL") = true
    /\ truthyStr (Sample.environment "SUPABASE_SERVICE_ROLE_KEY") = true
    /\ snd run
       = snd (@executeScoutAgent Sample.runtime
                (Sample.findsAtOnce "A new AI model was released.") scout Sample.store0).
Proof.
  exact (@serve_runs_eligible_scouts_only Sample.runtime
           (Sample.findsAtOnce "A new AI model was released.")
           Sample.postS1 Sample.store0
           {| http_status := 200; http_body := Success "S1" "AI News" |}
           "S1" "AI News" eq_refl eq_refl).
Defined.

(** A GET with the id in the query string ignores the body. *)
Example body_of_a_get_is_not_read :
  @serve Sample.runtime Sample.modelDown
     {| method := "GET"; query_scoutId := Some "S2"; body_scoutId := Ok (Some "S1") |}
     Sample.store0
  = @serve Sample.runtime Sample.modelDown
      {| method := "GET"; query_scoutId := Some "S2"; body_scoutId := Ok None |}
      Sample.store0.
Proof. vm_compute. reflexivity. Qed.

(* ===================================================================== *)
(** * A run is recorded as over (agent.ts, [executeScoutAgent]) *)
(* ===================================================================== *)

Lemma triple_conj {A : Type} (P1 P2 : St -> Prop) (m : M A)
    (Q1 Q2 : A -> St -> Prop) (E1 E2 : JsError -> St -> Prop) :
  triple P1 m Q1 E1 -> triple P2 m Q2 E2 ->
  triple (fun st => P1 st /\ P2 st) m
         (fun a st => Q1 a st /\ Q2 a st) (fun e st => E1 e st /\ E2 e st).
Proof.
  intros H1 H2 st [HP1 HP2]. specialize (H1 st HP1). specialize (H2 st HP2).
  destruct (m st) as [[a | e] st']; auto.
Qed.

Lemma settled_update executionId t (f : Execution.t -> Execution.t) st :
  (forall e, Execution.status (f e) = Status.completed
             /\ Execution.completed_at (f e) = Some t) ->
  settled executionId
    (set_scout_executions
       (updateWhere (fun e => String.eqb (Execution.id e) executionId) f
                    (scout_executions st)) st).
Proof.
  intros Hf e Hin Hsame. cbn in Hin. apply In_updateWhere in Hin.
  destruct Hin as [x [Hx ->]].
  destruct (String.eqb (Execution.id x) executionId) eqn:Hmatch.
  - destruct (Hf x) as [-> ->]. split; [ reflexivity | discriminate ].
  - apply String.eqb_neq in Hmatch. contradiction.
Qed.

Ltac flag_leaf := cbn; assumption.

Ltac settled_leaf :=
  cbn beta;
  repeat match goal with
         | H : _ /\ _ |- _ => destruct H
         end;
  unfold settled in *;
  repeat match goal with
         | |- _ /\ _ => split
         end;
  first [ cbn; assumption
        | let Hin := fresh "Hin" in intros ? Hin ?; cbn in Hin; auto ].

Ltac stop_at_update m :=
  lazymatch m with
  | updateExecution _ _ => fail
  | completeExecution _ _ _ _ _ => fail
  | _ => idtac
  end.

Ltac stop_at_embedding m :=
  lazymatch m with
  | modify (set_summaryEmbedding None) => fail
  | _ => idtac
  end.

Ltac stop_at_flag m :=
  lazymatch m with
  | modify (set_continueLoop true) => fail
  | _ => idtac
  end.

Section RunIsOver.
Context {host : Host} {net : Oracle}.

(** An embedding that comes from a provider whose vectors fit is taken
    by the store. *)
Lemma generateSummary_fits r :
  embeddingFits ->
  keeps (fun st => continueLoop st = false /\ fitsVector (summaryEmbedding st) = true)
        alwaysTrue (generateSummary r).
Proof.
  intros Hfits. unfold generateSummary, alwaysTrue.
  apply keeps_bind; [ apply keeps_lift; auto | intros completed ].
  apply keeps_when. apply keeps_try_catch; [ | intros _; apply keeps_ret ].
  unfold preserves, keeps.
  eapply triple_bind.
  { apply triple_fetch; [ intros; flag_leaf | auto ]. }
  intros summaryResponse. apply triple_pure. intros _.
  destruct (ok summaryResponse).
  2:{ as_keeps. keep flag_leaf nothing_known. }
  eapply triple_bind.
  { apply triple_readJson; [ intros; flag_leaf | auto ]. }
  intros summary. apply triple_pure. intros _.
  apply triple_bind_keeps; [ keep flag_leaf nothing_known | intros _ ].
  eapply triple_bind.
  { apply triple_fetch; [ intros; flag_leaf | auto ]. }
  intros embeddingResponse. apply triple_pure. intros [Hreply _].
  destruct (ok embeddingResponse).
  2:{ as_keeps. keep flag_leaf nothing_known. }
  eapply triple_bind.
  { apply triple_readJson; [ intros; flag_leaf | auto ]. }
  intros embedding. apply triple_pure. intros Hbody.
  apply triple_modify. intros st [Hflag _]. cbn. split; [ exact Hflag | ].
  destruct embedding as [v |]; [ | reflexivity ].
  cbn. apply Nat.eqb_eq. exact (Hfits _ _ Hreply Hbody).
Qed.

(** The branch of the final message writes the execution as completed,
    when the store takes the embedding. *)
Lemma finalizeRun_settles scout executionId similar assistantMessage :
  embeddingFits ->
  triple (fun _ => True)
         (finalizeRun scout executionId similar assistantMessage)
         (fun _ st => continueLoop st = false /\ settled executionId st)
         alwaysTrue.
Proof.
  intros Hfits. unfold finalizeRun. cbv zeta.
  apply triple_bind with (R := fun _ st => continueLoop st = false).
  { apply triple_modify. reflexivity. }
  intros _.
  walk flag_leaf nothing_known stop_at_embedding.
  apply triple_bind
    with (R := fun _ st => continueLoop st = false
                           /\ fitsVector (summaryEmbedding st) = true).
  { apply triple_modify. intros st Hflag. cbn. auto. }
  intros _.
  apply triple_bind_keeps; [ apply generateSummary_fits, Hfits | intros _ ].
  apply triple_bind_keeps; [ unfold alwaysTrue; keep flag_leaf nothing_known | intros _ ].
  apply triple_bind
    with (R := fun embedding st => continueLoop st = false
                                  /\ fitsVector embedding = true).
  { apply triple_gets. auto. }
  intros embedding. apply triple_pure. intros Htaken.
  unfold alwaysTrue.
  walk flag_leaf nothing_known stop_at_update.
  apply triple_bind
    with (R := fun _ st => continueLoop st = false /\ settled executionId st).
  { unfold completeExecution, updateExecution. rewrite Htaken.
    apply triple_modify. intros st Hflag.
    split; [ exact Hflag | ].
    eapply settled_update. intros; split; reflexivity. }
  intros _. as_keeps. keep settled_leaf nothing_known.
Qed.

Lemma agentIteration_settles scout executionId key maxAgeMs similar :
  embeddingFits ->
  triple (fun st => settledWhenDone executionId st /\ continueLoop st = true)
         (agentIteration scout executionId key maxAgeMs similar)
         (fun _ => settledWhenDone executionId) alwaysTrue.
Proof.
  intros Hfits.
  apply triple_weaken
    with (P := fun st => continueLoop st = true)
         (Q := fun _ st => continueLoop st = true
                           \/ (continueLoop st = false /\ settled executionId st))
         (E := alwaysTrue).
  - unfold agentIteration, alwaysTrue.
    walk flag_leaf nothing_known ltac:(fun m => idtac).
    + eapply triple_weaken;
        [ apply finalizeRun_settles, Hfits | cbn; auto | cbn; auto | auto ].
    + eapply triple_weaken with (P := fun st => continueLoop st = true)
                                (Q := fun _ st => continueLoop st = true);
        [ | auto | cbn; auto | intros ? ? H; exact H ].
      as_keeps. keep flag_leaf nothing_known.
  - intros st [_ H]. exact H.
  - intros _ st [Htrue | [_ Hsettled]] Hfalse; [ congruence | exact Hsettled ].
  - auto.
Qed.

Lemma agentLoop_settles fuel scout executionId key maxAgeMs similar :
  embeddingFits ->
  triple (fun st => settledWhenDone executionId st /\ enoughFuel fuel st)
         (agentLoop fuel scout executionId key maxAgeMs similar)
         (fun _ st => settledWhenDone executionId st
                      /\ continueLoop st && (loopCount st <? maxLoops)%nat = false)
         alwaysTrue.
Proof.
  intros Hfits.
  eapply triple_weaken.
  - apply triple_conj.
    + apply keeps_agentLoop_while
        with (J := settledWhenDone executionId) (E := alwaysTrue).
      apply agentIteration_settles, Hfits.
    + apply agentLoop_exits.
  - auto.
  - auto.
  - intros; exact I.
Qed.

(** When the [try] block returns, the execution is written as completed:
    by the branch of the final message, or after the last iteration. *)
Lemma runBody_settles scout executionId :
  embeddingFits ->
  triple (fun _ => True) (runBody scout executionId)
         (fun _ => settled executionId) alwaysTrue.
Proof.
  intros Hfits. unfold runBody, alwaysTrue.
  walk ltac:(exact I) nothing_known stop_at_flag.
  apply triple_bind with (R := fun _ st => continueLoop st = true).
  { apply triple_modify. reflexivity. }
  intros _.
  apply triple_bind with (R := fun _ st => continueLoop st = true /\ loopCount st = 0).
  { apply triple_modify. intros st H. split; [ exact H | reflexivity ]. }
  intros _.
  apply triple_bind with (R := fun _ st => continueLoop st = true /\ loopCount st = 0).
  { apply triple_modify. intros st H. exact H. }
  intros _.
  apply triple_bind
    with (R := fun _ st => settledWhenDone executionId st
                           /\ continueLoop st && (loopCount st <? maxLoops)%nat = false).
  { eapply triple_weaken; [ apply agentLoop_settles, Hfits | | auto | auto ].
    intros st [Hflag Hcount]. split.
    - intros Hdone. congruence.
    - unfold enoughFuel. lia. }
  intros _.
  apply triple_bind
    with (R := fun count st => settledWhenDone executionId st
                               /\ (continueLoop st = false \/ maxLoops <= count)).
  { apply triple_gets. intros st [HJ Hexit]. split; [ exact HJ | ].
    apply andb_false_iff in Hexit. destruct Hexit as [Hdone | Hmax].
    - left. exact Hdone.
    - right. apply Nat.ltb_ge in Hmax. exact Hmax. }
  intros count.
  apply triple_bind with (R := fun _ => settled executionId).
  { apply triple_when.
    - intros _. unfold now.
      apply triple_bind with (R := fun _ _ => True); [ apply triple_gets; auto | ].
      intros t. unfold updateExecution. apply triple_modify. intros st _.
      eapply settled_update. intros; split; reflexivity.
    - intros Hbelow st [HJ [Hdone | Hmax]].
      + exact (HJ Hdone).
      + apply Nat.leb_gt in Hbelow. lia. }
  intros _. as_keeps. keep settled_leaf nothing_known.
Qed.

(** After a run whose execution was inserted, that execution is recorded
    as over. *)
Lemma executeScoutAgent_settles scout st executionId :
  embeddingFits ->
  insert_reply = Some executionId ->
  hasExecution executionId (snd (executeScoutAgent scout st))
  /\ forall e, In e (scout_executions (snd (executeScoutAgent scout st))) ->
       Execution.id e = executionId -> isOver e.
Proof.
  intros Hfits Hreply.
  pose proof (insertExecution_some (Scout.id scout) executionId
                (snd (freshLocals st)) Hreply) as Hinsert.
  rewrite (executeScoutAgent_started _ _ _ _ Hinsert).
  pose proof (insertExecution_inserted _ _ _ _ Hinsert) as Hhas.
  revert Hhas. generalize (set_scout_executions
       (scout_executions (snd (freshLocals st)) ++
          [Execution.mk executionId (Scout.id scout) Status.running
                        (clock (snd (freshLocals st))) None None None None None])%list
       (snd (freshLocals st))).
  intros st1 Hhas. unfold try_catch.
  destruct (runBody scout executionId st1) as [[[] | error] st2] eqn:Hbody; cbn [snd].
  - split.
    + pose proof (preserves_result _ _ st1
                    (runBody_keeps_execution executionId scout executionId) Hhas) as H.
      rewrite Hbody in H. exact H.
    + pose proof (runBody_settles scout executionId Hfits st1 I) as Hsettled.
      rewrite Hbody in Hsettled.
      intros e Hin Hid. destruct (Hsettled e Hin Hid) as [Hstatus Htime].
      split; [ rewrite Hstatus; discriminate | exact Htime ].
  - destruct (runFailed_writes scout executionId error st2) as (_ & _ & _ & Hexecs & _).
    assert (Hhas2 : hasExecution executionId st2).
    { pose proof (preserves_result _ _ st1
                    (runBody_keeps_execution executionId scout executionId) Hhas) as H.
      rewrite Hbody in H. exact H. }
    split.
    + destruct Hhas2 as [e0 [Hin0 Hid0]].
      exists (failedWith (clock st2) (err_message error) e0). rewrite Hexecs. split.
      * apply In_updateWhere. exists e0. split; [ exact Hin0 | ].
        rewrite Hid0, String.eqb_refl. reflexivity.
      * exact Hid0.
    + intros e Hin Hid. rewrite Hexecs in Hin.
      apply In_updateWhere in Hin. destruct Hin as [x [Hx ->]].
      destruct (String.eqb (Execution.id x) executionId) eqn:Hmatch.
      * split; cbn; discriminate.
      * apply String.eqb_neq in Hmatch. contradiction.
Qed.

(** X4.  A run does not leave its own execution under way.  Once the
    execution row is inserted, and as long as the embeddings the provider
    gives fit the column of the store (1536 numbers), the run ends with
    that row stored, in a status other than [running] and with its
    [completed_at] set, whatever else the services answer.  (The store
    refuses the update that completes the execution when the embedding
    does not fit, and the code does not notice: the row then stays as it
    was inserted.) *)
Theorem run_is_recorded_as_over (scout : Scout.t) (st : St) (executionId : string) :
  insert_reply = Some executionId ->
  embeddingFits ->
  let st' := snd (executeScoutAgent scout st) in
  (exists e, In e (scout_executions st') /\ Execution.id e = executionId)
  /\ forall e, In e (scout_executions st') -> Execution.id e = executionId ->
       Execution.status e <> Status.running /\ Execution.completed_at e <> None.
Proof.
  intros Hreply Hfits. exact (executeScoutAgent_settles scout st executionId Hfits Hreply).
Qed.

End RunIsOver.

(** Scout S2 runs while the chat completion endpoint is down: execution E1
    is recorded as over. *)
Lemma run_is_recorded_witness :
  let st' := snd (@executeScoutAgent Sample.runtime Sample.modelDown
                    Sample.scoutS2 Sample.store0) in
  @embeddingFits Sample.modelDown
  /\ (exists e, In e (scout_executions st') /\ Execution.id e = "E1")
  /\ forall e, In e (scout_executions st') -> Execution.id e = "E1" ->
       Execution.status e <> Status.running /\ Execution.completed_at e <> None.
Proof.
  assert (Hfits : @embeddingFits Sample.modelDown).
  { intros response embedding Hreply Hbody.
    cbn in Hreply. injection Hreply as <-. cbn in Hbody. injection Hbody as <-.
    reflexivity. }
  split; [ exact Hfits | ].
  exact (@run_is_recorded_as_over Sample.runtime Sample.modelDown
           Sample.scoutS2 Sample.store0 "E1" eq_refl Hfits).
Defined.

(* ===================================================================== *)
(** * A run does not block the next one (index.ts and agent.ts) *)
(* ===================================================================== *)

Lemma onlyRunning_update scoutId executionId p f st :
  (forall e, Execution.status (f e) <> Status.running) ->
  onlyRunning scoutId executionId st ->
  onlyRunning scoutId executionId
    (set_scout_executions (updateWhere p f (scout_executions st)) st).
Proof.
  intros Hf Hrows e Hin Hscout Hstatus. cbn in Hin. apply In_updateWhere in Hin.
  destruct Hin as [x [Hx ->]]. destruct (p x).
  - exfalso. exact (Hf x Hstatus).
  - exact (Hrows x Hx Hscout Hstatus).
Qed.

Ltac running_leaf :=
  cbn beta;
  first
    [ assumption
    | apply onlyRunning_update; [ intros ?; cbn; discriminate | assumption ]
    | unfold onlyRunning in *; cbn; assumption ].

Lemma runningExecutionOf_none scoutId rows :
  @runningExecutionOf scoutId rows = None
  <-> forall e, In e rows -> Execution.scout_id e = scoutId ->
        Execution.status e <> Status.running.
Proof.
  unfold runningExecutionOf. split.
  - intros Hnone e Hin Hscout Hstatus.
    assert (Hsorted : In e (orderDesc (fun e => Some (Execution.created_at e))
                              (filter (fun e => String.eqb (Execution.scout_id e) scoutId
                                                && statusIs Status.running e) rows))).
    { apply orderDesc_In, filter_In. split; [ exact Hin | ].
      apply andb_true_iff. split; [ apply String.eqb_eq, Hscout | apply statusIs_eq, Hstatus ]. }
    destruct (orderDesc _ _); [ contradiction | discriminate ].
  - intros Hall.
    destruct (orderDesc _ _) as [| e l] eqn:Hsorted; [ reflexivity | exfalso ].
    assert (Hin : In e (orderDesc (fun e => Some (Execution.created_at e))
                          (filter (fun e => String.eqb (Execution.scout_id e) scoutId
                                            && statusIs Status.running e) rows)))
      by (rewrite Hsorted; left; reflexivity).
    apply orderDesc_In, filter_In in Hin. destruct Hin as [Hin Hp].
    apply andb_true_iff in Hp. destruct Hp as [Hscout Hstatus].
    apply String.eqb_eq in Hscout. apply statusIs_eq in Hstatus.
    exact (Hall e Hin Hscout Hstatus).
Qed.

Section NextRun.
Context {host : Host} {net : Oracle}.

Lemma run_keeps_onlyRunning scoutId eid scout executionId :
  preserves (onlyRunning scoutId eid)
            (try_catch (runBody scout executionId) (runFailed scout executionId)).
Proof. keep running_leaf nothing_known. Qed.

(** A scout with no execution under way has none after a run. *)
Lemma executeScoutAgent_frees scout st :
  embeddingFits ->
  noneRunning (Scout.id scout) st ->
  noneRunning (Scout.id scout) (snd (executeScoutAgent scout st)).
Proof.
  intros Hfits Hnone. destruct insert_reply as [executionId |] eqn:Hreply.
  - destruct (executeScoutAgent_settles scout st executionId Hfits Hreply) as [_ Hover].
    revert Hover.
    pose proof (insertExecution_some (Scout.id scout) executionId
                  (snd (freshLocals st)) Hreply) as Hinsert.
    rewrite (executeScoutAgent_started _ _ _ _ Hinsert).
    assert (Hstart : onlyRunning (Scout.id scout) executionId
              (set_scout_executions
                 (scout_executions (snd (freshLocals st)) ++
                    [Execution.mk executionId (Scout.id scout) Status.running
                                  (clock (snd (freshLocals st))) None None None None None])%list
                 (snd (freshLocals st)))).
    { intros e Hin Hscout Hstatus. cbn in Hin. apply in_app_or in Hin.
      destruct Hin as [Hin | [<- | []]]; [ | reflexivity ].
      exfalso. exact (Hnone e Hin Hscout Hstatus). }
    pose proof (preserves_result _ _ _
                  (run_keeps_onlyRunning (Scout.id scout) executionId scout executionId)
                  Hstart) as Honly.
    intros Hover e Hin Hscout Hstatus.
    destruct (Hover e Hin (Honly e Hin Hscout Hstatus)) as [Hnot _].
    exact (Hnot Hstatus).
  - unfold executeScoutAgent, insertExecution. rewrite Hreply. exact Hnone.
Qed.

(** X5.  A run does not block the next one.  When the handler has
    answered 200 with [success: true], and the embeddings the provider
    gives fit the column of the store, the scout has no execution in
    status [running]: the next invocation for the same scout is not
    refused with the 409. *)
Theorem serve_leaves_the_scout_free (req : Request) (st : St)
    (response : HttpResponse) (scoutId title : string) :
  fst (serve req st) = Ok response ->
  http_body response = Success scoutId title ->
  embeddingFits ->
  runningExecutionOf scoutId (scout_executions (snd (serve req st))) = None.
Proof.
  intros Hanswer Hbody Hfits.
  destruct (serve req st) as [r st'] eqn:Hserve. cbn [fst snd] in *. subst r.
  destruct (serve_success req st st' response scoutId title Hserve Hbody)
    as (scout & _ & Hsingle & _ & _ & _ & Hfree & _ & _ & ->).
  assert (Hid : Scout.id scout = scoutId).
  { assert (Hin : In scout (filter (fun s => String.eqb (Scout.id s) scoutId) (scouts st)))
      by (rewrite Hsingle; left; reflexivity).
    apply filter_In in Hin. apply String.eqb_eq, Hin. }
  subst scoutId.
  apply (proj2 (runningExecutionOf_none _ _)).
  apply executeScoutAgent_frees; [ exact Hfits | ].
  exact (proj1 (runningExecutionOf_none _ _) Hfree).
Qed.

End NextRun.

(** After the POST for scout S1 has been answered, S1 has no execution
    under way. *)
Lemma serve_leaves_free_witness :
  @embeddingFits (Sample.findsAtOnce "A new AI model was released.")
  /\ runningExecutionOf "S1"
       (scout_executions
          (snd (@serve Sample.runtime (Sample.findsAtOnce "A new AI model was released.")
                  Sample.postS1 Sample.store0)))
     = None.
Proof.
  assert (Hfits : @embeddingFits (Sample.findsAtOnce "A new AI model was released.")).
  { intros response embedding Hreply Hbody.
    cbn in Hreply. injection Hreply as <-. cbn in Hbody. injection Hbody as <-.
    reflexivity. }
  split; [ exact Hfits | ].
  exact (@serve_leaves_the_scout_free Sample.runtime
           (Sample.findsAtOnce "A new AI model was released.")
           Sample.postS1 Sample.store0
           {| http_status := 200; http_body := Success "S1" "AI News" |}
           "S1" "AI News" eq_refl eq_refl Hfits).
Defined.

(** With an embedding of three numbers the execution stays under way, and
    the next invocation for the scout is refused. *)
Example refused_update_blocks_the_next_run :
  let short : Oracle :=
    {| env := Sample.environment; insert_reply := Some "E1";
       chat_reply := fun _ => Sample.answers Sample.foundJson;
       tool_reply := fun _ => Sample.noWebResults;
       summary_reply := Sample.replied 200 "OK" EmptyString (Ok "A summary.");
       embedding_reply :=
         Sample.replied 200 "OK" EmptyString (Ok (Some [1%float; 0%float; 0%float]));
       email_reply := None |} in
  let first := @serve Sample.runtime short Sample.postS1 Sample.store0 in
  fst first = Ok {| http_status := 200; http_body := Success "S1" "AI News" |}
  /\ fst (@serve Sample.runtime short Sample.postS1 (snd first))
     = Ok {| http_status := 409;
             http_body := Conflict "Scout execution already in progress" "S1" "E1" |}.
Proof. vm_compute. split; reflexivity. Qed.

(* ===================================================================== *)
(** * What a run writes, and what it leaves alone (agent.ts) *)
(* ===================================================================== *)

Lemma updateWhere_app {A : Type} (p : A -> bool) (f : A -> A) (l1 l2 : list A) :
  updateWhere p f (l1 ++ l2)%list = (updateWhere p f l1 ++ updateWhere p f l2)%list.
Proof. unfold updateWhere. apply map_app. Qed.

Lemma updateWhere_untouched {A : Type} (p : A -> bool) (f : A -> A) (rows : list A) :
  (forall x, In x rows -> p x = false) -> updateWhere p f rows = rows.
Proof.
  intros Hnone. induction rows as [| x rest IH]; [ reflexivity | ].
  cbn. rewrite (Hnone x) by (left; reflexivity).
  f_equal. apply IH. intros y Hy. apply Hnone. right. exact Hy.
Qed.

Lemma ownRowAdded_update old executionId scoutId insertedAt f st :
  (forall e, In e old -> Execution.id e <> executionId) ->
  (forall e, Execution.id (f e) = Execution.id e
             /\ Execution.scout_id (f e) = Execution.scout_id e
             /\ Execution.created_at (f e) = Execution.created_at e) ->
  ownRowAdded old executionId scoutId insertedAt st ->
  ownRowAdded old executionId scoutId insertedAt
    (set_scout_executions
       (updateWhere (fun e => String.eqb (Execution.id e) executionId) f
                    (scout_executions st)) st).
Proof.
  intros Hfresh Hf (own & Hrows & Hid & Hscout & Hat).
  exists (if String.eqb (Execution.id own) executionId then f own else own).
  cbn. rewrite Hrows, updateWhere_app. split; [ f_equal | ].
  - apply updateWhere_untouched. intros x Hx. apply String.eqb_neq, Hfresh, Hx.
  - destruct (Hf own) as (H1 & H2 & H3).
    destruct (String.eqb (Execution.id own) executionId); rewrite ?H1, ?H2, ?H3; auto.
Qed.

Ltac own_leaf :=
  cbn beta;
  first
    [ assumption
    | apply ownRowAdded_update;
      [ eassumption | intros ?; repeat split | assumption ]
    | unfold ownRowAdded in *; cbn; assumption ].

Lemma sameConfiguration_refl s : sameConfiguration s s.
Proof. repeat split. Qed.

Lemma bookkeepingOnly_refl scout s : bookkeepingOnly scout s s.
Proof. split; [ apply sameConfiguration_refl | auto ]. Qed.

(** [.update({ is_active: false }).eq("user_id", scout.user_id)] *)
Lemma bookkeepingOnly_by_user scout before after :
  bookkeepingOnly scout before after ->
  bookkeepingOnly scout before
    (if String.eqb (Scout.user_id after) (Scout.user_id scout)
     then Scout.set_is_active false after else after).
Proof.
  intros (Hsame & Hactive & Hrun & Hother).
  destruct (String.eqb (Scout.user_id after) (Scout.user_id scout)) eqn:Huser;
    [ | exact (conj Hsame (conj Hactive (conj Hrun Hother))) ].
  apply String.eqb_eq in Huser.
  split; [ | split; [ | split ] ].
  - exact Hsame.
  - cbn. discriminate.
  - exact Hrun.
  - intros _ Hdiff. exfalso. apply Hdiff.
    destruct Hsame as (_ & <- & _). exact Huser.
Qed.

(** [.update({ last_run_at, consecutive_failures, ... }).eq("id",
    scout.id)] *)
Lemma bookkeepingOnly_by_id scout before after written :
  sameConfiguration after written ->
  (Scout.is_active written = true -> Scout.is_active after = true) ->
  bookkeepingOnly scout before after ->
  bookkeepingOnly scout before
    (if String.eqb (Scout.id after) (Scout.id scout) then written else after).
Proof.
  intros Hkept Hstill (Hsame & Hactive & Hrun & Hother).
  destruct (String.eqb (Scout.id after) (Scout.id scout)) eqn:Hid;
    [ | exact (conj Hsame (conj Hactive (conj Hrun Hother))) ].
  apply String.eqb_eq in Hid.
  assert (Hrunning : Scout.id before = Scout.id scout)
    by (destruct Hsame as (<- & _); exact Hid).
  split; [ | split; [ | split ] ].
  - unfold sameConfiguration in *.
    destruct Hsame as (H1 & H2 & H3 & H4 & H5 & H6 & H7 & H8 & H9).
    destruct Hkept as (K1 & K2 & K3 & K4 & K5 & K6 & K7 & K8 & K9).
    repeat split; congruence.
  - auto.
  - intros Hdiff. contradiction.
  - intros Hdiff. contradiction.
Qed.

Lemma scoutsKept_update scout before (p : Scout.t -> bool) (f : Scout.t -> Scout.t) st :
  (forall a b, bookkeepingOnly scout a b ->
               bookkeepingOnly scout a (if p b then f b else b)) ->
  scoutsKept scout before st ->
  scoutsKept scout before (set_scouts (updateWhere p f (scouts st)) st).
Proof.
  unfold scoutsKept. cbn. intros Hstep Hkept.
  induction Hkept as [| a b l l2 Hab Hrest IH]; cbn; constructor; auto.
Qed.

Lemma scoutsKept_start scout st : scoutsKept scout (scouts st) st.
Proof.
  unfold scoutsKept. induction (scouts st) as [| s rest IH]; constructor;
    [ apply bookkeepingOnly_refl | exact IH ].
Qed.

Ltac scouts_leaf :=
  cbn beta;
  first
    [ assumption
    | apply scoutsKept_update;
      [ intros ? ? ?; cbn beta; first
          [ apply bookkeepingOnly_by_user; assumption
          | apply bookkeepingOnly_by_id;
            [ repeat (match goal with |- context [if ?b then _ else _] => destruct b end);
              repeat split
            | repeat (match goal with |- context [if ?b then _ else _] => destruct b end);
              cbn; let H := fresh in intros H; first [ exact H | discriminate H ]
            | assumption ] ]
      | assumption ]
    | unfold scoutsKept in *; cbn; assumption ].

Section Frame.
Context {host : Host} {net : Oracle}.

(** X6.  A run writes to no execution but its own.  When the store gives
    the new execution an id that no stored execution has, the executions
    after the run are those stored before, each as it was and in the same
    order, followed by the one row of the run, which carries the id, the
    scout's id and the time of the insert. *)
Theorem run_writes_its_own_execution_only (scout : Scout.t) (st : St)
    (executionId : string) :
  insert_reply = Some executionId ->
  (forall e, In e (scout_executions st) -> Execution.id e <> executionId) ->
  exists own,
    scout_executions (snd (executeScoutAgent scout st))
    = (scout_executions st ++ [own])%list
    /\ Execution.id own = executionId
    /\ Execution.scout_id own = Scout.id scout
    /\ Execution.created_at own = clock st.
Proof.
  intros Hreply Hfresh.
  pose proof (insertExecution_some (Scout.id scout) executionId
                (snd (freshLocals st)) Hreply) as Hinsert.
  rewrite (executeScoutAgent_started _ _ _ _ Hinsert).
  assert (Hstart : ownRowAdded (scout_executions st) executionId (Scout.id scout)
                     (clock st)
              (set_scout_executions
                 (scout_executions (snd (freshLocals st)) ++
                    [Execution.mk executionId (Scout.id scout) Status.running
                                  (clock (snd (freshLocals st))) None None None None None])%list
                 (snd (freshLocals st)))).
  { eexists. cbn. repeat split. }
  assert (Hkeeps : preserves (ownRowAdded (scout_executions st) executionId
                                (Scout.id scout) (clock st))
                     (try_catch (runBody scout executionId)
                                (runFailed scout executionId))).
  { keep own_leaf nothing_known. }
  exact (preserves_result _ _ _ Hkeeps Hstart).
Qed.

(** X7.  A run changes nothing of a scout but its bookkeeping.  Scout by
    scout, in the order of the table: the configuration (id, owner,
    title, description, goal, queries, location, frequency, scrape
    options) is as before; no scout is activated; [last_run_at] and
    [consecutive_failures] are written of the scout that runs only; and a
    scout of another user is left exactly as it was. *)
Theorem run_changes_bookkeeping_only (scout : Scout.t) (st : St) :
  Forall2 (bookkeepingOnly scout)
          (scouts st) (scouts (snd (executeScoutAgent scout st))).
Proof.
  assert (Hkeeps : preserves (scoutsKept scout (scouts st)) (executeScoutAgent scout)).
  { keep scouts_leaf nothing_known. }
  exact (preserves_result _ _ st Hkeeps (scoutsKept_start scout st)).
Qed.

End Frame.

(** Scout S1 finds news at once; the store held one earlier execution,
    E7. *)
Lemma run_writes_own_execution_witness :
  exists own,
    scout_executions
      (snd (@executeScoutAgent Sample.runtime
              (Sample.findsAtOnce "A new AI model was released.")
              Sample.scoutS1 Sample.storeWithFinding))
    = (scout_executions Sample.storeWithFinding ++ [own])%list
    /\ Execution.id own = "E1"
    /\ Execution.scout_id own = "S1"
    /\ Execution.created_at own = clock Sample.storeWithFinding.
Proof.
  apply (@run_writes_its_own_execution_only Sample.runtime
           (Sample.findsAtOnce "A new AI model was released.")
           Sample.scoutS1 Sample.storeWithFinding "E1" eq_refl).
  intros e [<- | []]. discriminate.
Defined.

(* ===================================================================== *)
(** * The usage log (agent.ts, "Log Firecrawl usage for monitoring") *)
(* ===================================================================== *)

Ltac logs_leaf := cbn; assumption.

Ltac stop_at_usage m :=
  lazymatch m with
  | gets firecrawlApiCallsCount => fail
  | _ => idtac
  end.

Section UsageLog.
Context {host : Host} {net : Oracle}.

Lemma runBody_logs scout runId logged :
  triple (fun st => firecrawl_usage_logs st = logged)
         (runBody scout runId)
         (fun _ => usageLogged scout runId logged)
         (fun _ st => firecrawl_usage_logs st = logged).
Proof.
  unfold runBody.
  walk logs_leaf nothing_known stop_at_usage.
  intros st Hlogs. unfold bind, gets, when, logFirecrawlUsage, modify, ret, usageLogged.
  destruct (firecrawlApiCallsCount st) as [| calls] eqn:Hcalls; cbn; rewrite Hcalls; cbn.
  - exact Hlogs.
  - eexists. rewrite Hlogs. split; [ reflexivity | repeat split ].
Qed.

Lemma runFailed_keeps_logs scout runId error logged :
  preserves (fun st => firecrawl_usage_logs st = logged) (runFailed scout runId error).
Proof. keep logs_leaf nothing_known. Qed.

(** X8.  The usage log of a run.  A run whose [try] block returns logs
    its Firecrawl usage once: one row with the user, the scout, the
    execution and the number of calls when it made at least one call to
    Firecrawl, and no row when it made none.  A run whose [try] block
    throws logs nothing, whatever the number of calls it made. *)
Theorem usage_is_logged_by_completed_runs (scout : Scout.t) (st : St)
    (runId : string) :
  insert_reply = Some runId ->
  let st' := snd (executeScoutAgent scout st) in
  match fst (tryBlock scout runId st) with
  | Ok _ =>
      if (0 <? firecrawlApiCallsCount st')%nat
      then exists entry,
             firecrawl_usage_logs st' = (firecrawl_usage_logs st ++ [entry])%list
             /\ userId entry = Scout.user_id scout
             /\ scoutId entry = Scout.id scout
             /\ executionId entry = runId
             /\ apiCallsCount entry = firecrawlApiCallsCount st'
      else firecrawl_usage_logs st' = firecrawl_usage_logs st
  | Throw _ => firecrawl_usage_logs st' = firecrawl_usage_logs st
  end.
Proof.
  intros Hreply. cbv zeta. unfold tryBlock.
  pose proof (insertExecution_some (Scout.id scout) runId
                (snd (freshLocals st)) Hreply) as Hinsert.
  rewrite (executeScoutAgent_started _ _ _ _ Hinsert). rewrite Hinsert. cbn [snd].
  match goal with
  | |- context [runBody scout runId ?s] =>
      assert (Hstart : firecrawl_usage_logs s = firecrawl_usage_logs st) by reflexivity;
      generalize dependent s
  end.
  intros st1 _ Hstart.
  pose proof (runBody_logs scout runId (firecrawl_usage_logs st) st1 Hstart) as Hbody.
  unfold try_catch.
  destruct (runBody scout runId st1) as [[[] | error] st2]; cbn [fst snd].
  - exact Hbody.
  - exact (preserves_result _ _ st2
             (runFailed_keeps_logs scout runId error (firecrawl_usage_logs st)) Hbody).
Qed.

End UsageLog.

(** Scout S1 searches once and then answers: one usage row with one call. *)
Lemma usage_is_logged_witness :
  let st' := snd (@executeScoutAgent Sample.runtime Scenario.searchesOnce
                    Sample.scoutS1 Sample.store0) in
  match fst (@tryBlock Sample.runtime Scenario.searchesOnce Sample.scoutS1 "E1" Sample.store0) with
  | Ok _ =>
      if (0 <? firecrawlApiCallsCount st')%nat
      then exists entry,
             firecrawl_usage_logs st' = (firecrawl_usage_logs Sample.store0 ++ [entry])%list
             /\ userId entry = "U1"
             /\ scoutId entry = "S1"
             /\ executionId entry = "E1"
             /\ apiCallsCount entry = firecrawlApiCallsCount st'
      else firecrawl_usage_logs st' = firecrawl_usage_logs Sample.store0
  | Throw _ => firecrawl_usage_logs st' = firecrawl_usage_logs Sample.store0
  end.
Proof.
  exact (@usage_is_logged_by_completed_runs Sample.runtime Scenario.searchesOnce
           Sample.scoutS1 Sample.store0 "E1" eq_refl).
Defined.

(** In that run the log holds the one row, with one call. *)
Example one_search_is_one_call :
  map apiCallsCount
      (firecrawl_usage_logs
         (snd (@executeScoutAgent Sample.runtime Scenario.searchesOnce
                 Sample.scoutS1 Sample.store0)))
  = [1].
Proof. vm_compute. reflexivity. Qed.

(** Three searches fail and the run is aborted: three calls, no usage
    row. *)
Example failed_run_logs_no_usage :
  let st' := snd (@executeScoutAgent Sample.runtime Sample.searchDown
                    Sample.scoutS1 Sample.store0) in
  firecrawlApiCallsCount st' = 3 /\ firecrawl_usage_logs st' = [].
Proof. vm_compute. split; reflexivity. Qed.

(* ===================================================================== *)
(** * Runs that cannot start (agent.ts, the head of the [try] block) *)
(* ===================================================================== *)

Section CannotStart.
Context {host : Host} {net : Oracle}.

(** X9.  A run that lacks its credentials fails before it asks for
    anything.  When neither OpenAI nor Azure OpenAI is configured, or the
    user has no usable Firecrawl key, the run is recorded as failed with
    the message that names what is missing (the provider first), it
    creates no step, sends no e-mail, logs no usage and makes no request
    (no time passes); and like every failure it counts against the
    scout. *)
Theorem run_without_credentials_fails_at_once (scout : Scout.t) (st : St)
    (runId : string) :
  insert_reply = Some runId ->
  providerConfigured && hasKey (Scout.user_id scout) st = false ->
  let st' := snd (executeScoutAgent scout st) in
  (exists e, In e (scout_executions st') /\ Execution.id e = runId)
  /\ (forall e, In e (scout_executions st') -> Execution.id e = runId ->
        Execution.status e = Status.failed
        /\ Execution.error_message e
           = Some (if providerConfigured then noKeyMessage else providerMessage))
  /\ (forall row, In row (scouts st') -> Scout.id row = Scout.id scout ->
        Scout.consecutive_failures row = Scout.consecutive_failures scout + 1)
  /\ scout_execution_steps st' = scout_execution_steps st
  /\ outbox st' = outbox st
  /\ firecrawl_usage_logs st' = firecrawl_usage_logs st
  /\ user_preferences st' = user_preferences st
  /\ clock st' = clock st.
Proof.
  intros Hreply Hlack. cbv zeta.
  pose proof (insertExecution_some (Scout.id scout) runId
                (snd (freshLocals st)) Hreply) as Hinsert.
  set (st1 := set_scout_executions
                (scout_executions (snd (freshLocals st)) ++
                   [Execution.mk runId (Scout.id scout) Status.running
                                 (clock (snd (freshLocals st))) None None None None None])%list
                (snd (freshLocals st))) in *.
  assert (Hbody : runBody scout runId st1
                  = (Throw (Error (if providerConfigured then noKeyMessage
                                   else providerMessage)), st1)).
  { unfold runBody. unfold bind at 1.
    destruct providerConfigured eqn:Hprovider.
    - destruct (getOpenAIConfig_configured st1 Hprovider) as [openaiConfig ->].
      cbn [andb] in Hlack. unfold hasKey in Hlack.
      unfold bind at 1.
      change (getFirecrawlKeyForUser (Scout.user_id scout) st1)
        with (Ok {| apiKey := match find (fun p => String.eqb (Preferences.user_id p)
                                                      (Scout.user_id scout))
                                         (user_preferences st) with
                              | Some p =>
                                  match Preferences.firecrawl_key_status p with
                                  | key_invalid => None
                                  | _ => Preferences.firecrawl_api_key p
                                  end
                              | None => None
                              end;
                      usedFallback := false; fallbackReason := None |}, st1).
      cbn in Hlack. cbn [apiKey]. rewrite Hlack. reflexivity.
    - rewrite (getOpenAIConfig_missing st1 Hprovider). reflexivity. }
  destruct (failed_run_recorded scout st runId st1 _ st1 Hinsert Hbody) as [Hhas Hfailed].
  split; [ exact Hhas | ]. split; [ exact Hfailed | ].
  rewrite (run_that_throws _ _ _ _ _ _ Hinsert Hbody).
  destruct (runFailed_writes scout runId
              (Error (if providerConfigured then noKeyMessage else providerMessage)) st1)
    as (_ & Hclock & _ & _ & Hscouts).
  split.
  { intros row Hin Hid. rewrite Hscouts in Hin. apply In_updateWhere in Hin.
    destruct Hin as [x [Hx ->]].
    destruct (String.eqb (Scout.id x) (Scout.id scout)) eqn:Hmatch.
    - cbv zeta. destruct (3 <=? Scout.consecutive_failures scout + 1)%nat; reflexivity.
    - apply String.eqb_neq in Hmatch. contradiction. }
  unfold runFailed, bind, gets, now, when, updateStep, updateExecution, updateScouts,
    modify, ret.
  cbn. repeat split.
Qed.

(** X10.  The answer says [success: true] even when nothing ran.  When
    the store refuses the insert of the execution, the agent returns at
    once; the handler still answers 200 with [success: true], and the
    tables, the e-mails and the clock are as they were: no execution, no
    step, and the scout's [last_run_at] and failure count unchanged. *)
Theorem serve_succeeds_though_nothing_ran (req : Request) (st : St)
    (response : HttpResponse) (scoutId title : string) :
  insert_reply = None ->
  fst (serve req st) = Ok response ->
  http_body response = Success scoutId title ->
  http_status response = 200 /\ sameStore st (snd (serve req st)).
Proof.
  intros Hreply Hanswer Hbody.
  destruct (serve_cases req st) as (response' & st' & Hserve & Hcase).
  rewrite Hserve in *. cbn [fst snd] in *. injection Hanswer as ->.
  rewrite Hbody in Hcase. split; [ exact Hcase | ].
  destruct (serve_success req st st' response scoutId title Hserve Hbody)
    as (scout & _ & _ & _ & _ & _ & _ & _ & _ & ->).
  unfold executeScoutAgent, insertExecution. rewrite Hreply.
  cbn. repeat split.
Qed.

End CannotStart.

(** Scout S1 runs with no OpenAI key configured. *)
Lemma run_without_credentials_witness :
  let st' := snd (@executeScoutAgent Sample.runtime Scenario.noProvider
                    Sample.scoutS1 Sample.store0) in
  (exists e, In e (scout_executions st') /\ Execution.id e = "E1")
  /\ (forall e, In e (scout_executions st') -> Execution.id e = "E1" ->
        Execution.status e = Status.failed
        /\ Execution.error_message e = Some providerMessage)
  /\ (forall row, In row (scouts st') -> Scout.id row = "S1" ->
        Scout.consecutive_failures row = 1)
  /\ scout_execution_steps st' = []
  /\ outbox st' = []
  /\ firecrawl_usage_logs st' = []
  /\ user_preferences st' = user_preferences Sample.store0
  /\ clock st' = clock Sample.store0.
Proof.
  exact (@run_without_credentials_fails_at_once Sample.runtime Scenario.noProvider
           Sample.scoutS1 Sample.store0 "E1" eq_refl eq_refl).
Defined.

(** The POST for scout S1 is answered with success while the store
    refuses the insert. *)
Lemma serve_succeeds_witness :
  http_status {| http_status := 200; http_body := Success "S1" "AI News" |} = 200
  /\ sameStore Sample.store0
       (snd (@serve Sample.runtime Scenario.insertFails Sample.postS1 Sample.store0)).
Proof.
  exact (@serve_succeeds_though_nothing_ran Sample.runtime Scenario.insertFails
           Sample.postS1 Sample.store0
           {| http_status := 200; http_body := Success "S1" "AI News" |}
           "S1" "AI News" eq_refl eq_refl eq_refl).
Defined.

(* ===================================================================== *)
(** * The number of chat completions of the loop (agent.ts, the [while]
      loop) *)
(* ===================================================================== *)

Lemma bind_ext {A B : Type} (m : M A) (k1 k2 : A -> M B) (st : St) :
  (forall a st', k1 a st' = k2 a st') -> bind m k1 st = bind m k2 st.
Proof.
  intros Hk. unfold bind. destruct (m st) as [[a | e] st']; [ apply Hk | reflexivity ].
Qed.

Lemma bind_ext_both {A B : Type} (m1 m2 : M A) (k1 k2 : A -> M B) (st : St) :
  m1 st = m2 st ->
  (forall a st', k1 a st' = k2 a st') -> bind m1 k1 st = bind m2 k2 st.
Proof.
  intros Hm Hk. unfold bind. rewrite Hm.
  destruct (m2 st) as [[a | e] st']; [ apply Hk | reflexivity ].
Qed.

Section ChatCompletions.
Context {host : Host} {net : Oracle}.
Variable g : nat -> Reply AssistantMessage.
Hypothesis g_agrees : forall count, 1 <= count <= maxLoops -> g count = chat_reply count.

Lemma agentIteration_same scout executionId key maxAgeMs similar st :
  loopCount st < maxLoops ->
  @agentIteration host (withChat net g) scout executionId key maxAgeMs similar st
  = @agentIteration host net scout executionId key maxAgeMs similar st.
Proof.
  intros Hbelow. unfold agentIteration.
  unfold bind at 1 2 6 7, modify, gets. cbn [chat_reply withChat loopCount set_loopCount].
  rewrite g_agrees by lia. reflexivity.
Qed.

Lemma agentLoop_same fuel scout executionId key maxAgeMs similar st :
  @agentLoop host (withChat net g) fuel scout executionId key maxAgeMs similar st
  = @agentLoop host net fuel scout executionId key maxAgeMs similar st.
Proof.
  revert st. induction fuel as [| fuel IH]; intros st; [ reflexivity | ].
  cbn [agentLoop]. unfold bind at 1 2 4 5, gets.
  destruct (continueLoop st && (loopCount st <? maxLoops)%nat) eqn:Hguard;
    [ | reflexivity ].
  apply andb_true_iff in Hguard. destruct Hguard as [_ Hbelow].
  apply Nat.ltb_lt in Hbelow.
  apply bind_ext_both; [ apply agentIteration_same, Hbelow | intros _ st'; apply IH ].
Qed.

Lemma runBody_same scout executionId st :
  @runBody host (withChat net g) scout executionId st
  = @runBody host net scout executionId st.
Proof.
  unfold runBody.
  change (@getOpenAIConfig (withChat net g)) with (@getOpenAIConfig net).
  apply bind_ext. intros openaiConfig st1.
  apply bind_ext. intros firecrawlKeyResult st2.
  destruct (negb (truthyStr (apiKey firecrawlKeyResult))); [ reflexivity | ].
  do 8 (apply bind_ext; intros ? ?).
  apply bind_ext_both; [ apply agentLoop_same | reflexivity ].
Qed.

(** X11.  The loop of a run asks for at most seven chat completions.
    The completion of an iteration is the one for its number, 1 to 7:
    what the provider would answer to an eighth request of the loop, or
    to any later one, has no part in the run, neither in what it returns
    nor in the state it leaves.  The summary of a finding is asked for by
    one more request to the same URL, after the loop; it is not one of
    these, so that a run makes up to eight requests to that URL. *)
Theorem loop_asks_for_at_most_seven_completions (scout : Scout.t) (st : St) :
  @executeScoutAgent host (withChat net g) scout st
  = @executeScoutAgent host net scout st.
Proof.
  unfold executeScoutAgent.
  apply bind_ext. intros _ st0.
  change (@insertExecution (withChat net g)) with (@insertExecution net).
  apply bind_ext. intros [executionId |] st1; [ | reflexivity ].
  unfold try_catch. rewrite runBody_same. reflexivity.
Qed.

End ChatCompletions.

(** An eighth completion of the loop that would report a finding changes
    nothing. *)
Lemma loop_asks_witness :
  @executeScoutAgent Sample.runtime (withChat Scenario.searchesOnce Scenario.afterTheLimit)
     Sample.scoutS1 Sample.store0
  = @executeScoutAgent Sample.runtime Scenario.searchesOnce Sample.scoutS1 Sample.store0.
Proof.
  apply (@loop_asks_for_at_most_seven_completions Sample.runtime Scenario.searchesOnce
           Scenario.afterTheLimit).
  intros count [_ Hmost]. unfold Scenario.afterTheLimit.
  apply Nat.leb_le in Hmost. unfold maxLoops in Hmost. rewrite Hmost. reflexivity.
Defined.

(* ===================================================================== *)
(** * The tools: time, results, content and location (tools.ts) *)
(* ===================================================================== *)

Lemma set_clock_same st : set_clock (clock st) st = st.
Proof. destruct st. reflexivity. Qed.

Lemma set_clock_twice c c' st : set_clock c (set_clock c' st) = set_clock c st.
Proof. reflexivity. Qed.

Lemma lift_bind_state {A B : Type} (r : Res A) (k : A -> M B) (st : St) :
  (forall a, snd (k a st) = st) -> snd (bind (lift r) k st) = st.
Proof. intros Hk. unfold bind, lift. destruct r; [ apply Hk | reflexivity ]. Qed.

Ltac pure_state :=
  repeat first
    [ reflexivity
    | apply lift_bind_state; intros ?
    | match goal with |- context [if ?b then _ else _] => destruct b end ].

Lemma substring_length_le (n : nat) (s : string) :
  String.length (String.substring 0 n s) <= n.
Proof.
  revert s. induction n as [| n IH]; intros s; destruct s; cbn; try lia.
  specialize (IH s). lia.
Qed.

Lemma includes_appended (l sub rest : string) (c : ascii) :
  JsString.includes (l ++ String c rest) (String c EmptyString) = true.
Proof.
  induction l as [| d l IH]; cbn.
  - destruct (ascii_dec c c); [ | contradiction ].
    destruct rest; reflexivity.
  - rewrite IH. apply orb_true_r.
Qed.

Lemma prefix_appended (l rest : string) : String.prefix l (l ++ rest) = true.
Proof.
  induction l as [| d l IH]; cbn.
  - destruct rest; reflexivity.
  - destruct (ascii_dec d d); [ exact IH | contradiction ].
Qed.

Lemma prefix_refl (l : string) : String.prefix l l = true.
Proof.
  induction l as [| d l IH]; cbn; [ reflexivity | ].
  destruct (ascii_dec d d); [ exact IH | contradiction ].
Qed.

Section ToolsMore.
Context {host : Host}.

(** Reading a body takes its time, and what is done with it none. *)
Lemma readJson_state {B C : Type} (resp : Response B) (k : B -> M C) (st : St) :
  (forall b s, snd (k b s) = s) ->
  snd (bind (readJson resp) k st) = set_clock (clock st + reading resp) st.
Proof.
  intros Hk. unfold readJson, bind, tick, modify, lift.
  destruct (body resp); [ apply Hk | reflexivity ].
Qed.

Lemma readText_state {B C : Type} (resp : Response B) (k : string -> M C) (st : St) :
  (forall b s, snd (k b s) = s) ->
  snd (bind (readText resp) k st) = set_clock (clock st + reading resp) st.
Proof.
  intros Hk. unfold readText, bind, tick, modify, lift.
  destruct (text resp); [ apply Hk | reflexivity ].
Qed.

Lemma fetch_state {B C : Type} (reply : Reply B) (k : Response B -> M C) (st : St) :
  (forall resp s, snd (k resp s) = set_clock (clock s + reading resp) s) ->
  snd (bind (fetch reply) k st) = set_clock (clock st + requestTime reply) st.
Proof.
  intros Hk. unfold fetch, requestTime, bind, tick, modify, throw, ret.
  destruct (60000 <=? elapsed reply)%Z; [ reflexivity | ].
  destruct (outcome reply) as [e | resp]; [ reflexivity | ].
  rewrite Hk. cbn. rewrite Z.add_assoc. reflexivity.
Qed.

Lemma searchAttempt_state a apiKey loc maxAge options reply st :
  snd (searchAttempt (ArgsObject a) apiKey loc maxAge options reply st)
  = set_clock (clock st + requestTime reply) st.
Proof.
  unfold searchAttempt. cbn [argsObject].
  change (bind (lift (Ok a)) ?k st) with (k a st). cbv zeta.
  apply fetch_state. intros resp s.
  destruct (negb (ok resp)).
  - apply readText_state. reflexivity.
  - apply readJson_state. intros data s'. pure_state.
Qed.

Lemma scrapeAttempt_state a apiKey maxAge options reply st :
  snd (scrapeAttempt (ArgsObject a) apiKey maxAge options reply st)
  = set_clock (clock st + requestTime reply) st.
Proof.
  unfold scrapeAttempt. cbn [argsObject].
  change (bind (lift (Ok a)) ?k st) with (k a st). cbv zeta.
  apply fetch_state. intros resp s.
  destruct (negb (ok resp)).
  - apply readText_state. reflexivity.
  - apply readJson_state. intros data s'. pure_state.
Qed.

(** X12.  A tool call only takes time, and the 60 seconds bound the wait
    for the response, not the call.  Called with an argument object,
    [executeSearchTool] and [executeScrapeTool] leave the state as they
    found it but for the clock, which has advanced by the time of the
    request: 60 seconds when no response came by then, and else the time
    the response took to come and, when there is one, the time its body
    took to be read, which nothing limits.  Called with [null] for the
    arguments they make no request and change nothing. *)
Theorem tools_only_take_time (args : JsArgs) (apiKey : string)
    (loc : option string) (maxAge : option Z) (options : option FirecrawlOptions)
    (reply : Reply json) (st : St) :
  let taken :=
    match args with
    | ArgsObject _ =>
        if (60000 <=? elapsed reply)%Z
        then 60000%Z
        else match outcome reply with
             | Responded resp => (elapsed reply + reading resp)%Z
             | Rejected _ => elapsed reply
             end
    | ArgsNullish => 0%Z
    end in
  snd (executeSearchTool args apiKey loc maxAge options reply st)
  = set_clock (clock st + taken) st
  /\ snd (executeScrapeTool args apiKey maxAge options reply st)
     = set_clock (clock st + taken) st.
Proof.
  cbv zeta. destruct args as [| a].
  - rewrite Z.add_0_r, set_clock_same. split; reflexivity.
  - fold (requestTime reply). split.
    + unfold executeSearchTool, try_catch.
      pose proof (searchAttempt_state a apiKey loc maxAge options reply st) as Hstate.
      destruct (searchAttempt (ArgsObject a) apiKey loc maxAge options reply st)
        as [[r | e] st1]; cbn [snd] in *; [ exact Hstate | ].
      rewrite <- Hstate. unfold searchFailed. cbv zeta. pure_state.
    + unfold executeScrapeTool, try_catch.
      pose proof (scrapeAttempt_state a apiKey maxAge options reply st) as Hstate.
      destruct (scrapeAttempt (ArgsObject a) apiKey maxAge options reply st)
        as [[r | e] st1]; cbn [snd] in *; [ exact Hstate | ].
      rewrite <- Hstate. unfold scrapeFailed. cbv zeta. pure_state.
Qed.

Lemma maxAgeOrDefault_nonzero maxAge : maxAgeOrDefault maxAge <> 0%Z.
Proof.
  unfold maxAgeOrDefault. destruct maxAge as [n |]; [ | discriminate ].
  destruct (n =? 0)%Z eqn:Hzero; [ discriminate | apply Z.eqb_neq, Hzero ].
Qed.

Lemma maxAgeOrDefault_given n : n <> 0%Z -> maxAgeOrDefault (Some n) = n.
Proof.
  intros Hn. unfold maxAgeOrDefault. apply Z.eqb_neq in Hn. rewrite Hn. reflexivity.
Qed.

Lemma searchAttempt_sound a apiKey loc maxAge options reply :
  triple (fun _ => True)
         (searchAttempt (ArgsObject a) apiKey loc maxAge options reply)
         (fun r _ => forall out, r = SearchOk out -> searchOutputSound a maxAge out)
         (fun _ _ => True).
Proof.
  unfold searchAttempt. cbn [argsObject]. apply triple_bind_lift_ok. cbv zeta.
  walk ltac:(exact I) nothing_known ltac:(fun m => idtac).
  apply triple_ret. intros _ _ out [= <-].
  unfold searchOutputSound. cbn.
  split; [ reflexivity | ]. split; [ reflexivity | ]. split; [ reflexivity | ].
  split; [ | split ].
  - apply Forall_forall. intros item Hin. apply filter_In in Hin.
    destruct Hin as [_ Hallowed]. apply negb_true_iff in Hallowed. exact Hallowed.
  - apply maxAgeOrDefault_nonzero.
  - intros n -> Hn. apply maxAgeOrDefault_given, Hn.
Qed.

(** X13.  What a successful search returns.  Whatever the provider
    answered, a result of [executeSearchTool] that is not an error echoes
    the query, counts the results it lists, lists the same results under
    [results] and [searchResults], lists no result on a blacklisted
    domain, and reports a [maxAge] that is not 0: the one given, or the
    default when none or 0 was given. *)
Theorem search_results_are_sound (a : ToolArgs) (apiKey : string)
    (loc : option string) (maxAge : option Z) (options : option FirecrawlOptions)
    (reply : Reply json) (st : St) (out : SearchOutput) :
  fst (executeSearchTool (ArgsObject a) apiKey loc maxAge options reply st)
  = Ok (SearchOk out) ->
  so_query out = query a
  /\ so_count out = List.length (so_results out)
  /\ so_searchResults out = so_results out
  /\ Forall (fun item => isBlacklistedDomain (item_url item) = false) (so_results out)
  /\ so_maxAge out <> 0%Z
  /\ (forall n, maxAge = Some n -> n <> 0%Z -> so_maxAge out = n).
Proof.
  unfold executeSearchTool, try_catch.
  pose proof (searchAttempt_sound a apiKey loc maxAge options reply st I) as Hsound.
  destruct (searchAttempt (ArgsObject a) apiKey loc maxAge options reply st)
    as [[r | e] st1]; cbn.
  - intros [= ->]. exact (Hsound out eq_refl).
  - discriminate.
Qed.

Lemma sliceContent_bounded markdown scraped :
  sliceContent markdown = Ok scraped -> contentSize scraped <= 2000.
Proof.
  unfold sliceContent. generalize 2000. intros n.
  destruct (Js.or markdown (Some (JStr EmptyString))) as [[| | | s | items |] |];
    try discriminate; intros [= <-]; cbn [contentSize].
  - apply substring_length_le.
  - rewrite length_firstn. lia.
Qed.

Lemma scrapeAttempt_bounded a apiKey maxAge options reply :
  triple (fun _ => True)
         (scrapeAttempt (ArgsObject a) apiKey maxAge options reply)
         (fun r _ => forall out, r = ScrapeOk out ->
                       contentSize (sc_content out) <= 2000
                       /\ sc_url out = url a
                       /\ sc_maxAge out <> 0%Z)
         (fun _ _ => True).
Proof.
  unfold scrapeAttempt. cbn [argsObject]. apply triple_bind_lift_ok. cbv zeta.
  eapply triple_bind; [ apply triple_fetch; auto | ].
  intros response. apply triple_weaken with (P := fun _ => True)
    (Q := fun r _ => forall out, r = ScrapeOk out ->
                       contentSize (sc_content out) <= 2000
                       /\ sc_url out = url a
                       /\ sc_maxAge out <> 0%Z)
    (E := fun _ _ => True); auto.
  destruct (negb (ok response)).
  { eapply triple_bind; [ apply triple_readText; auto | ].
    intros errorText. apply triple_throw; auto. }
  eapply triple_bind; [ apply triple_readJson; auto | ].
  intros data. apply triple_weaken with (P := fun _ => True)
    (Q := fun r _ => forall out, r = ScrapeOk out ->
                       contentSize (sc_content out) <= 2000
                       /\ sc_url out = url a
                       /\ sc_maxAge out <> 0%Z)
    (E := fun _ _ => True); auto.
  destruct (Js.get (Some data) "data") as [inner | e];
    [ apply triple_bind_lift_ok | apply triple_bind_lift_throw; auto ].
  cbv zeta.
  destruct (Js.get (Js.or inner (Some (JObj []))) "markdown") as [markdown | e];
    [ apply triple_bind_lift_ok | apply triple_bind_lift_throw; auto ].
  destruct (sliceContent markdown) as [scraped | e] eqn:Hslice;
    [ apply triple_bind_lift_ok | apply triple_bind_lift_throw; auto ].
  destruct (Js.get (Js.or inner (Some (JObj []))) "metadata") as [metadata | e];
    [ apply triple_bind_lift_ok | apply triple_bind_lift_throw; auto ].
  destruct (Js.get (Js.or inner (Some (JObj []))) "screenshot") as [screenshot | e];
    [ apply triple_bind_lift_ok | apply triple_bind_lift_throw; auto ].
  apply triple_ret. intros _ _ out [= <-]. cbn.
  split; [ exact (sliceContent_bounded _ _ Hslice) | ].
  split; [ reflexivity | apply maxAgeOrDefault_nonzero ].
Qed.

(** X14.  What a successful scrape returns.  Whatever page the provider
    sent, the [content] of a result of [executeScrapeTool] that is not an
    error has at most 2000 characters (or elements, of a [markdown] that
    is an array); the result echoes the url and reports a [maxAge] that
    is not 0. *)
Theorem scraped_content_is_cut (a : ToolArgs) (apiKey : string)
    (maxAge : option Z) (options : option FirecrawlOptions)
    (reply : Reply json) (st : St) (out : ScrapeOutput) :
  fst (executeScrapeTool (ArgsObject a) apiKey maxAge options reply st)
  = Ok (ScrapeOk out) ->
  (match sc_content out with
   | ContentText s => String.length s <= 2000
   | ContentItems items => List.length items <= 2000
   end)
  /\ sc_url out = url a
  /\ sc_maxAge out <> 0%Z.
Proof.
  unfold executeScrapeTool, try_catch.
  pose proof (scrapeAttempt_bounded a apiKey maxAge options reply st I) as Hsound.
  destruct (scrapeAttempt (ArgsObject a) apiKey maxAge options reply st)
    as [[r | e] st1]; cbn.
  - intros [= ->]. destruct (Hsound out eq_refl) as (Hsize & Hurl & Hage).
    split; [ | auto ]. destruct (sc_content out); exact Hsize.
  - discriminate.
Qed.

Lemma searchAttempt_location a apiKey loc maxAge options reply :
  triple (fun _ => True)
         (searchAttempt (ArgsObject a) apiKey loc maxAge options reply)
         (fun r _ => forall out, r = SearchOk out ->
            match loc with
            | Some l =>
                if JsString.nonEmpty l
                then so_country out = Some "US"
                     /\ so_location out
                        = Some (if JsString.includes l "," then l else l ++ ",United States")
                else so_location out = None /\ so_country out = None
            | None => so_location out = None /\ so_country out = None
            end)
         (fun _ _ => True).
Proof.
  unfold searchAttempt. cbn [argsObject]. apply triple_bind_lift_ok. cbv zeta.
  walk ltac:(exact I) nothing_known ltac:(fun m => idtac).
  apply triple_ret. intros _ _ out [= <-]. cbn [so_location so_country].
  destruct loc as [l |]; [ | split; reflexivity ].
  destruct l as [| c l]; [ split; reflexivity | ].
  cbn [JsString.nonEmpty truthyStr orStr]. split; [ reflexivity | ].
  destruct (JsString.includes (String c l) ","); reflexivity.
Qed.

(** X15.  Where a search is aimed.  A search for a scout without
    location, or whose city is empty or "any", is not geo-targeted: the
    result reports neither location nor country.  For any other city the
    country is "US" and the location sent starts with the city and holds
    a comma: the city itself when it has one, and the city followed by
    ",United States" when it has none. *)
Theorem search_is_aimed_by_the_city (scout : Scout.t) (a : ToolArgs) (apiKey : string)
    (maxAge : option Z) (options : option FirecrawlOptions)
    (reply : Reply json) (st : St) (out : SearchOutput) :
  fst (executeSearchTool (ArgsObject a) apiKey (locationToUse scout) maxAge options
         reply st)
  = Ok (SearchOk out) ->
  match Scout.location scout with
  | Some l =>
      if String.eqb (city l) EmptyString || String.eqb (city l) "any"
      then so_location out = None /\ so_country out = None
      else so_country out = Some "US"
           /\ exists sent,
                so_location out = Some sent
                /\ String.prefix (city l) sent = true
                /\ JsString.includes sent "," = true
                /\ (JsString.includes (city l) "," = false ->
                    sent = city l ++ ",United States")
  | None => so_location out = None /\ so_country out = None
  end.
Proof.
  unfold executeSearchTool, try_catch.
  pose proof (searchAttempt_location a apiKey (locationToUse scout) maxAge options
                reply st I) as Hsound.
  destruct (searchAttempt (ArgsObject a) apiKey (locationToUse scout) maxAge options
              reply st) as [[r | e] st1]; cbn; [ | discriminate ].
  intros [= ->]. specialize (Hsound out eq_refl).
  unfold locationToUse in Hsound.
  destruct (Scout.location scout) as [l |]; [ | exact Hsound ].
  destruct (city l) as [| c rest] eqn:Hcity; [ exact Hsound | ].
  change (String.eqb (String c rest) EmptyString) with false.
  cbn [orb]. cbn [JsString.nonEmpty andb] in Hsound.
  destruct (String.eqb (String c rest) "any") eqn:Hany; cbn [negb] in Hsound;
    [ exact Hsound | ].
  cbn [JsString.nonEmpty] in Hsound. destruct Hsound as [Hcountry Hlocation].
  split; [ exact Hcountry | ].
  eexists. split; [ exact Hlocation | ].
  destruct (JsString.includes (String c rest) ",") eqn:Hcomma.
  - split; [ apply prefix_refl | ]. split; [ exact Hcomma | discriminate ].
  - split; [ apply prefix_appended | ].
    split; [ apply (includes_appended (String c rest) EmptyString) | reflexivity ].
Qed.

End ToolsMore.

(** A scrape whose response is there in time and whose body takes 70
    seconds is not cut off: it takes 70.5 seconds and returns the page. *)
Example slow_body_is_read_to_its_end :
  let '(result, st') :=
    @executeScrapeTool (ArgsObject Scenario.scrapeArgs) "fc-key"
      None None Scenario.slowPage Sample.store0 in
  clock st' = (clock Sample.store0 + 70500)%Z
  /\ match result with
     | Ok (ScrapeOk out) => sc_content out = ContentText "# Notes"
     | _ => False
     end.
Proof. vm_compute. split; reflexivity. Qed.

(** A request without a response is given up after 60 seconds. *)
Example request_is_given_up_after_a_minute :
  let '(result, st') :=
    @executeSearchTool Sample.runtime (ArgsObject Scenario.searchArgs) "fc-key"
      None None None Scenario.noReply Sample.store0 in
  clock st' = (clock Sample.store0 + 60000)%Z
  /\ match result with
     | Ok (SearchErr error _ _) => error = "Search request timed out after 60 seconds"
     | _ => False
     end.
Proof. vm_compute. split; reflexivity. Qed.

(** Two results come back, one of them on a blacklisted domain. *)
Lemma search_results_witness :
  exists out,
    fst (@executeSearchTool Sample.runtime (ArgsObject Scenario.searchArgs) "fc-key"
           None (Some 0%Z) None Scenario.twoResults Sample.store0)
    = Ok (SearchOk out)
    /\ so_query out = Some "AI news"
    /\ so_count out = List.length (so_results out)
    /\ so_searchResults out = so_results out
    /\ Forall (fun item => @isBlacklistedDomain Sample.runtime (item_url item) = false)
              (so_results out)
    /\ so_maxAge out <> 0%Z
    /\ (forall n, Some 0%Z = Some n -> n <> 0%Z -> so_maxAge out = n).
Proof.
  eexists. split; [ vm_compute; reflexivity | ].
  apply (@search_results_are_sound Sample.runtime Scenario.searchArgs "fc-key"
           None (Some 0%Z) None Scenario.twoResults Sample.store0).
  vm_compute. reflexivity.
Defined.

(** The one result that is kept, and the count of the one that is not. *)
Example blacklisted_result_is_dropped :
  match fst (@executeSearchTool Sample.runtime (ArgsObject Scenario.searchArgs) "fc-key"
               None (Some 0%Z) None Scenario.twoResults Sample.store0) with
  | Ok (SearchOk out) =>
      map item_url (so_results out) = [Some (JStr "https://example.org/notes")]
      /\ so_filteredCount out = 1 /\ so_maxAge out = 3600000%Z
  | _ => False
  end.
Proof. vm_compute. repeat split. Qed.

(** A page of 3000 characters is cut to 2000. *)
Lemma scraped_content_witness :
  exists out,
    fst (@executeScrapeTool (ArgsObject Scenario.scrapeArgs) "fc-key"
           None None Scenario.longPage Sample.store0)
    = Ok (ScrapeOk out)
    /\ (match sc_content out with
        | ContentText s => String.length s <= 2000
        | ContentItems items => List.length items <= 2000
        end)
    /\ sc_url out = Some "https://example.org/notes"
    /\ sc_maxAge out <> 0%Z.
Proof.
  eexists. split; [ vm_compute; reflexivity | ].
  apply (@scraped_content_is_cut Scenario.scrapeArgs "fc-key"
           None None Scenario.longPage Sample.store0).
  vm_compute. reflexivity.
Defined.

Example long_page_is_cut_to_2000 :
  match fst (@executeScrapeTool (ArgsObject Scenario.scrapeArgs) "fc-key"
               None None Scenario.longPage Sample.store0) with
  | Ok (ScrapeOk out) => contentSize (sc_content out) = 2000
  | _ => False
  end.
Proof. vm_compute. reflexivity. Qed.

(** Scout S2 is set in Denver: its searches go to "Denver,United States". *)
Lemma search_is_aimed_witness :
  exists out,
    fst (@executeSearchTool Sample.runtime (ArgsObject Scenario.searchArgs) "fc-key"
           (locationToUse Sample.scoutS2) None None Scenario.twoResults Sample.store0)
    = Ok (SearchOk out)
    /\ so_country out = Some "US"
    /\ exists sent,
         so_location out = Some sent
         /\ String.prefix "Denver" sent = true
         /\ JsString.includes sent "," = true
         /\ (JsString.includes "Denver" "," = false -> sent = "Denver,United States").
Proof.
  eexists. split; [ vm_compute; reflexivity | ].
  apply (@search_is_aimed_by_the_city Sample.runtime Sample.scoutS2 Scenario.searchArgs
           "fc-key" None None Scenario.twoResults Sample.store0).
  vm_compute. reflexivity.
Defined.

(* ===================================================================== *)
(** * Cosine similarity in binary64 (agent.ts, [cosineSimilarity]) *)
(* ===================================================================== *)

Lemma SFmul_comm (x y : spec_float) :
  SFmul prec emax x y = SFmul prec emax y x.
Proof.
  destruct x as [sx | sx | | sx mx ex], y as [sy | sy | | sy my ey]; cbn;
    rewrite ?(xorb_comm sx sy), ?(Pos.mul_comm mx my), ?(Z.add_comm ex ey);
    reflexivity.
Qed.

Lemma float_mul_comm (x y : float) : (x * y)%float = (y * x)%float.
Proof.
  rewrite <- (SF2Prim_Prim2SF (x * y)), <- (SF2Prim_Prim2SF (y * x)).
  rewrite !mul_spec. unfold SF64mul. rewrite SFmul_comm. reflexivity.
Qed.

(** A float that [=== 0] is one of the two zeros, and its square is
    [+0]. *)
Lemma float_zero_square (x : float) :
  PrimFloat.eqb x 0%float = true -> (x * x)%float = 0%float.
Proof.
  intros Hzero. rewrite FloatAxioms.eqb_spec in Hzero.
  rewrite <- (SF2Prim_Prim2SF (x * x)). rewrite mul_spec. unfold SF64mul.
  change (Prim2SF 0%float) with (S754_zero false) in Hzero.
  destruct (Prim2SF x) as [s | s | | s m e].
  - destruct s; reflexivity.
  - destruct s; discriminate Hzero.
  - discriminate Hzero.
  - destruct s; discriminate Hzero.
Qed.

Lemma accumulate_swap (vecA vecB : list float) (dotProduct sumA sumB : float) :
  accumulate vecB vecA (dotProduct, sumB, sumA)
  = let '(d, a, b) := accumulate vecA vecB (dotProduct, sumA, sumB) in (d, b, a).
Proof.
  revert vecB dotProduct sumA sumB.
  induction vecA as [| x restA IH]; intros [| y restB] dotProduct sumA sumB;
    cbn [accumulate]; try reflexivity.
  rewrite (float_mul_comm y x). apply IH.
Qed.

Lemma cosineSimilarity_swap (vecA vecB : list float) :
  cosineSimilarity vecA vecB = cosineSimilarity vecB vecA.
Proof.
  unfold cosineSimilarity. rewrite (Nat.eqb_sym (List.length vecB)).
  destruct (negb (List.length vecA =? List.length vecB)%nat); [ reflexivity | ].
  rewrite (accumulate_swap vecA vecB).
  destruct (accumulate vecA vecB (0%float, 0%float, 0%float)) as [[d a] b].
  rewrite (orb_comm (PrimFloat.eqb (PrimFloat.sqrt b) 0)).
  rewrite (float_mul_comm (PrimFloat.sqrt b)). reflexivity.
Qed.

(** The sum of the squares of a vector of zeros stays [+0]. *)
Lemma accumulate_zero (vecA vecB : list float) (dotProduct sumB : float) :
  Forall (fun x => PrimFloat.eqb x 0%float = true) vecA ->
  exists d b, accumulate vecA vecB (dotProduct, 0%float, sumB) = (d, 0%float, b).
Proof.
  intros Hzero. revert vecB dotProduct sumB.
  induction Hzero as [| x restA Hx _ IH]; intros [| y restB] dotProduct sumB;
    cbn [accumulate]; try (do 2 eexists; reflexivity).
  rewrite (float_zero_square x Hx).
  change (0 + 0)%float with 0%float. apply IH.
Qed.

Lemma cosineSimilarity_zero (vecA vecB : list float) :
  Forall (fun x => PrimFloat.eqb x 0%float = true) vecA ->
  List.length vecA = List.length vecB ->
  cosineSimilarity vecA vecB = Ok 0%float.
Proof.
  intros Hzero Hlength. unfold cosineSimilarity.
  rewrite Hlength, Nat.eqb_refl. cbn [negb].
  destruct (accumulate_zero vecA vecB 0%float 0%float Hzero) as (d & b & ->).
  reflexivity.
Qed.

(** X16.  The cosine similarity is symmetric, exactly, in floating point:
    comparing the new embedding with a stored one gives the same number, or
    the same error, as comparing the stored one with the new one. *)
Theorem cosineSimilarity_is_symmetric (vecA vecB : list float) :
  cosineSimilarity vecA vecB = cosineSimilarity vecB vecA.
Proof. exact (cosineSimilarity_swap vecA vecB). Qed.

(** X17.  No division by zero.  The similarity of a vector whose
    components are all zero ([+0] or [-0]) with any vector of its length is
    0, on either side, also when the other vector holds infinities or NaN;
    so a stored embedding of zeros is never taken for a duplicate. *)
Theorem cosineSimilarity_of_zeros (zeros vec : list float) :
  Forall (fun x => PrimFloat.eqb x 0%float = true) zeros ->
  List.length zeros = List.length vec ->
  cosineSimilarity zeros vec = Ok 0%float
  /\ cosineSimilarity vec zeros = Ok 0%float
  /\ PrimFloat.leb similarityThreshold 0%float = false.
Proof.
  intros Hzero Hlength. split; [ | split ].
  - exact (cosineSimilarity_zero zeros vec Hzero Hlength).
  - rewrite cosineSimilarity_swap. exact (cosineSimilarity_zero zeros vec Hzero Hlength).
  - reflexivity.
Qed.

(** The zero vector against a vector with an infinite component. *)
Lemma cosineSimilarity_of_zeros_witness :
  cosineSimilarity [0%float; (-0)%float] [infinity; 1%float] = Ok 0%float
  /\ cosineSimilarity [infinity; 1%float] [0%float; (-0)%float] = Ok 0%float
  /\ PrimFloat.leb similarityThreshold 0%float = false.
Proof.
  apply (cosineSimilarity_of_zeros [0%float; (-0)%float] [infinity; 1%float]).
  - repeat constructor.
  - reflexivity.
Defined.

(* ===================================================================== *)
(** * A duplicate mark is backed by a finding (agent.ts, duplicate
      detection) *)
(* ===================================================================== *)

Lemma in_firstn {A : Type} (n : nat) (l : list A) (x : A) :
  In x (firstn n l) -> In x l.
Proof.
  revert l. induction n as [| n IH]; intros [| y l]; cbn; try tauto.
  intros [-> | Hin]; [ left; reflexivity | right; apply IH, Hin ].
Qed.

Ltac duplicate_leaf :=
  unfold duplicateJustifiedLoop, duplicateJustified in *; cbn; assumption.

Ltac stop_at_reading m :=
  lazymatch m with
  | gets summaryEmbedding => fail
  | _ => idtac
  end.

Ltac stop_at_query m :=
  lazymatch m with
  | querySimilarExecutions _ => fail
  | _ => idtac
  end.

Section DuplicateMarks.
Context {host : Host} {net : Oracle}.

Lemma findDuplicate_sound cur r similar :
  fst (findDuplicate cur r similar) = true ->
  exists prev, In prev similar /\ reachesThreshold cur prev = true.
Proof.
  induction similar as [| p rest IH]; [ discriminate | ].
  destruct (reachesThreshold cur p) eqn:Hreach.
  - intros _. exists p. split; [ left; reflexivity | exact Hreach ].
  - rewrite (findDuplicate_skip cur r p rest Hreach). intros Hrest.
    destruct (IH Hrest) as (prev & Hin & Hprev).
    exists prev. split; [ right; exact Hin | exact Hprev ].
Qed.

Lemma checkDuplicates_sound r embedding similar :
  fst (checkDuplicates r embedding similar) = true ->
  exists cur prev,
    embedding = Some cur /\ In prev similar /\ reachesThreshold cur prev = true.
Proof.
  unfold checkDuplicates.
  destruct embedding as [cur |]; [ | discriminate ].
  destruct similar as [| p rest]; [ discriminate | ].
  destruct (taskCompleted r); [ | discriminate ].
  intros Hfound. destruct (findDuplicate_sound cur r (p :: rest) Hfound) as (prev & H).
  exists cur, prev. split; [ reflexivity | exact H ].
Qed.

(** Findings come from the stored executions of the scout. *)
Lemma similarExecutions_are_findings scoutId rows prev :
  In prev (filter validEmbedding (recentExecutions scoutId rows)) ->
  In prev rows /\ isFinding scoutId prev.
Proof.
  intros Hin. apply filter_In in Hin. destruct Hin as [Hin Hvalid].
  unfold recentExecutions in Hin. apply in_firstn in Hin.
  apply orderDesc_In, filter_In in Hin. destruct Hin as [Hin Hp].
  apply andb_true_iff in Hp. destruct Hp as [Hp Hembedding].
  apply andb_true_iff in Hp. destruct Hp as [Hp Htext].
  apply andb_true_iff in Hp. destruct Hp as [Hscout Hstatus].
  split; [ exact Hin | ]. split; [ apply String.eqb_eq, Hscout | ].
  split; [ apply statusIs_eq, Hstatus | ].
  split; [ destruct (Execution.summary_text prev); [ discriminate | discriminate Htext ] | ].
  unfold validEmbedding in Hvalid.
  destruct (Execution.summary_embedding prev) as [v |]; [ | discriminate ].
  exists v. split; [ reflexivity | apply Nat.eqb_eq, Hvalid ].
Qed.

Lemma unmarked_justified pool st : isDuplicate st = false -> duplicateJustified pool st.
Proof. intros Hmark Hset. congruence. Qed.

(** The branch of the final message ends the loop, and leaves a mark that
    is backed.  It may throw: before it marks anything, or after. *)
Lemma finalizeRun_marks scout executionId similar assistantMessage :
  triple (fun st => isDuplicate st = false)
         (finalizeRun scout executionId similar assistantMessage)
         (fun _ st => duplicateJustified similar st /\ continueLoop st = false)
         (fun _ => duplicateJustified similar).
Proof.
  apply triple_weaken
    with (P := fun st => isDuplicate st = false)
         (Q := fun _ st => duplicateJustified similar st /\ continueLoop st = false)
         (E := fun _ st => (isDuplicate st = false /\ continueLoop st = false)
                           \/ (duplicateJustified similar st /\ continueLoop st = false));
    [ | auto | auto
      | intros e st [[H _] | [H _]]; [ apply unmarked_justified, H | exact H ] ].
  unfold finalizeRun. cbv zeta.
  apply triple_bind
    with (R := fun _ st => isDuplicate st = false /\ continueLoop st = false).
  { apply triple_modify. intros st H. split; [ exact H | reflexivity ]. }
  intros _.
  walk ltac:(cbn; intuition) nothing_known stop_at_reading.
  apply triple_bind
    with (R := fun embedding st => (isDuplicate st = false /\ continueLoop st = false)
                                   /\ summaryEmbedding st = embedding).
  { apply triple_gets. auto. }
  intros embedding.
  destruct (checkDuplicates (parseScoutResponse (content assistantMessage))
              embedding similar) as [duplicate final] eqn:Hcheck.
  apply triple_bind
    with (R := fun _ st => duplicateJustified similar st /\ continueLoop st = false).
  { apply triple_modify. intros st [[_ Hcontinue] Hembedding].
    split; [ | exact Hcontinue ].
    intros Hmark. cbn in Hmark. subst duplicate.
    destruct (checkDuplicates_sound (parseScoutResponse (content assistantMessage))
                embedding similar) as (cur & prev & -> & Hprev).
    { rewrite Hcheck. reflexivity. }
    exists cur, prev. split; [ exact Hembedding | exact Hprev ]. }
  intros _.
  apply triple_weaken
    with (P := fun st => duplicateJustified similar st /\ continueLoop st = false)
         (Q := fun _ st => duplicateJustified similar st /\ continueLoop st = false)
         (E := fun _ st => duplicateJustified similar st /\ continueLoop st = false);
    [ | auto | auto | auto ].
  as_keeps. keep duplicate_leaf nothing_known.
Qed.

Lemma agentIteration_justified scout executionId key maxAgeMs pool :
  triple (fun st => duplicateJustifiedLoop pool st /\ continueLoop st = true)
         (agentIteration scout executionId key maxAgeMs pool)
         (fun _ => duplicateJustifiedLoop pool)
         (fun _ => duplicateJustified pool).
Proof.
  apply triple_weaken
    with (P := fun st => isDuplicate st = false)
         (Q := fun _ st => isDuplicate st = false
                           \/ (duplicateJustified pool st /\ continueLoop st = false))
         (E := fun _ st => isDuplicate st = false \/ duplicateJustified pool st).
  - unfold agentIteration.
    walk ltac:(cbn; assumption) nothing_known ltac:(fun m => idtac).
    + eapply triple_weaken; [ apply finalizeRun_marks | auto | cbn; auto | cbn; auto ].
    + apply triple_weaken
        with (P := fun st => isDuplicate st = false)
             (Q := fun _ st => isDuplicate st = false)
             (E := fun _ st => isDuplicate st = false); [ | auto | auto | auto ].
      as_keeps. keep ltac:(cbn; assumption) nothing_known.
  - intros st [[_ Hnone] Hcontinue]. exact (Hnone Hcontinue).
  - intros _ st [Hnone | [Hjustified Hcontinue]]; split.
    + apply unmarked_justified, Hnone.
    + intros _. exact Hnone.
    + exact Hjustified.
    + rewrite Hcontinue. discriminate.
  - intros e st [Hnone | Hjustified];
      [ apply unmarked_justified, Hnone | exact Hjustified ].
Qed.

Lemma runBody_justified scout executionId rows :
  triple (fun st => isDuplicate st = false /\ scout_executions st = rows)
         (runBody scout executionId)
         (fun _ => duplicateJustified
                     (filter validEmbedding (recentExecutions (Scout.id scout) rows)))
         (fun _ => duplicateJustified
                     (filter validEmbedding (recentExecutions (Scout.id scout) rows))).
Proof.
  set (pool := filter validEmbedding (recentExecutions (Scout.id scout) rows)).
  assert (Hstart : forall st, isDuplicate st = false /\ scout_executions st = rows ->
                              duplicateJustified pool st).
  { intros st [Hmark _]. apply unmarked_justified, Hmark. }
  unfold runBody.
  walk ltac:(cbn; assumption) nothing_known stop_at_query;
    try (apply Hstart; assumption).
  apply triple_bind
    with (R := fun similar st => isDuplicate st = false /\ similar = pool).
  { unfold querySimilarExecutions.
    apply triple_bind
      with (R := fun found st => (isDuplicate st = false /\ scout_executions st = rows)
                                 /\ found = rows).
    - apply triple_gets. intros st H. split; [ exact H | apply H ].
    - intros found. apply triple_pure. intros ->.
      apply triple_ret. intros st H. split; [ apply H | reflexivity ]. }
  intros similar. apply triple_pure. intros ->.
  apply triple_weaken
    with (P := fun st => isDuplicate st = false)
         (Q := fun _ => duplicateJustified pool)
         (E := fun _ => duplicateJustified pool); [ | auto | auto | auto ].
  assert (Hthrow : forall st, isDuplicate st = false -> duplicateJustified pool st)
    by (intros st H; apply unmarked_justified, H).
  walk ltac:(cbn; assumption) nothing_known stop_at_loop.
  apply triple_bind with (R := fun _ => duplicateJustifiedLoop pool).
  - eapply triple_weaken;
      [ apply (keeps_agentLoop_while (duplicateJustifiedLoop pool)
                 (fun _ => duplicateJustified pool)), agentIteration_justified
      | | auto | auto ].
    intros st Hnone. split; [ apply unmarked_justified, Hnone | intros _; exact Hnone ].
  - intros _.
    apply triple_weaken
      with (P := duplicateJustified pool)
           (Q := fun _ => duplicateJustified pool)
           (E := fun _ => duplicateJustified pool); [ | | auto | auto ].
    2:{ intros st [H _]. exact H. }
    as_keeps. keep duplicate_leaf nothing_known.
Qed.

Lemma runFailed_justified scout executionId error pool :
  preserves (duplicateJustified pool) (runFailed scout executionId error).
Proof. keep duplicate_leaf nothing_known. Qed.

(** X18.  A duplicate mark is backed by a finding.  A run marks its
    result as a duplicate, which withholds the e-mail, only if it has an
    embedding and some execution stored before the run is a finding of
    the same scout (completed, with a summary and an embedding of 1536
    dimensions) whose cosine similarity with that embedding is at least
    0.85. *)
Theorem duplicate_marks_are_backed (scout : Scout.t) (st : St) :
  let st' := snd (executeScoutAgent scout st) in
  isDuplicate st' = true ->
  exists currentEmbedding prev prevEmbedding similarity,
    summaryEmbedding st' = Some currentEmbedding
    /\ In prev (scout_executions st)
    /\ Execution.scout_id prev = Scout.id scout
    /\ Execution.status prev = Status.completed
    /\ Execution.summary_text prev <> None
    /\ Execution.summary_embedding prev = Some prevEmbedding
    /\ List.length prevEmbedding = 1536
    /\ cosineSimilarity currentEmbedding prevEmbedding = Ok similarity
    /\ PrimFloat.leb similarityThreshold similarity = true.
Proof.
  cbv zeta. unfold executeScoutAgent, insertExecution.
  destruct insert_reply as [runId |]; [ | cbn; discriminate ].
  unfold bind at 1 2 3 4, freshLocals, now, gets, modify, ret. cbn [fst snd].
  match goal with
  | |- context [try_catch _ _ ?s] => set (st1 := s)
  end.
  set (pool := filter validEmbedding
                 (recentExecutions (Scout.id scout) (scout_executions st1))).
  assert (Hrun : duplicateJustified pool
                   (snd (try_catch (runBody scout runId) (runFailed scout runId) st1))).
  { unfold try_catch.
    pose proof (runBody_justified scout runId (scout_executions st1) st1
                  (conj eq_refl eq_refl)) as Hbody.
    destruct (runBody scout runId st1) as [[[] | error] st2]; cbn [snd].
    - exact Hbody.
    - exact (preserves_result _ _ st2 (runFailed_justified scout runId error pool) Hbody). }
  intros Hmark. destruct (Hrun Hmark) as (cur & prev & Hcur & Hin & Hreach).
  apply similarExecutions_are_findings in Hin.
  destruct Hin as [Hin (Hscout & Hstatus & Htext & v & Hv & Hlength)].
  unfold reachesThreshold, similarityTo in Hreach. rewrite Hv in Hreach.
  destruct (negb (List.length v =? 1536)%nat); [ discriminate | ].
  destruct (negb (List.length v =? List.length cur)%nat); [ discriminate | ].
  destruct (cosineSimilarity cur v) as [similarity | e] eqn:Hsimilarity;
    [ | discriminate ].
  exists cur, prev, v, similarity. repeat split; auto.
  subst st1. cbn in Hin. apply in_app_or in Hin.
  destruct Hin as [Hin | [<- | []]]; [ exact Hin | discriminate Hstatus ].
Qed.

End DuplicateMarks.

(** Scout S1 finds the news that execution E7 had found. *)
Lemma duplicate_marks_witness :
  let st' := snd (@executeScoutAgent Sample.runtime
                    (Sample.findsAtOnce "A new AI model was released.")
                    Sample.scoutS1 Sample.storeWithFinding) in
  exists currentEmbedding prev prevEmbedding similarity,
    summaryEmbedding st' = Some currentEmbedding
    /\ In prev (scout_executions Sample.storeWithFinding)
    /\ Execution.scout_id prev = "S1"
    /\ Execution.status prev = Status.completed
    /\ Execution.summary_text prev <> None
    /\ Execution.summary_embedding prev = Some prevEmbedding
    /\ List.length prevEmbedding = 1536
    /\ cosineSimilarity currentEmbedding prevEmbedding = Ok similarity
    /\ PrimFloat.leb similarityThreshold similarity = true.
Proof.
  apply (@duplicate_marks_are_backed Sample.runtime
           (Sample.findsAtOnce "A new AI model was released.")
           Sample.scoutS1 Sample.storeWithFinding).
  vm_compute. reflexivity.
Defined.

(* ===================================================================== *)
(** * What is handed to [JSON.parse] (agent.ts, "Clean up the response to
      extract JSON") *)
(* ===================================================================== *)

(** X19.  No code fence reaches [JSON.parse].  Whatever the assistant
    wrote, the text taken from its final message holds no run of three
    backticks: all the fences are removed, with or without the word json,
    and removing them brings no new one together. *)
Theorem extractJson_leaves_no_fence (finalContent : string) :
  JsString.includes (extractJson finalContent) "```" = false.
Proof.
  unfold extractJson. cbv zeta.
  set (trimmed := JsString.trim finalContent).
  assert (Hclean : JsString.includes
            (if JsString.includes trimmed "```json"
             then JsString.replaceAllWithSpace "```"
                    (JsString.replaceAllWithSpace "```json" trimmed)
             else if JsString.includes trimmed "```"
                  then JsString.replaceAllWithSpace "```" trimmed
                  else trimmed) "```" = false).
  { destruct (JsString.includes trimmed "```json");
      [ apply replaceAllWithSpace_no_fence | ].
    destruct (JsString.includes trimmed "```") eqn:Hfenced;
      [ apply replaceAllWithSpace_no_fence | exact Hfenced ]. }
  revert Hclean.
  generalize (if JsString.includes trimmed "```json"
              then JsString.replaceAllWithSpace "```"
                     (JsString.replaceAllWithSpace "```json" trimmed)
              else if JsString.includes trimmed "```"
                   then JsString.replaceAllWithSpace "```" trimmed
                   else trimmed).
  intros jsonString Hclean.
  destruct (JsString.lastIndexOf "}"%char jsonString) as [lastBrace |];
    [ apply includes_substring, Hclean | exact Hclean ].
Qed.

(** X20.  Nothing follows the last closing brace.  When the text taken
    from the final message holds a closing brace at all, its last closing
    brace is its last character: whatever the assistant wrote after the
    JSON object is cut off. *)
Theorem extractJson_ends_with_the_last_brace (finalContent : string) :
  match JsString.lastIndexOf "}"%char (extractJson finalContent) with
  | Some lastBrace => String.length (extractJson finalContent) = lastBrace + 1
  | None => True
  end.
Proof.
  unfold extractJson. cbv zeta.
  generalize (if JsString.includes (JsString.trim finalContent) "```json"
              then JsString.replaceAllWithSpace "```"
                     (JsString.replaceAllWithSpace "```json" (JsString.trim finalContent))
              else if JsString.includes (JsString.trim finalContent) "```"
                   then JsString.replaceAllWithSpace "```" (JsString.trim finalContent)
                   else JsString.trim finalContent).
  intros jsonString.
  destruct (JsString.lastIndexOf "}"%char jsonString) as [lastBrace |] eqn:Hbrace.
  - destruct (lastIndexOf_cut _ _ _ Hbrace) as [Hlength Hlast].
    rewrite Hlast. exact Hlength.
  - rewrite Hbrace. exact I.
Qed.

(** Four backticks, a fence and two more: the two fences go, one backtick
    and two are left apart. *)
Example fences_do_not_join :
  extractJson ("````x``` ``") = "`x``".
Proof. reflexivity. Qed.

(* ===================================================================== *)
(** * The provider the requests go to (openai-config.ts) *)
(* ===================================================================== *)

Lemma stripTrailingSlash_slashed (s : string) : stripTrailingSlash (s ++ "/") = s.
Proof.
  induction s as [| c s IH]; [ reflexivity | ].
  cbn [append stripTrailingSlash]. rewrite IH.
  destruct s; reflexivity.
Qed.

Lemma stripTrailingSlash_plain (s : string) :
  endsWithSlash s = false -> stripTrailingSlash s = s.
Proof.
  induction s as [| c s IH]; [ reflexivity | ].
  cbn [endsWithSlash stripTrailingSlash]. destruct s as [| d s].
  - intros ->. reflexivity.
  - intros Hplain. rewrite (IH Hplain). reflexivity.
Qed.

Lemma truthyStr_slashed (s : string) : truthyStr (Some (s ++ "/")) = true.
Proof. destruct s; reflexivity. Qed.

(** X21.  Requests to Azure OpenAI depend on the Azure settings only, and
    a slash at the end of the endpoint makes no difference.  With the
    Azure key and endpoint set, two environments that agree on the Azure
    key, deployments and API version, and on the endpoint up to one
    trailing slash, give the same configuration and the same URLs, whatever
    else they hold (an OpenAI key included): the base URL is the endpoint
    without the slash, and the URLs are the base URL followed by
    /openai/deployments/, the deployment, the path and the API version. *)
Theorem azure_requests_follow_the_azure_settings (net other : Oracle)
    (endpoint : string) (st : St) :
  truthyStr (@env net "AZURE_OPENAI_API_KEY") = true ->
  @env net "AZURE_OPENAI_ENDPOINT" = Some endpoint ->
  JsString.nonEmpty endpoint = true ->
  endsWithSlash endpoint = false ->
  @env other "AZURE_OPENAI_API_KEY" = @env net "AZURE_OPENAI_API_KEY" ->
  (@env other "AZURE_OPENAI_ENDPOINT" = Some endpoint
   \/ @env other "AZURE_OPENAI_ENDPOINT" = Some (endpoint ++ "/")) ->
  @env other "AZURE_OPENAI_CHAT_DEPLOYMENT" = @env net "AZURE_OPENAI_CHAT_DEPLOYMENT" ->
  @env other "AZURE_OPENAI_EMBEDDING_DEPLOYMENT"
  = @env net "AZURE_OPENAI_EMBEDDING_DEPLOYMENT" ->
  @env other "AZURE_OPENAI_API_VERSION" = @env net "AZURE_OPENAI_API_VERSION" ->
  exists config,
    @getOpenAIConfig net st = (Ok config, st)
    /\ @getOpenAIConfig other st = (Ok config, st)
    /\ isAzure config = true
    /\ baseUrl config = endpoint
    /\ @getChatCompletionsUrl other config = @getChatCompletionsUrl net config
    /\ @getEmbeddingsUrl other config = @getEmbeddingsUrl net config
    /\ @getChatCompletionsUrl net config
       = endpoint ++ "/openai/deployments/" ++ chatModel config
         ++ "/chat/completions?api-version="
         ++ orDefault (@env net "AZURE_OPENAI_API_VERSION") "2024-08-01-preview"
    /\ @getEmbeddingsUrl net config
       = endpoint ++ "/openai/deployments/" ++ embeddingModel config
         ++ "/embeddings?api-version="
         ++ orDefault (@env net "AZURE_OPENAI_API_VERSION") "2024-08-01-preview".
Proof.
  intros Hkey Hendpoint Hset Hplain Hsamekey Hother Hchat Hembedding Hversion.
  assert (Hbase : stripTrailingSlash (showStr (@env other "AZURE_OPENAI_ENDPOINT"))
                  = endpoint
                  /\ truthyStr (@env other "AZURE_OPENAI_ENDPOINT") = true).
  { destruct Hother as [-> | ->]; cbn [showStr].
    - split; [ apply stripTrailingSlash_plain, Hplain | exact Hset ].
    - split; [ apply stripTrailingSlash_slashed | apply truthyStr_slashed ]. }
  destruct Hbase as [Hbase Hothertruthy].
  eexists. unfold getOpenAIConfig, getChatCompletionsUrl, getEmbeddingsUrl.
  rewrite Hothertruthy, Hsamekey, Hchat, Hembedding, Hversion, Hbase.
  rewrite Hkey, Hendpoint. cbn [truthyStr showStr andb]. rewrite Hset.
  rewrite (stripTrailingSlash_plain endpoint Hplain).
  repeat split.
Qed.

(** The endpoint with a slash and no OpenAI key, against the endpoint
    without and an OpenAI key. *)
Lemma azure_requests_witness :
  exists config,
    @getOpenAIConfig (Scenario.onAzure "https://res.openai.azure.com" (Some "sk-test"))
       Sample.store0
    = (Ok config, Sample.store0)
    /\ @getOpenAIConfig (Scenario.onAzure "https://res.openai.azure.com/" None) Sample.store0
       = (Ok config, Sample.store0)
    /\ isAzure config = true
    /\ baseUrl config = "https://res.openai.azure.com"
    /\ @getChatCompletionsUrl (Scenario.onAzure "https://res.openai.azure.com/" None) config
       = @getChatCompletionsUrl
           (Scenario.onAzure "https://res.openai.azure.com" (Some "sk-test")) config
    /\ @getEmbeddingsUrl (Scenario.onAzure "https://res.openai.azure.com/" None) config
       = @getEmbeddingsUrl
           (Scenario.onAzure "https://res.openai.azure.com" (Some "sk-test")) config
    /\ @getChatCompletionsUrl
         (Scenario.onAzure "https://res.openai.azure.com" (Some "sk-test")) config
       = "https://res.openai.azure.com" ++ "/openai/deployments/" ++ chatModel config
         ++ "/chat/completions?api-version="
         ++ orDefault None "2024-08-01-preview"
    /\ @getEmbeddingsUrl
         (Scenario.onAzure "https://res.openai.azure.com" (Some "sk-test")) config
       = "https://res.openai.azure.com" ++ "/openai/deployments/" ++ embeddingModel config
         ++ "/embeddings?api-version="
         ++ orDefault None "2024-08-01-preview".
Proof.
  apply (azure_requests_follow_the_azure_settings
           (Scenario.onAzure "https://res.openai.azure.com" (Some "sk-test"))
           (Scenario.onAzure "https://res.openai.azure.com/" None)
           "https://res.openai.azure.com" Sample.store0);
    first [ reflexivity | right; reflexivity ].
Defined.

(** The chat completions of that configuration go to the deployment
    "chat-prod". *)
Example azure_chat_url :
  match fst (@getOpenAIConfig (Scenario.onAzure "https://res.openai.azure.com/" None)
               Sample.store0) with
  | Ok config =>
      @getChatCompletionsUrl (Scenario.onAzure "https://res.openai.azure.com/" None) config
      = "https://res.openai.azure.com/openai/deployments/chat-prod/chat/completions?api-version=2024-08-01-preview"
  | Throw _ => False
  end.
Proof. reflexivity. Qed.

(* ===================================================================== *)
(** * The secrets of the edge functions (setup script,
      [syncEdgeFunctionSecrets]) *)
(* ===================================================================== *)

Section SetupScript.
Import Setup.
Variable processEnv : string -> option string.

Lemma sortSecrets_from (secrets : list Secret) (lists : Sorted) :
  fold_left (sortSecret processEnv) secrets lists
  = {| secretsToSet :=
         (secretsToSet lists
          ++ map (fun s => {| found_name := secret_name s;
                              found_value := showStr (processEnv (secret_env s)) |})
                 (filter (isSet processEnv) secrets))%list;
       missingRequired :=
         (missingRequired lists
          ++ map secret_env (filter (fun s => negb (isSet processEnv s) && required s) secrets))%list;
       missingOptional :=
         (missingOptional lists
          ++ map secret_env
               (filter (fun s => negb (isSet processEnv s) && negb (required s)) secrets))%list |}.
Proof.
  revert lists. induction secrets as [| secret rest IH]; intros lists.
  - cbn. rewrite !app_nil_r. destruct lists; reflexivity.
  - cbn [fold_left]. rewrite IH. cbn [filter]. unfold sortSecret, isSet.
    destruct (truthyStr (processEnv (secret_env secret))); cbn [negb andb].
    + cbn [secretsToSet missingRequired missingOptional map].
      rewrite <- app_assoc. reflexivity.
    + destruct (required secret); cbn [negb andb secretsToSet missingRequired
                                        missingOptional map];
        rewrite <- app_assoc; reflexivity.
Qed.

Lemma lengths_of_three {A : Type} (p r : A -> bool) (l : list A) :
  List.length (filter p l)
  + List.length (filter (fun x => negb (p x) && r x) l)
  + List.length (filter (fun x => negb (p x) && negb (r x)) l)
  = List.length l.
Proof.
  induction l as [| x l IH]; [ reflexivity | ].
  cbn [filter]. destruct (p x), (r x); cbn [negb andb List.length]; lia.
Qed.

(** X22.  Every secret is sorted into one list.  Whatever the
    environment holds, each of the nine secrets of the script ends in
    exactly one of the three lists: the secrets to set hold those whose
    variable is set and not empty, with its value, in the order of the
    script; of the others the only one reported as required is
    FIRECRAWL_API_KEY, and the rest are reported as optional. *)
Theorem every_secret_is_sorted_once :
  let lists := sortSecrets processEnv secretsToSync in
  List.length (secretsToSet lists) + List.length (missingRequired lists)
  + List.length (missingOptional lists) = 9
  /\ secretsToSet lists
     = map (fun s => {| found_name := secret_name s;
                        found_value := showStr (processEnv (secret_env s)) |})
           (filter (fun s => truthyStr (processEnv (secret_env s))) secretsToSync)
  /\ (forall found, In found (secretsToSet lists) ->
        processEnv (found_name found) = Some (found_value found)
        /\ found_value found <> EmptyString)
  /\ missingRequired lists
     = (if truthyStr (processEnv "FIRECRAWL_API_KEY") then [] else ["FIRECRAWL_API_KEY"])
  /\ (forall name, In name (missingOptional lists) ->
        truthyStr (processEnv name) = false /\ name <> "FIRECRAWL_API_KEY").
Proof.
  cbv zeta. unfold sortSecrets. rewrite sortSecrets_from.
  cbn [secretsToSet missingRequired missingOptional app].
  split; [ | split; [ | split; [ | split ] ] ].
  - rewrite !length_map. exact (lengths_of_three (isSet processEnv) required secretsToSync).
  - reflexivity.
  - intros found Hin. apply in_map_iff in Hin. destruct Hin as (secret & <- & Hin).
    apply filter_In in Hin. destruct Hin as [Hlisted Hset]. unfold isSet in Hset.
    cbn [found_name found_value].
    assert (Hname : secret_name secret = secret_env secret).
    { unfold secretsToSync in Hlisted. cbn in Hlisted.
      repeat (destruct Hlisted as [<- | Hlisted]; [ reflexivity | ]). destruct Hlisted. }
    rewrite Hname.
    destruct (processEnv (secret_env secret)) as [value |]; [ | discriminate ].
    split; [ reflexivity | ]. cbn. intros ->. discriminate.
  - unfold secretsToSync. unfold isSet. cbn [filter required negb andb secret_env].
    rewrite !andb_false_r. rewrite andb_true_r.
    destruct (truthyStr (processEnv "FIRECRAWL_API_KEY")); reflexivity.
  - intros name Hin. apply in_map_iff in Hin. destruct Hin as (secret & <- & Hin).
    apply filter_In in Hin. destruct Hin as [Hlisted Hmissing].
    apply andb_true_iff in Hmissing. destruct Hmissing as [Hunset Hoptional].
    apply negb_true_iff in Hunset. apply negb_true_iff in Hoptional.
    split; [ exact Hunset | ].
    unfold secretsToSync in Hlisted. cbn in Hlisted.
    repeat (destruct Hlisted as [<- | Hlisted]; [ first [ discriminate | discriminate Hoptional ] | ]).
    destruct Hlisted.
Qed.

Variable cli : string -> string -> Res Spawned.

Lemma syncSecrets_accounts (todo : list Found) (state : Synced) :
  notLinked state = false ->
  let report := syncSecrets cli todo state in
  successCount state <= successCount report
  /\ (successCount report - successCount state)
     + (List.length (failedSecrets report) - List.length (failedSecrets state))
     <= List.length todo
  /\ List.length (failedSecrets state) <= List.length (failedSecrets report)
  /\ (notLinked report = false ->
      (successCount report - successCount state)
      + (List.length (failedSecrets report) - List.length (failedSecrets state))
      = List.length todo)
  /\ (forall name, In name (map fst (failedSecrets report)) ->
        In name (map fst (failedSecrets state)) \/ In name (map found_name todo)).
Proof.
  revert state. induction todo as [| secret rest IH]; intros state Hlinked; cbv zeta.
  - cbn. repeat split; try lia. intros name Hin. left. exact Hin.
  - cbn [syncSecrets]. cbv zeta.
    destruct (bindRes (cli (found_name secret) (found_value secret)) _) as [[] | error].
    + specialize (IH {| successCount := successCount state + 1;
                        failedSecrets := failedSecrets state;
                        notLinked := notLinked state |} Hlinked).
      cbv zeta in IH. cbn [successCount failedSecrets notLinked] in IH.
      destruct IH as (H1 & H2 & H3 & H4 & H5).
      cbn [List.length map]. repeat split; try lia.
      * intros Hreport. specialize (H4 Hreport). lia.
      * intros name Hin. destruct (H5 name Hin) as [Hold | Hnew]; [ left | right; right ];
          assumption.
    + destruct (JsString.includes (errorOutput error) "not linked").
      * cbn. repeat split; try lia; try discriminate. intros name Hin. left. exact Hin.
      * specialize (IH {| successCount := successCount state;
                          failedSecrets :=
                            (failedSecrets state
                             ++ [(found_name secret, errorOutput error)])%list;
                          notLinked := notLinked state |} Hlinked).
        cbv zeta in IH. cbn [successCount failedSecrets notLinked] in IH.
        rewrite length_app in IH. cbn [List.length] in IH.
        destruct IH as (H1 & H2 & H3 & H4 & H5).
        cbn [List.length map]. repeat split; try lia.
        -- intros Hreport. specialize (H4 Hreport). lia.
        -- intros name Hin. destruct (H5 name Hin) as [Hold | Hnew].
           ++ rewrite map_app in Hold. apply in_app_or in Hold.
              destruct Hold as [Hold | [<- | []]]; [ left; exact Hold | right; left; reflexivity ].
           ++ right. right. exact Hnew.
Qed.

(** X23.  The loop that sets the secrets accounts for each of them.
    Unless the command line reports that the project is not linked, at
    which the function returns, every secret to set is tried: it is
    counted as set or listed as failed, so the two numbers add up to the
    number of secrets; a failure of one secret does not keep the others
    from being set.  In any case no secret is counted twice, and only
    secrets that were to be set are listed as failed. *)
Theorem each_secret_is_set_or_reported (todo : list Found) :
  let report :=
    syncSecrets cli todo {| successCount := 0; failedSecrets := []; notLinked := false |} in
  successCount report + List.length (failedSecrets report) <= List.length todo
  /\ (notLinked report = false ->
      successCount report + List.length (failedSecrets report) = List.length todo)
  /\ (forall name, In name (map fst (failedSecrets report)) ->
        In name (map found_name todo)).
Proof.
  cbv zeta.
  destruct (syncSecrets_accounts todo
              {| successCount := 0; failedSecrets := []; notLinked := false |} eq_refl)
    as (H1 & H2 & H3 & H4 & H5).
  cbn [successCount failedSecrets List.length map] in *.
  split; [ lia | ]. split.
  - intros Hreport. specialize (H4 Hreport). lia.
  - intros name Hin. destruct (H5 name Hin) as [[] | Hnew]. exact Hnew.
Qed.

End SetupScript.

(** With an OpenAI key, an empty Firecrawl key and a Resend key: two
    secrets to set, the Firecrawl key reported as required, six as
    optional. *)
Example secrets_of_a_dot_env :
  let lists := Setup.sortSecrets Scenario.dotEnv Setup.secretsToSync in
  map Setup.found_name (Setup.secretsToSet lists) = ["OPENAI_API_KEY"; "RESEND_API_KEY"]
  /\ Setup.missingRequired lists = ["FIRECRAWL_API_KEY"]
  /\ List.length (Setup.missingOptional lists) = 6.
Proof. vm_compute. repeat split. Qed.

(** The OpenAI key is set and the Resend key fails: one and one. *)
Example one_set_one_failed :
  let report :=
    Setup.syncSecrets Scenario.flakyCli
      (Setup.secretsToSet (Setup.sortSecrets Scenario.dotEnv Setup.secretsToSync))
      {| Setup.successCount := 0; Setup.failedSecrets := []; Setup.notLinked := false |} in
  Setup.successCount report = 1
  /\ Setup.failedSecrets report = [("RESEND_API_KEY", "request failed")]
  /\ Setup.notLinked report = false.
Proof. vm_compute. repeat split. Qed.

(* ===================================================================== *)
(** * The chat that configures a scout (app/api/scout/route.ts) *)
(* ===================================================================== *)

Lemma Forall2_map_right {A : Type} (R : A -> A -> Prop) (g : A -> A) (l : list A) :
  (forall a, R a (g a)) -> Forall2 R l (map g l).
Proof. intros Hg. induction l as [| a l IH]; cbn; constructor; auto. Qed.

Lemma configuredOnly_refl conversation params row :
  configuredOnly conversation params row row.
Proof. unfold configuredOnly. repeat split. Qed.

Lemma configuredOnly_written conversation params row :
  configuredOnly conversation params row
    (if String.eqb (Scout.id row) conversation then Chat.written params row else row).
Proof.
  destruct (String.eqb (Scout.id row) conversation) eqn:Hid;
    [ | apply configuredOnly_refl ].
  apply String.eqb_eq in Hid.
  unfold configuredOnly, Chat.written. cbn.
  repeat split; try (intros ->; reflexivity).
  intros Hother. contradiction.
Qed.

(** X24.  The chat stores nothing for a stranger.  A request without a
    session is answered 401, whatever its body; one whose body cannot be
    parsed 400; one for a scout that does not exist or is not the user's
    403; and none of them changes a table.  Only for the owner of the
    scout does the handler go on to the model, with the scout as stored,
    and before that it has stored at most one message: the text parts of
    the last message, joined by line feeds, when that message is the
    user's and the text is not empty.  The scouts are as they were in any
    case. *)
Theorem chat_stores_nothing_for_a_stranger (user : option string)
    (body : Res Chat.Body) (store : Chat.Store) :
  let answer := fst (Chat.POST user body store) in
  let store' := snd (Chat.POST user body store) in
  Chat.scouts store' = Chat.scouts store
  /\ match answer with
     | Chat.Refused status _ =>
         store' = store
         /\ (status = 401 \/ status = 400 \/ status = 403)
         /\ (user = None -> status = 401)
     | Chat.Streams currentScout =>
         exists userId request scout,
           user = Some userId
           /\ body = Ok request
           /\ filter (fun s => String.eqb (Scout.id s) (Chat.scoutId request))
                     (Chat.scouts store) = [scout]
           /\ Scout.user_id scout = userId
           /\ currentScout = Some scout
           /\ (Chat.scout_messages store' = Chat.scout_messages store
               \/ exists message,
                    Chat.lastMessage (Chat.messages request) = Some message
                    /\ Chat.role message = "user"
                    /\ Chat.textOf message <> EmptyString
                    /\ Chat.scout_messages store'
                       = (Chat.scout_messages store
                          ++ [{| Chat.message_scout_id := Chat.scoutId request;
                                 Chat.message_role := "user";
                                 Chat.message_content := Chat.textOf message |}])%list)
     end.
Proof.
  cbv zeta. unfold Chat.POST.
  destruct user as [userId |]; [ | cbn; auto 6 ].
  destruct body as [request | e]; [ | cbn; split; [ | split; [ | split ] ]; auto; discriminate ].
  destruct (fetchScout (Chat.scoutId request) (Chat.scouts store)) as [scout |] eqn:Hfetch;
    [ | cbn; split; [ | split; [ | split ] ]; auto; discriminate ].
  destruct (String.eqb (Scout.user_id scout) userId) eqn:Howner; cbn [negb];
    [ | cbn; split; [ | split; [ | split ] ]; auto; discriminate ].
  apply String.eqb_eq in Howner. cbn [fst snd].
  assert (Hsaved : Chat.scouts (Chat.saveUserMessage request store) = Chat.scouts store).
  { unfold Chat.saveUserMessage.
    destruct (Chat.lastMessage (Chat.messages request)) as [message |]; [ | reflexivity ].
    destruct (String.eqb (Chat.role message) "user"); [ | reflexivity ].
    cbv zeta. destruct (JsString.nonEmpty (Chat.textOf message)); reflexivity. }
  split; [ exact Hsaved | ].
  rewrite Hsaved, Hfetch. apply fetchScout_single in Hfetch.
  destruct Hfetch as (Hsingle & _ & _).
  exists userId, request, scout. repeat split; auto.
  unfold Chat.saveUserMessage.
  destruct (Chat.lastMessage (Chat.messages request)) as [message |]; [ | left; reflexivity ].
  destruct (String.eqb (Chat.role message) "user") eqn:Hrole; [ | left; reflexivity ].
  cbv zeta. destruct (JsString.nonEmpty (Chat.textOf message)) eqn:Htext;
    [ | left; reflexivity ].
  right. exists message. apply String.eqb_eq in Hrole.
  repeat split; auto.
  intros Hempty. rewrite Hempty in Htext. discriminate.
Qed.

Lemma given_is_written conversation params row :
  Scout.id row = conversation ->
  let after :=
    if String.eqb (Scout.id row) conversation then Chat.written params row else row in
  (forall v, Chat.new_title params = Some v -> Scout.title after = v)
  /\ (forall v, Chat.new_goal params = Some v -> Scout.goal after = v)
  /\ (forall v, Chat.new_description params = Some v -> Scout.description after = v)
  /\ (forall v, Chat.new_location params = Some v -> Scout.location after = Some v)
  /\ (forall v, Chat.new_search_queries params = Some v -> Scout.search_queries after = v)
  /\ (forall v, Chat.new_frequency params = Some v -> Scout.frequency after = Some v).
Proof.
  intros Hid. apply String.eqb_eq in Hid. rewrite Hid. cbv zeta.
  unfold Chat.written, Chat.orKeep. cbn.
  repeat split; intros v ->; reflexivity.
Qed.

(** X25.  The tool of the chat writes the fields it is given and nothing
    else.  When the store reports no error, [update_scout_config] stores
    every field it is given, title, goal, description, location, search
    queries and frequency, in the scout of the conversation.  It changes no
    scout but that one, and of that one neither id nor owner, neither
    [is_active] (the assistant cannot activate a scout) nor [last_run_at],
    the failure count or the scrape options; a field that is not given
    keeps its value; the messages are left alone; when the store reports
    an error nothing is written and the tool reports no success; and it
    reports [completed: true] exactly when the scout, after the update, is
    stored once and completely configured. *)
Theorem update_scout_config_writes_what_it_is_given (conversation : string)
    (updateError : option string) (params : Chat.Params) (store : Chat.Store) :
  let outcome := fst (Chat.execute conversation updateError params store) in
  let store' := snd (Chat.execute conversation updateError params store) in
  Forall2 (configuredOnly conversation params) (Chat.scouts store) (Chat.scouts store')
  /\ Chat.scout_messages store' = Chat.scout_messages store
  /\ (Chat.success outcome = false <-> updateError <> None)
  /\ (updateError <> None -> store' = store)
  /\ (Chat.completed outcome = Some true
      <-> updateError = None
          /\ exists updated,
               filter (fun s => String.eqb (Scout.id s) conversation) (Chat.scouts store')
               = [updated]
               /\ isComplete updated = true)
  /\ (updateError = None ->
      Forall2 (fun before after =>
                 Scout.id before = conversation ->
                 (forall v, Chat.new_title params = Some v -> Scout.title after = v)
                 /\ (forall v, Chat.new_goal params = Some v -> Scout.goal after = v)
                 /\ (forall v, Chat.new_description params = Some v ->
                                Scout.description after = v)
                 /\ (forall v, Chat.new_location params = Some v ->
                                Scout.location after = Some v)
                 /\ (forall v, Chat.new_search_queries params = Some v ->
                                Scout.search_queries after = v)
                 /\ (forall v, Chat.new_frequency params = Some v ->
                                Scout.frequency after = Some v))
              (Chat.scouts store) (Chat.scouts store')).
Proof.
  cbv zeta. unfold Chat.execute.
  destruct updateError as [reason |]; cbn [fst snd].
  - split; [ | split; [ | split; [ | split; [ | split ] ] ] ].
    + rewrite <- (map_id (Chat.scouts store)) at 2.
      apply Forall2_map_right. intros row. apply configuredOnly_refl.
    + reflexivity.
    + split; [ discriminate | reflexivity ].
    + reflexivity.
    + split; [ discriminate | intros [Hnone _]; discriminate ].
    + discriminate.
  - set (updated := updateWhere (fun row => String.eqb (Scout.id row) conversation)
                                (Chat.written params) (Chat.scouts store)).
    assert (Hrows : Forall2 (configuredOnly conversation params) (Chat.scouts store) updated).
    { apply Forall2_map_right. apply configuredOnly_written. }
    assert (Hgiven :
              Forall2 (fun before after =>
                 Scout.id before = conversation ->
                 (forall v, Chat.new_title params = Some v -> Scout.title after = v)
                 /\ (forall v, Chat.new_goal params = Some v -> Scout.goal after = v)
                 /\ (forall v, Chat.new_description params = Some v ->
                                Scout.description after = v)
                 /\ (forall v, Chat.new_location params = Some v ->
                                Scout.location after = Some v)
                 /\ (forall v, Chat.new_search_queries params = Some v ->
                                Scout.search_queries after = v)
                 /\ (forall v, Chat.new_frequency params = Some v ->
                                Scout.frequency after = Some v))
              (Chat.scouts store) updated).
    { apply Forall2_map_right. intros row Hid.
      exact (given_is_written conversation params row Hid). }
    cbv zeta. cbn [Chat.scouts].
    destruct (fetchScout conversation updated) as [row |] eqn:Hfetch.
    + pose proof (fetchScout_single _ _ _ Hfetch) as (Hsingle & _ & _).
      destruct (isComplete row) eqn:Hcomplete; cbn [fst snd Chat.scouts Chat.scout_messages
                                                    Chat.success Chat.completed].
      * split; [ exact Hrows | ]. split; [ reflexivity | ].
        split; [ split; [ discriminate | intros H; contradiction H; reflexivity ] | ].
        split; [ intros H; contradiction H; reflexivity | ].
        split; [ | intros _; exact Hgiven ].
        split; [ intros _; split; [ reflexivity | exists row; auto ] | reflexivity ].
      * split; [ exact Hrows | ]. split; [ reflexivity | ].
        split; [ split; [ discriminate | intros H; contradiction H; reflexivity ] | ].
        split; [ intros H; contradiction H; reflexivity | ].
        split; [ | intros _; exact Hgiven ].
        split; [ discriminate | ].
        intros [_ (other & Hother & Hready)]. rewrite Hsingle in Hother.
        injection Hother as <-. congruence.
    + cbn [fst snd Chat.scouts Chat.scout_messages Chat.success Chat.completed].
      split; [ exact Hrows | ]. split; [ reflexivity | ].
      split; [ split; [ discriminate | intros H; contradiction H; reflexivity ] | ].
      split; [ intros H; contradiction H; reflexivity | ].
      split; [ | intros _; exact Hgiven ].
      split; [ discriminate | ].
      intros [_ (other & Hother & _)]. unfold fetchScout in Hfetch.
      rewrite Hother in Hfetch. discriminate.
Qed.

Lemma Forall2_compose {A : Type} (R : A -> A -> Prop) (l1 l2 l3 : list A) :
  (forall a b c, R a b -> R b c -> R a c) ->
  Forall2 R l1 l2 -> Forall2 R l2 l3 -> Forall2 R l1 l3.
Proof.
  intros Htrans H12. revert l3.
  induction H12 as [| a b l1 l2 Hab _ IH]; intros l3 H23; inversion H23; subst;
    constructor; eauto.
Qed.

Lemma sameButConfigured_trans conversation a b c :
  sameButConfigured conversation a b -> sameButConfigured conversation b c ->
  sameButConfigured conversation a c.
Proof.
  unfold sameButConfigured.
  intros (Hid & Huser & Hactive & Hsame) (Hid' & Huser' & Hactive' & Hsame').
  repeat split; try congruence.
  intros Hother. rewrite Hsame'; [ auto | rewrite Hid; exact Hother ].
Qed.

Lemma execute_rows conversation updateError params store :
  Forall2 (sameButConfigured conversation) (Chat.scouts store)
          (Chat.scouts (snd (Chat.execute conversation updateError params store)))
  /\ Chat.scout_messages (snd (Chat.execute conversation updateError params store))
     = Chat.scout_messages store.
Proof.
  assert (Hwritten : forall row,
             sameButConfigured conversation row
               (if String.eqb (Scout.id row) conversation
                then Chat.written params row else row)).
  { intros row. unfold sameButConfigured.
    destruct (String.eqb (Scout.id row) conversation) eqn:Hid; [ | auto ].
    apply String.eqb_eq in Hid. cbn. repeat split. intros Hother. contradiction. }
  unfold Chat.execute. destruct updateError as [reason |]; cbn [fst snd].
  - split; [ | reflexivity ].
    rewrite <- (map_id (Chat.scouts store)) at 2.
    apply Forall2_map_right. intros row. unfold sameButConfigured. auto.
  - cbv zeta. cbn [Chat.scouts].
    destruct (fetchScout conversation _) as [row |]; [ destruct (isComplete row) | ];
      cbn [fst snd Chat.scouts Chat.scout_messages];
      (split; [ apply Forall2_map_right, Hwritten | reflexivity ]).
Qed.

Lemma afterToolCalls_rows conversation calls store :
  Forall2 (sameButConfigured conversation) (Chat.scouts store)
          (Chat.scouts (afterToolCalls conversation calls store))
  /\ Chat.scout_messages (afterToolCalls conversation calls store)
     = Chat.scout_messages store.
Proof.
  unfold afterToolCalls. revert store.
  induction calls as [| [updateError params] calls IH]; intros store; cbn [fold_left fst snd].
  - split; [ | reflexivity ].
    rewrite <- (map_id (Chat.scouts store)) at 2.
    apply Forall2_map_right. intros row. unfold sameButConfigured. auto.
  - destruct (execute_rows conversation updateError params store) as [Hrows Hmessages].
    destruct (IH (snd (Chat.execute conversation updateError params store)))
      as [Hrows' Hmessages'].
    split; [ | congruence ].
    eapply Forall2_compose; [ apply sameButConfigured_trans | exact Hrows | exact Hrows' ].
Qed.

Lemma Forall2_In_weaken {A : Type} (R R' : A -> A -> Prop) (l l' : list A) :
  (forall a b, In a l -> R a b -> R' a b) -> Forall2 R l l' -> Forall2 R' l l'.
Proof.
  intros Hweak Hall. induction Hall as [| a b l l' Hab _ IH]; constructor.
  - apply Hweak; [ left; reflexivity | exact Hab ].
  - apply IH. intros x y Hin. apply Hweak. right. exact Hin.
Qed.

(** X26.  The assistant changes the scout of the user it talks to, and
    no other.  When [POST] goes on to the model, then whatever the model
    calls the tool with, how often, and whatever the store answers to the
    updates, after the answer is stored every scout has the id, the owner
    and the [is_active] it had, every scout of another user is exactly as
    it was, and the messages of the turn are appended to the stored ones:
    at most one of the user, then the one of the assistant. *)
Theorem assistant_changes_the_users_scout_only (userId : string) (request : Chat.Body)
    (store : Chat.Store) (currentScout : option Scout.t)
    (calls : list (option string * Chat.Params)) (text : string) :
  fst (Chat.POST (Some userId) (Ok request) store) = Chat.Streams currentScout ->
  let conversation := Chat.scoutId request in
  let started := snd (Chat.POST (Some userId) (Ok request) store) in
  let final := Chat.onFinish conversation text (afterToolCalls conversation calls started) in
  Forall2 (fun before after =>
             Scout.id after = Scout.id before
             /\ Scout.user_id after = Scout.user_id before
             /\ Scout.is_active after = Scout.is_active before
             /\ (Scout.user_id before <> userId -> after = before))
          (Chat.scouts store) (Chat.scouts final)
  /\ exists asked,
       (List.length asked <= 1)%nat
       /\ Chat.scout_messages final
          = (Chat.scout_messages store ++ asked
             ++ [{| Chat.message_scout_id := conversation;
                    Chat.message_role := "assistant";
                    Chat.message_content := text |}])%list.
Proof.
  intros Hstreams. cbv zeta.
  destruct (afterToolCalls_rows (Chat.scoutId request) calls
              (snd (Chat.POST (Some userId) (Ok request) store))) as [Hrows Hmessages].
  unfold Chat.onFinish. cbn [Chat.scouts Chat.scout_messages]. rewrite Hmessages.
  clear Hmessages. revert Hstreams Hrows. unfold Chat.POST.
  destruct (fetchScout (Chat.scoutId request) (Chat.scouts store)) as [scout |] eqn:Hfetch;
    [ | discriminate ].
  destruct (String.eqb (Scout.user_id scout) userId) eqn:Howner; cbn [negb];
    [ | discriminate ].
  apply String.eqb_eq in Howner. cbv zeta. cbn [fst snd]. intros _.
  assert (Hsaved : exists asked,
             (List.length asked <= 1)%nat
             /\ Chat.saveUserMessage request store
                = {| Chat.scouts := Chat.scouts store;
                     Chat.scout_messages := (Chat.scout_messages store ++ asked)%list |}).
  { unfold Chat.saveUserMessage.
    assert (Hnone : exists asked,
               (List.length asked <= 1)%nat
               /\ store = {| Chat.scouts := Chat.scouts store;
                             Chat.scout_messages := (Chat.scout_messages store ++ asked)%list |}).
    { exists []. split; [ cbn; lia | ]. rewrite app_nil_r. destruct store; reflexivity. }
    destruct (Chat.lastMessage (Chat.messages request)) as [message |]; [ | exact Hnone ].
    destruct (String.eqb (Chat.role message) "user"); [ | exact Hnone ].
    cbv zeta. destruct (JsString.nonEmpty (Chat.textOf message)); [ | exact Hnone ].
    eexists [_]. split; [ cbn; lia | reflexivity ]. }
  destruct Hsaved as (asked & Hone & ->). cbn [Chat.scouts Chat.scout_messages].
  intros Hrows. split.
  - apply fetchScout_single in Hfetch. destruct Hfetch as (Hsingle & _ & _).
    eapply Forall2_In_weaken; [ | exact Hrows ].
    intros before after Hin (Hid & Huser & Hactive & Hsame).
    repeat split; auto. intros Hother. apply Hsame. intros Hconversation.
    assert (Hfound : In before (filter (fun s => String.eqb (Scout.id s) (Chat.scoutId request))
                                       (Chat.scouts store))).
    { apply filter_In. split; [ exact Hin | apply String.eqb_eq, Hconversation ]. }
    rewrite Hsingle in Hfound. destruct Hfound as [<- | []]. contradiction.
  - exists asked. split; [ exact Hone | ]. rewrite <- app_assoc. reflexivity.
Qed.

(** The owner of S1 asks for a new title; the update is stored, and the
    scout S3 of the other user is as it was. *)
Lemma assistant_changes_witness :
  let final :=
    Chat.onFinish "S1" "Done."
      (afterToolCalls "S1" [(None, Scenario.newTitle)]
         (snd (Chat.POST (Some "U1") (Ok Scenario.chatBody) Scenario.chatStore))) in
  Forall2 (fun before after =>
             Scout.id after = Scout.id before
             /\ Scout.user_id after = Scout.user_id before
             /\ Scout.is_active after = Scout.is_active before
             /\ (Scout.user_id before <> "U1" -> after = before))
          (Chat.scouts Scenario.chatStore) (Chat.scouts final)
  /\ exists asked,
       (List.length asked <= 1)%nat
       /\ Chat.scout_messages final
          = (Chat.scout_messages Scenario.chatStore ++ asked
             ++ [{| Chat.message_scout_id := "S1";
                    Chat.message_role := "assistant";
                    Chat.message_content := "Done." |}])%list.
Proof.
  exact (assistant_changes_the_users_scout_only "U1" Scenario.chatBody Scenario.chatStore
           (Some Sample.scoutS1) [(None, Scenario.newTitle)] "Done." eq_refl).
Defined.

(** The tool is given the title "AI Releases" for S1, and stores it. *)
Lemma update_scout_config_witness :
  Forall2 (fun before after => Scout.id before = "S1" -> Scout.title after = "AI Releases")
          (Chat.scouts Scenario.chatStore)
          (Chat.scouts (snd (Chat.execute "S1" None Scenario.newTitle Scenario.chatStore))).
Proof.
  destruct (update_scout_config_writes_what_it_is_given
              "S1" None Scenario.newTitle Scenario.chatStore)
    as (_ & _ & _ & _ & _ & Hgiven).
  eapply Forall2_impl; [ | exact (Hgiven eq_refl) ].
  intros before after Hstored Hid. apply (Hstored Hid). reflexivity.
Defined.

(** The owner of S1 writes "Track AI news": the message is stored. *)
Example owner_message_is_stored :
  Chat.POST (Some "U1") (Ok Scenario.chatBody) Scenario.chatStore
  = (Chat.Streams (Some Sample.scoutS1),
     {| Chat.scouts := [Sample.scoutS1; Sample.scoutS2; Scenario.scoutS3];
        Chat.scout_messages :=
          [{| Chat.message_scout_id := "S1"; Chat.message_role := "user";
              Chat.message_content := "Track AI news" |}] |}).
Proof. reflexivity. Qed.

(** Another user is refused, and nothing is stored. *)
Example stranger_is_refused :
  Chat.POST (Some "U2") (Ok Scenario.chatBody) Scenario.chatStore
  = (Chat.Refused 403 "Scout not found or unauthorized", Scenario.chatStore).
Proof. reflexivity. Qed.

(** A new title for S1: S1 was complete and stays so, the others are as
    they were. *)
Example a_new_title :
  let result := Chat.execute "S1" None Scenario.newTitle Scenario.chatStore in
  Chat.completed (fst result) = Some true
  /\ map Scout.title (Chat.scouts (snd result)) = ["AI Releases"; "Rust News"; "Jobs"]
  /\ map Scout.is_active (Chat.scouts (snd result)) = [true; true; false].
Proof. vm_compute. repeat split. Qed.

(** A title for S3, which has nothing else: the tool reports that the
    scout is not complete. *)
Example a_title_is_not_enough :
  fst (Chat.execute "S3" None Scenario.newTitle Scenario.chatStore)
  = {| Chat.success := true; Chat.completed := Some false;
       Chat.message := Some "Scout updated successfully"; Chat.error := None |}.
Proof. reflexivity. Qed.
